(** * Raya: the tree-sitter structure extractor (tree_sitter_parser.py)

    A shallow embedding of [TreeSitterParser]: language detection, the
    per-language tree walkers and their extraction rules, the complexity
    counter, the fallback line counter and the batch driver.

    Conventions of the embedding.
    - A Python [str] is a [string]; each character stands for the code point
      of the same number (code points below 256).
    - A Python [dict] with string keys is an association list in insertion
      order ([dict_get], [dict_set]); the batch result, which is only ever
      used as a map from path to result, is a [gmap].
    - Python values that end up in a result are [pyval]s.
    - A syntax tree is a rose tree of [Node]s carrying what the code reads of
      a tree-sitter node: [type], [start_point], [end_point], [children].
    - Exceptions are values of [exn]; code that can raise lives in [Exc], code
      that also reads files lives in [IO], which threads a clock so that the
      file system may change between two reads.
    - Calls to [logger] have no effect on any result and are left out.
    - The interpreter bounds the depth of nested calls.  Each function that
      recurses over the tree is given twice: as the value it returns when the
      stack suffices (a structural recursion), and, with the suffix
      [_within], as the interpreter runs it with a given number of calls
      still allowed, raising [RecursionError] on the call that exceeds it.
      [parse_file] runs the second; the first is what it returns on trees
      that fit.  Calls into libraries and built-ins take no frame; the
      condition [fits], under which results are stated, leaves one to
      spare. *)

From Stdlib Require Import ZArith Ascii String Lia.
From stdpp Require Import base gmap strings list.

Open Scope string_scope.
Open Scope list_scope.

(** ** Python strings *)

(** [str.isspace] for one character. *)
Definition is_space (c : ascii) : bool :=
  let n := nat_of_ascii c in
  (((9 <=? n) && (n <=? 13)) || ((28 <=? n) && (n <=? 32))
   || (n =? 133) || (n =? 160))%nat.

Fixpoint lstrip (s : string) : string :=
  match s with
  | EmptyString => EmptyString
  | String c s' => if is_space c then lstrip s' else s
  end.

Fixpoint rstrip (s : string) : string :=
  match s with
  | EmptyString => EmptyString
  | String c s' =>
      match rstrip s' with
      | EmptyString => if is_space c then EmptyString else String c EmptyString
      | r => String c r
      end
  end.

(** [s.strip()] *)
Definition strip (s : string) : string := rstrip (lstrip s).

(** [s.split(sep)] for a one-character separator: never an empty list. *)
Fixpoint split (sep : ascii) (s : string) : list string :=
  match s with
  | EmptyString => [EmptyString]
  | String c s' =>
      if Ascii.eqb c sep then EmptyString :: split sep s'
      else match split sep s' with
           | l :: ls => String c l :: ls
           | [] => [String c EmptyString]
           end
  end.

Definition newline : ascii := ascii_of_nat 10.

(** [s[a:b]] for non-negative [a] and [b]: never raises. *)
Definition slice (s : string) (a b : nat) : string := substring a (b - a) s.

Definition lower_char (c : ascii) : ascii :=
  let n := nat_of_ascii c in
  if (((65 <=? n) && (n <=? 90))
      || ((192 <=? n) && (n <=? 222) && negb (n =? 215)))%nat
  then ascii_of_nat (n + 32) else c.

(** [s.lower()] *)
Fixpoint lower (s : string) : string :=
  match s with
  | EmptyString => EmptyString
  | String c s' => String (lower_char c) (lower s')
  end.

(** The part of [s] after the last occurrence of [sep], if there is one. *)
Fixpoint after_last (sep : ascii) (s : string) : option string :=
  match s with
  | EmptyString => None
  | String c s' =>
      match after_last sep s' with
      | Some r => Some r
      | None => if Ascii.eqb c sep then Some s' else None
      end
  end.

Fixpoint drop_dots (s : string) : string :=
  match s with
  | String c s' => if Ascii.eqb c "." then drop_dots s' else s
  | EmptyString => EmptyString
  end.

(** [os.path.splitext(p)[1]] (posixpath): the extension starts at the last
    dot of the last path component, leading dots of that component apart. *)
Definition splitext_ext (p : string) : string :=
  let base := match after_last "/" p with Some b => b | None => p end in
  match after_last "." (drop_dots base) with
  | Some e => String "." e
  | None => EmptyString
  end.

Definition member (s : string) (l : list string) : bool :=
  existsb (String.eqb s) l.

(** ** Python values and dictionaries *)

#[warnings="-register-all"] Inductive pyval :=
| PNone
| PInt (z : Z)
| PStr (s : string)
| PList (l : list pyval)
| PDict (d : list (string * pyval)).

Definition dict := list (string * pyval).

(** [d.get(k)] *)
Fixpoint dict_get (k : string) (d : dict) : option pyval :=
  match d with
  | [] => None
  | (k', v) :: d' => if String.eqb k k' then Some v else dict_get k d'
  end.

(** [d[k] = v] *)
Fixpoint dict_set (k : string) (v : pyval) (d : dict) : dict :=
  match d with
  | [] => [(k, v)]
  | (k', v') :: d' =>
      if String.eqb k k' then (k', v) :: d' else (k', v') :: dict_set k v d'
  end.

(** [d[k].append(x)], for a dictionary that holds a list under [k], as the
    result dictionaries of the walkers do for each key they append to. *)
Fixpoint dict_append (k : string) (x : pyval) (d : dict) : dict :=
  match d with
  | [] => []
  | (k', v) :: d' =>
      if String.eqb k k'
      then (k', match v with PList l => PList (l ++ [x]) | _ => v end) :: d'
      else (k', v) :: dict_append k x d'
  end.

Definition dict_keys (d : dict) : list string := map fst d.

(** Truth value of a Python object in a condition. *)
Definition truthy (v : pyval) : bool :=
  match v with
  | PNone => false
  | PInt z => negb (Z.eqb z 0)
  | PStr s => negb (String.eqb s EmptyString)
  | PList l => match l with [] => false | _ => true end
  | PDict d => match d with [] => false | _ => true end
  end.

(** ** Exceptions *)

Record exn := mkExn { exn_kind : string; exn_msg : string }.

Definition IndexError : exn := mkExn "IndexError" "list index out of range".
Definition TypeError : exn :=
  mkExn "TypeError" "object does not support item assignment".

Inductive Exc (A : Type) : Type :=
| Ok (a : A)
| Raise (e : exn).
Arguments Ok {A} a.
Arguments Raise {A} e.

Definition bindE {A B} (m : Exc A) (k : A -> Exc B) : Exc B :=
  match m with
  | Ok a => k a
  | Raise e => Raise e
  end.

(** [try: m  except Exception as e: return h e], where [m] returns. *)
Definition try_return {A} (m : Exc A) (h : exn -> A) : A :=
  match m with
  | Ok a => a
  | Raise e => h e
  end.

Notation "x <- m ;; k" := (bindE m (fun x => k))
  (at level 100, m at next level, right associativity).

Fixpoint mapE {A B} (f : A -> Exc B) (l : list A) : Exc (list B) :=
  match l with
  | [] => Ok []
  | a :: l' => b <- f a ;; bs <- mapE f l' ;; Ok (b :: bs)
  end.

(** ** Syntax trees *)

#[warnings="-register-all"] Inductive Node := mkNode {
  type : string;
  start_point : nat * nat;
  end_point : nat * nat;
  children : list Node
}.

(** [for child in cs: if child.type == ty: found = child; break] *)
Definition first_child (ty : string) (cs : list Node) : option Node :=
  find (fun c => String.eqb (type c) ty) cs.

(** [lines[n.start_point[0]][n.start_point[1]:n.end_point[1]]]: the list
    index raises [IndexError] out of range, the slice never raises. *)
Definition node_text (lines : list string) (n : Node) : Exc string :=
  match nth_error lines (fst (start_point n)) with
  | Some line => Ok (slice line (snd (start_point n)) (snd (end_point n)))
  | None => Raise IndexError
  end.

(** ** Complexity (lines 429-441) *)

Definition branch_kinds : list string :=
  ["if_statement"; "while_statement"; "for_statement"; "except_clause"].

(** The closure [traverse_for_complexity]; its [nonlocal complexity] is
    passed in and returned.  As a structural recursion: the count the
    closure returns when the stack suffices
    ([traverse_for_complexity_within] is the closure on a bounded stack). *)
Fixpoint traverse_for_complexity (n : Node) (complexity : nat) : nat :=
  match n with
  | mkNode ty _ _ ch =>
      let complexity :=
        if member ty branch_kinds then complexity + 1 else complexity in
      fold_left (fun acc child => traverse_for_complexity child acc)
        ch complexity
  end.

Definition _calculate_complexity (node : Node) : nat :=
  traverse_for_complexity node 1.

(** ** Python extraction rules (lines 147-286) *)

Definition line_no (row : nat) : pyval := PInt (Z.of_nat row + 1).

(** The body of the [try] of [_extract_python_function]. *)
Definition extract_python_function_body (node : Node) (lines : list string)
  : Exc pyval :=
  let start_line := fst (start_point node) in
  let end_line := fst (end_point node) in
  match first_child "identifier" (children node) with
  | None => Ok PNone
  | Some name_node =>
      func_name <- node_text lines name_node ;;
      parameters <-
        match first_child "parameters" (children node) with
        | Some params_node =>
            mapE (node_text lines)
              (List.filter (fun c => String.eqb (type c) "identifier")
                 (children params_node))
        | None => Ok []
        end ;;
      docstring <-
        match first_child "block" (children node) with
        | Some body_node =>
            match nth_error (children body_node) 1 with
            | Some first_stmt =>
                if String.eqb (type first_stmt) "expression_statement"
                then match children first_stmt with
                     | expr_child :: _ =>
                         if String.eqb (type expr_child) "string"
                         then s <- node_text lines expr_child ;; Ok (PStr s)
                         else Ok PNone
                     | [] => Ok PNone
                     end
                else Ok PNone
            | None => Ok PNone
            end
        | None => Ok PNone
        end ;;
      Ok (PDict [("name", PStr func_name);
                 ("start_line", line_no start_line);
                 ("end_line", line_no end_line);
                 ("parameters", PList (map PStr parameters));
                 ("docstring", docstring);
                 ("complexity", PInt (Z.of_nat (_calculate_complexity node)))])
  end.

Definition _extract_python_function (node : Node) (lines : list string)
  : pyval :=
  try_return (extract_python_function_body node lines) (fun _ => PNone).

(** The body of the [try] of [_extract_python_class]. *)
Definition extract_python_class_body (node : Node) (lines : list string)
  : Exc pyval :=
  let start_line := fst (start_point node) in
  let end_line := fst (end_point node) in
  match first_child "identifier" (children node) with
  | None => Ok PNone
  | Some name_node =>
      class_name <- node_text lines name_node ;;
      let methods :=
        match first_child "block" (children node) with
        | Some body_node =>
            List.filter truthy
              (map (fun child => _extract_python_function child lines)
                 (List.filter
                    (fun c => String.eqb (type c) "function_definition")
                    (children body_node)))
        | None => []
        end in
      Ok (PDict [("name", PStr class_name);
                 ("start_line", line_no start_line);
                 ("end_line", line_no end_line);
                 ("methods", PList methods);
                 ("attributes", PList [])])
  end.

Definition _extract_python_class (node : Node) (lines : list string)
  : pyval :=
  try_return (extract_python_class_body node lines) (fun _ => PNone).

Definition _extract_python_import (node : Node) (lines : list string)
  : pyval :=
  try_return
    (let start_line := fst (start_point node) in
     import_text <- node_text lines node ;;
     Ok (PDict [("type", PStr (type node));
                ("statement", PStr import_text);
                ("line", line_no start_line)]))
    (fun _ => PNone).

(** Falls off the end, returning [None], when the left-hand side is not a
    bare identifier. *)
Definition _extract_python_variable (node : Node) (lines : list string)
  : pyval :=
  try_return
    (let start_line := fst (start_point node) in
     match children node with
     | left_node :: _ =>
         if String.eqb (type left_node) "identifier"
         then var_name <- node_text lines left_node ;;
              Ok (PDict [("name", PStr var_name);
                         ("line", line_no start_line);
                         ("type", PStr "variable")])
         else Ok PNone
     | [] => Ok PNone
     end)
    (fun _ => PNone).

(** ** The Python walker (lines 106-145) *)

(** [info = extract(...); if info: result[key].append(info)] *)
Definition append_if (key : string) (info : pyval) (result : dict) : dict :=
  if truthy info then dict_append key info result else result.

(** The [if]/[elif] chain of the closure [traverse_node], before it recurses
    into the children. *)
Definition visit_python (lines : list string) (node : Node) (result : dict)
  : dict :=
  if String.eqb (type node) "function_definition" then
    append_if "functions" (_extract_python_function node lines) result
  else if String.eqb (type node) "class_definition" then
    append_if "classes" (_extract_python_class node lines) result
  else if member (type node) ["import_statement"; "import_from_statement"] then
    append_if "imports" (_extract_python_import node lines) result
  else if String.eqb (type node) "assignment" then
    append_if "variables" (_extract_python_variable node lines) result
  else result.

(** The closure [traverse_node]; the dictionary [result] it captures and
    mutates is passed in and returned.  As a structural recursion: the
    result the closure leaves when the stack suffices
    ([traverse_python_within] is the closure on a bounded stack). *)
Fixpoint traverse_python (lines : list string) (node : Node) (result : dict)
  : dict :=
  match node with
  | mkNode _ _ _ ch =>
      fold_left (fun acc child => traverse_python lines child acc)
        ch (visit_python lines node result)
  end.

Definition _parse_python (tree : Node) (content : string) : pyval :=
  let result := [("language", PStr "python");
                 ("functions", PList []);
                 ("classes", PList []);
                 ("imports", PList []);
                 ("variables", PList []);
                 ("errors", PList [])] in
  let lines := split newline content in
  PDict (traverse_python lines tree result).

(** ** JavaScript and TypeScript (lines 288-387) *)

Definition _extract_js_function (node : Node) (lines : list string) : pyval :=
  try_return
    (let start_line := fst (start_point node) in
     let end_line := fst (end_point node) in
     func_name <-
       match first_child "identifier" (children node) with
       | Some child => node_text lines child
       | None => Ok "anonymous"
       end ;;
     Ok (PDict [("name", PStr func_name);
                ("start_line", line_no start_line);
                ("end_line", line_no end_line);
                ("parameters", PList []);
                ("type", PStr (type node))]))
    (fun _ => PNone).

Definition _extract_js_class (node : Node) (lines : list string) : pyval :=
  try_return
    (let start_line := fst (start_point node) in
     let end_line := fst (end_point node) in
     class_name <-
       match first_child "identifier" (children node) with
       | Some child => node_text lines child
       | None => Ok "anonymous"
       end ;;
     Ok (PDict [("name", PStr class_name);
                ("start_line", line_no start_line);
                ("end_line", line_no end_line);
                ("methods", PList [])]))
    (fun _ => PNone).

Definition _extract_js_import (node : Node) (lines : list string) : pyval :=
  try_return
    (let start_line := fst (start_point node) in
     import_text <- node_text lines node ;;
     Ok (PDict [("statement", PStr import_text);
                ("line", line_no start_line)]))
    (fun _ => PNone).

Definition visit_javascript (lines : list string) (node : Node)
  (result : dict) : dict :=
  if member (type node)
       ["function_declaration"; "function_expression"; "arrow_function"] then
    append_if "functions" (_extract_js_function node lines) result
  else if String.eqb (type node) "class_declaration" then
    append_if "classes" (_extract_js_class node lines) result
  else if member (type node) ["import_statement"; "import_clause"] then
    append_if "imports" (_extract_js_import node lines) result
  else result.

(** The closure [traverse_node] of [_parse_javascript], in the same way
    ([traverse_javascript_within] is the closure on a bounded stack). *)
Fixpoint traverse_javascript (lines : list string) (node : Node)
  (result : dict) : dict :=
  match node with
  | mkNode _ _ _ ch =>
      fold_left (fun acc child => traverse_javascript lines child acc)
        ch (visit_javascript lines node result)
  end.

Definition _parse_javascript (tree : Node) (content : string) : pyval :=
  let result := [("language", PStr "javascript");
                 ("functions", PList []);
                 ("classes", PList []);
                 ("imports", PList []);
                 ("exports", PList []);
                 ("variables", PList []);
                 ("errors", PList [])] in
  let lines := split newline content in
  PDict (traverse_javascript lines tree result).

(** ** Languages without extraction rules (lines 389-427) *)

Definition _parse_java (tree : Node) (content : string) : pyval :=
  PDict [("language", PStr "java");
         ("functions", PList []);
         ("classes", PList []);
         ("imports", PList []);
         ("errors", PList [])].

Definition _parse_cpp (tree : Node) (content : string) : pyval :=
  PDict [("language", PStr "cpp");
         ("functions", PList []);
         ("classes", PList []);
         ("includes", PList []);
         ("errors", PList [])].

Definition _parse_go (tree : Node) (content : string) : pyval :=
  PDict [("language", PStr "go");
         ("functions", PList []);
         ("structs", PList []);
         ("imports", PList []);
         ("errors", PList [])].

Definition _parse_rust (tree : Node) (content : string) : pyval :=
  PDict [("language", PStr "rust");
         ("functions", PList []);
         ("structs", PList []);
         ("imports", PList []);
         ("errors", PList [])].

(** ** The interpreter's stack

    The walkers call themselves once per level of the tree, the rules are
    called from the walkers and [_calculate_complexity], which walks the
    subtree again, from the rule for functions.  The interpreter raises
    [RecursionError] on a call that would exceed its limit, before the body
    of the callee starts: inside a rule the error is caught by the rule's
    own [except] and the record is dropped; in a walker nothing catches it
    before [parse_file] does.

    [frames] is the number of calls that may still be nested. *)

Definition RecursionError : exn :=
  mkExn "RecursionError" "maximum recursion depth exceeded".

(** A call of a function or closure of the module. *)
Definition call {A} (frames : nat) (body : nat -> Exc A) : Exc A :=
  match frames with
  | 0 => Raise RecursionError
  | S frames' => body frames'
  end.

(** [for a in l: s = f(s, a)], left by the first exception. *)
Fixpoint foldE {A S} (f : S -> A -> Exc S) (l : list A) (s : S) : Exc S :=
  match l with
  | [] => Ok s
  | a :: l' => s' <- f s a ;; foldE f l' s'
  end.

(** Lines 433-438. *)
Fixpoint traverse_for_complexity_within (frames : nat) (n : Node)
  (complexity : nat) {struct frames} : Exc nat :=
  match frames with
  | 0 => Raise RecursionError
  | S frames' =>
      let complexity :=
        if member (type n) branch_kinds then complexity + 1 else complexity in
      foldE (fun acc child => traverse_for_complexity_within frames' child acc)
        (children n) complexity
  end.

(** Lines 429-441. *)
Definition _calculate_complexity_within (frames : nat) (node : Node)
  : Exc nat :=
  call frames (fun frames => traverse_for_complexity_within frames node 1).

(** The body of the [try] of [_extract_python_function], lines 150-201. *)
Definition extract_python_function_body_within (frames : nat) (node : Node)
  (lines : list string) : Exc pyval :=
  let start_line := fst (start_point node) in
  let end_line := fst (end_point node) in
  match first_child "identifier" (children node) with
  | None => Ok PNone
  | Some name_node =>
      func_name <- node_text lines name_node ;;
      parameters <-
        match first_child "parameters" (children node) with
        | Some params_node =>
            mapE (node_text lines)
              (List.filter (fun c => String.eqb (type c) "identifier")
                 (children params_node))
        | None => Ok []
        end ;;
      docstring <-
        match first_child "block" (children node) with
        | Some body_node =>
            match nth_error (children body_node) 1 with
            | Some first_stmt =>
                if String.eqb (type first_stmt) "expression_statement"
                then match children first_stmt with
                     | expr_child :: _ =>
                         if String.eqb (type expr_child) "string"
                         then s <- node_text lines expr_child ;; Ok (PStr s)
                         else Ok PNone
                     | [] => Ok PNone
                     end
                else Ok PNone
            | None => Ok PNone
            end
        | None => Ok PNone
        end ;;
      complexity <- _calculate_complexity_within frames node ;;
      Ok (PDict [("name", PStr func_name);
                 ("start_line", line_no start_line);
                 ("end_line", line_no end_line);
                 ("parameters", PList (map PStr parameters));
                 ("docstring", docstring);
                 ("complexity", PInt (Z.of_nat complexity))])
  end.

(** The call raises when no call is left; once entered, the function
    returns, a record or [None]. *)
Definition _extract_python_function_within (frames : nat) (node : Node)
  (lines : list string) : Exc pyval :=
  call frames
    (fun frames =>
       Ok (try_return (extract_python_function_body_within frames node lines)
             (fun _ => PNone))).

(** The body of the [try] of [_extract_python_class], lines 210-246. *)
Definition extract_python_class_body_within (frames : nat) (node : Node)
  (lines : list string) : Exc pyval :=
  let start_line := fst (start_point node) in
  let end_line := fst (end_point node) in
  match first_child "identifier" (children node) with
  | None => Ok PNone
  | Some name_node =>
      class_name <- node_text lines name_node ;;
      methods <-
        match first_child "block" (children node) with
        | Some body_node =>
            infos <-
              mapE (fun child =>
                      _extract_python_function_within frames child lines)
                (List.filter
                   (fun c => String.eqb (type c) "function_definition")
                   (children body_node)) ;;
            Ok (List.filter truthy infos)
        | None => Ok []
        end ;;
      Ok (PDict [("name", PStr class_name);
                 ("start_line", line_no start_line);
                 ("end_line", line_no end_line);
                 ("methods", PList methods);
                 ("attributes", PList [])])
  end.

Definition _extract_python_class_within (frames : nat) (node : Node)
  (lines : list string) : Exc pyval :=
  call frames
    (fun frames =>
       Ok (try_return (extract_python_class_body_within frames node lines)
             (fun _ => PNone))).

(** The rules that call nothing of the module need one frame, their own. *)
Definition _extract_python_import_within (frames : nat) (node : Node)
  (lines : list string) : Exc pyval :=
  call frames (fun _ => Ok (_extract_python_import node lines)).

Definition _extract_python_variable_within (frames : nat) (node : Node)
  (lines : list string) : Exc pyval :=
  call frames (fun _ => Ok (_extract_python_variable node lines)).

Definition _extract_js_function_within (frames : nat) (node : Node)
  (lines : list string) : Exc pyval :=
  call frames (fun _ => Ok (_extract_js_function node lines)).

Definition _extract_js_class_within (frames : nat) (node : Node)
  (lines : list string) : Exc pyval :=
  call frames (fun _ => Ok (_extract_js_class node lines)).

Definition _extract_js_import_within (frames : nat) (node : Node)
  (lines : list string) : Exc pyval :=
  call frames (fun _ => Ok (_extract_js_import node lines)).

(** Lines 120-138. *)
Definition visit_python_within (frames : nat) (lines : list string)
  (node : Node) (result : dict) : Exc dict :=
  if String.eqb (type node) "function_definition" then
    func_info <- _extract_python_function_within frames node lines ;;
    Ok (append_if "functions" func_info result)
  else if String.eqb (type node) "class_definition" then
    class_info <- _extract_python_class_within frames node lines ;;
    Ok (append_if "classes" class_info result)
  else if member (type node) ["import_statement"; "import_from_statement"] then
    import_info <- _extract_python_import_within frames node lines ;;
    Ok (append_if "imports" import_info result)
  else if String.eqb (type node) "assignment" then
    var_info <- _extract_python_variable_within frames node lines ;;
    Ok (append_if "variables" var_info result)
  else Ok result.

(** Lines 119-142. *)
Fixpoint traverse_python_within (frames : nat) (lines : list string)
  (node : Node) (result : dict) {struct frames} : Exc dict :=
  match frames with
  | 0 => Raise RecursionError
  | S frames' =>
      result <- visit_python_within frames' lines node result ;;
      foldE (fun acc child => traverse_python_within frames' lines child acc)
        (children node) result
  end.

(** Lines 106-145. *)
Definition _parse_python_within (frames : nat) (tree : Node)
  (content : string) : Exc pyval :=
  let result := [("language", PStr "python");
                 ("functions", PList []);
                 ("classes", PList []);
                 ("imports", PList []);
                 ("variables", PList []);
                 ("errors", PList [])] in
  let lines := split newline content in
  result <- traverse_python_within frames lines tree result ;;
  Ok (PDict result).

(** Lines 303-316. *)
Definition visit_javascript_within (frames : nat) (lines : list string)
  (node : Node) (result : dict) : Exc dict :=
  if member (type node)
       ["function_declaration"; "function_expression"; "arrow_function"] then
    func_info <- _extract_js_function_within frames node lines ;;
    Ok (append_if "functions" func_info result)
  else if String.eqb (type node) "class_declaration" then
    class_info <- _extract_js_class_within frames node lines ;;
    Ok (append_if "classes" class_info result)
  else if member (type node) ["import_statement"; "import_clause"] then
    import_info <- _extract_js_import_within frames node lines ;;
    Ok (append_if "imports" import_info result)
  else Ok result.

(** Lines 302-320. *)
Fixpoint traverse_javascript_within (frames : nat) (lines : list string)
  (node : Node) (result : dict) {struct frames} : Exc dict :=
  match frames with
  | 0 => Raise RecursionError
  | S frames' =>
      result <- visit_javascript_within frames' lines node result ;;
      foldE
        (fun acc child => traverse_javascript_within frames' lines child acc)
        (children node) result
  end.

(** Lines 288-323. *)
Definition _parse_javascript_within (frames : nat) (tree : Node)
  (content : string) : Exc pyval :=
  let result := [("language", PStr "javascript");
                 ("functions", PList []);
                 ("classes", PList []);
                 ("imports", PList []);
                 ("exports", PList []);
                 ("variables", PList []);
                 ("errors", PList [])] in
  let lines := split newline content in
  result <- traverse_javascript_within frames lines tree result ;;
  Ok (PDict result).

(** ** The world outside: grammars, parsers and files *)

Record World := mkWorldWith {
  (** whether the body of the [try] in the loop of [_setup_languages]
      succeeds for a language: its grammar module imports and a parser is
      created for it *)
  grammar_loads : string -> bool;
  (** [self.parsers[language].parse(bytes(content, 'utf-8'))]: the root node
      of the tree, or whatever the library raises *)
  ts_parse : string -> string -> Exc Node;
  (** [open(path, 'r', encoding='utf-8', errors='ignore').read()] at a given
      moment: the decoded content, or the error raised *)
  fs : nat -> string -> Exc string;
  (** the number of calls that may still be nested inside a rule set
      ([_parse_python], ...) when [parse_file] has called it: what the
      interpreter's limit leaves once the callers of [parse_file], it and the
      rule set are on the stack *)
  stack : nat
}.

(** A thousand calls is the limit of an interpreter that was not told
    otherwise; a caller some hundred calls deep leaves this much. *)
Definition default_stack : nat := 900.

(** A world with that stack. *)
Definition mkWorld (grammar_loads : string -> bool)
  (ts_parse : string -> string -> Exc Node) (fs : nat -> string -> Exc string)
  : World :=
  mkWorldWith grammar_loads ts_parse fs default_stack.

(** Computations that read files: the clock counts the reads made so far. *)
Definition IO (A : Type) : Type := nat -> Exc A * nat.

Definition ret {A} (a : A) : IO A := fun t => (Ok a, t).

Definition bindIO {A B} (m : IO A) (k : A -> IO B) : IO B :=
  fun t => match m t with
           | (Ok a, t') => k a t'
           | (Raise e, t') => (Raise e, t')
           end.

Definition liftE {A} (m : Exc A) : IO A := fun t => (m, t).

(** [try: m  except Exception as e: h e] *)
Definition try_except {A} (m : IO A) (h : exn -> IO A) : IO A :=
  fun t => match m t with
           | (Ok a, t') => (Ok a, t')
           | (Raise e, t') => h e t'
           end.

Notation "x <~ m ;; k" := (bindIO m (fun x => k))
  (at level 100, m at next level, right associativity).

Definition open_read (w : World) (file_path : string) : IO string :=
  fun t => (fs w t file_path, S t).

Fixpoint foldIO {A S} (f : S -> A -> IO S) (l : list A) (s : S) : IO S :=
  match l with
  | [] => ret s
  | a :: l' => s' <~ f s a ;; foldIO f l' s'
  end.

(** ** Grammar registry (lines 15-46) *)

Definition language_configs : list (string * string) :=
  [("python", "tree_sitter_python");
   ("javascript", "tree_sitter_javascript");
   ("typescript", "tree_sitter_typescript");
   ("java", "tree_sitter_java");
   ("cpp", "tree_sitter_cpp");
   ("c", "tree_sitter_cpp");
   ("go", "tree_sitter_go");
   ("rust", "tree_sitter_rust")].

Definition configured_languages : list string := map fst language_configs.

(** The keys of [self.parsers] once [_setup_languages] has run: a language
    whose setup raises is logged and left out. *)
Definition parsers (w : World) : list string :=
  List.filter (fun lang => grammar_loads w lang) configured_languages.

(** ** Language detection (lines 85-104) *)

Definition extension_map : list (string * string) :=
  [(".py", "python");
   (".js", "javascript");
   (".jsx", "javascript");
   (".ts", "typescript");
   (".tsx", "typescript");
   (".java", "java");
   (".cpp", "cpp");
   (".cxx", "cpp");
   (".cc", "cpp");
   (".c", "c");
   (".go", "go");
   (".rs", "rust")].

Fixpoint assoc (k : string) (l : list (string * string)) : option string :=
  match l with
  | [] => None
  | (k', v) :: l' => if String.eqb k k' then Some v else assoc k l'
  end.

Definition _detect_language (file_path : string) : option string :=
  let ext := lower (splitext_ext file_path) in
  assoc ext extension_map.

(** ** Fallback (lines 443-470) *)

Definition str_truthy (s : string) : bool := negb (String.eqb s EmptyString).

Definition _fallback_parse (w : World) (file_path : string) : IO pyval :=
  try_except
    (content <~ open_read w file_path ;;
     let lines := split newline content in
     let language :=
       match _detect_language file_path with
       | Some l => l
       | None => "unknown"
       end in
     ret (PDict
            [("language", PStr language);
             ("functions", PList []);
             ("classes", PList []);
             ("imports", PList []);
             ("lines_of_code",
               PInt (Z.of_nat
                       (length
                          (List.filter (fun line => str_truthy (strip line))
                             lines))));
             ("total_lines", PInt (Z.of_nat (length lines)));
             ("errors",
               PList [PStr "Fallback parsing used - limited functionality"])]))
    (fun e =>
       ret (PDict
              [("language", PStr "unknown");
               ("functions", PList []);
               ("classes", PList []);
               ("imports", PList []);
               ("errors", PList [PStr ("Parsing failed: " ++ exn_msg e)])])).

(** ** Single file (lines 48-83) *)

(** [not language], for [language: str = None] *)
Definition not_language (language : option string) : bool :=
  match language with
  | None => true
  | Some l => String.eqb l EmptyString
  end.

(** Lines 52-53: the language the rest of [parse_file] works with. *)
Definition resolve_language (file_path : string) (language : option string)
  : option string :=
  if not_language language then _detect_language file_path else language.

(** Lines 55-79, for the resolved language. *)
Definition parse_resolved (w : World) (file_path : string)
  (language : option string) : IO pyval :=
  match language with
  | None => _fallback_parse w file_path
  | Some lang =>
      if String.eqb lang EmptyString || negb (member lang (parsers w))
      then _fallback_parse w file_path
      else
        content <~ open_read w file_path ;;
        tree <~ liftE (ts_parse w lang content) ;;
        if String.eqb lang "python" then
          liftE (_parse_python_within (stack w) tree content)
        else if member lang ["javascript"; "typescript"] then
          liftE (_parse_javascript_within (stack w) tree content)
        else if String.eqb lang "java" then
          ret (_parse_java tree content)
        else if member lang ["cpp"; "c"] then
          ret (_parse_cpp tree content)
        else if String.eqb lang "go" then
          ret (_parse_go tree content)
        else if String.eqb lang "rust" then
          ret (_parse_rust tree content)
        else _fallback_parse w file_path
  end.

Definition parse_file (w : World) (file_path : string)
  (language : option string) : IO pyval :=
  try_except
    (parse_resolved w file_path (resolve_language file_path language))
    (fun _ => _fallback_parse w file_path).

(** ** Batch (lines 472-496) *)

Record FileDescriptor := mkFile {
  fd_path : string;
  fd_full_path : string;
  fd_language : option string;
  fd_size : nat
}.

(** The descriptor as the dictionary it is in the source. *)
Definition file_info_val (d : FileDescriptor) : pyval :=
  PDict [("path", PStr (fd_path d));
         ("full_path", PStr (fd_full_path d));
         ("language",
           match fd_language d with Some l => PStr l | None => PNone end);
         ("size", PInt (Z.of_nat (fd_size d)))].

(** [obj[k] = v] *)
Definition set_item (obj : pyval) (k : string) (v : pyval) : Exc pyval :=
  match obj with
  | PDict d => Ok (PDict (dict_set k v d))
  | _ => Raise TypeError
  end.

(** One turn of the loop of [batch_parse_files]. *)
Definition batch_step (w : World) (results : gmap string pyval)
  (file_info : FileDescriptor) : IO (gmap string pyval) :=
  let file_path := fd_full_path file_info in
  let language := fd_language file_info in
  try_except
    (parsed_result <~ parse_file w file_path language ;;
     parsed_result <~
       liftE (set_item parsed_result "file_info" (file_info_val file_info)) ;;
     ret (<[fd_path file_info := parsed_result]> results))
    (fun e =>
       ret (<[fd_path file_info :=
                PDict
                  [("language",
                     PStr (if not_language language then "unknown"
                           else match language with
                                | Some l => l
                                | None => "unknown"
                                end));
                   ("functions", PList []);
                   ("classes", PList []);
                   ("imports", PList []);
                   ("errors", PList [PStr ("Parsing failed: " ++ exn_msg e)]);
                   ("file_info", file_info_val file_info)]]> results)).

Definition batch_parse_files (w : World) (file_list : list FileDescriptor)
  : IO (gmap string pyval) :=
  foldIO (batch_step w) file_list ∅.

(** * Notions used to state the properties *)

(** Every node of a tree, the node itself first (pre-order). *)
Fixpoint preorder (n : Node) : list Node :=
  match n with
  | mkNode _ _ _ ch => n :: flat_map preorder ch
  end.

(** The number of nodes on the longest path from a node down to a leaf. *)
Fixpoint height (n : Node) : nat :=
  match n with
  | mkNode _ _ _ ch => S (fold_right (fun c h => Nat.max (height c) h) 0 ch)
  end.

(** The walk of a tree by a rule set finds room in [frames] calls: one call
    per level of the tree; at a node, three more (the rule, the complexity
    counter and its closure on the node); and one to spare, for what a
    built-in may ask of the stack (some versions of the interpreter count a
    comparison or a call of a built-in as a level of their own). *)
Definition fits (frames : nat) (tree : Node) : Prop :=
  height tree + 4 <= frames.

(** The languages whose rule set walks the tree. *)
Definition walked_languages : list string :=
  ["python"; "javascript"; "typescript"].

(** The rule set of a language finds room for a tree on the stack of the
    world: it does not walk the tree, or the walk fits. *)
Definition room_for (w : World) (lang : string) (tree : Node) : Prop :=
  In lang walked_languages -> fits (stack w) tree.

(** The nodes strictly below a node, at any depth. *)
Definition descendants (n : Node) : list Node :=
  flat_map preorder (children n).

(** Induction on trees, with the property known of every child. *)
Fixpoint Node_rose_ind (P : Node -> Prop)
  (step : forall ty sp ep ch, Forall P ch -> P (mkNode ty sp ep ch))
  (n : Node) : P n :=
  match n with
  | mkNode ty sp ep ch =>
      step ty sp ep ch
        ((fix all (l : list Node) : Forall P l :=
            match l with
            | [] => @List.Forall_nil Node P
            | c :: l' =>
                @List.Forall_cons Node P c l' (Node_rose_ind P step c) (all l')
            end) ch)
  end.

(** A conditional, a while loop, a for loop or an exception handler. *)
Definition is_branch (n : Node) : bool := member (type n) branch_kinds.

Definition branching_descendants (n : Node) : nat :=
  length (List.filter is_branch (descendants n)).

(** The node kinds the walkers treat as functions. *)
Definition function_kinds : list string :=
  ["function_definition"; "function_declaration"; "function_expression";
   "arrow_function"].

(** A span that does not end before the line it starts on, as the spans of
    a parsed tree are. *)
Definition span_ok (n : Node) : Prop :=
  fst (start_point n) <= fst (end_point n).

(** Every node of the tree starts on a line of the content, as the nodes
    of a tree parsed from that content do. *)
Definition rows_in_range (tree : Node) (lines : list string) : Prop :=
  Forall (fun n => fst (start_point n) < length lines) (preorder tree).

(** Reading a result. *)
Definition get (k : string) (v : pyval) : option pyval :=
  match v with
  | PDict d => dict_get k d
  | _ => None
  end.

Definition get_int (k : string) (v : pyval) : option Z :=
  match get k v with
  | Some (PInt z) => Some z
  | _ => None
  end.

Definition get_list (k : string) (v : pyval) : list pyval :=
  match get k v with
  | Some (PList l) => l
  | _ => []
  end.

(** A result in the sense of the data model: a dictionary with a language,
    a list of functions and a list of errors. *)
Definition is_parse_result (v : pyval) : Prop :=
  exists d lang fs es,
    v = PDict d /\ dict_get "language" d = Some (PStr lang)
    /\ dict_get "functions" d = Some (PList fs)
    /\ dict_get "errors" d = Some (PList es).

(** The lines of the record [r] are those of the node [n], counted from 1:
    the start line is at least 1, and it is at most the end line exactly
    when the span of the node does not end before it starts. *)
Definition record_spans (n : Node) (r : pyval) : Prop :=
  exists s e,
    get_int "start_line" r = Some s
    /\ get_int "end_line" r = Some e
    /\ s = (Z.of_nat (fst (start_point n)) + 1)%Z
    /\ e = (Z.of_nat (fst (end_point n)) + 1)%Z
    /\ (1 <= s)%Z
    /\ ((s <= e)%Z <-> span_ok n).

Definition has_complexity (r : pyval) : Prop :=
  exists c, get_int "complexity" r = Some c /\ (1 <= c)%Z.

(** The complexity of the record [r] is the one counted for the node [n],
    which is at least 1. *)
Definition complexity_of (n : Node) (r : pyval) : Prop :=
  get_int "complexity" r = Some (Z.of_nat (_calculate_complexity n))
  /\ has_complexity r.

(** A line with nothing but white space on it. *)
Fixpoint is_blank (s : string) : bool :=
  match s with
  | EmptyString => true
  | String c s' => is_space c && is_blank s'
  end.

(** The component sequences the data model declares for a result. *)
Definition declared_components : list string :=
  ["functions"; "classes"; "imports"; "variables"; "errors"].

Definition has_all_components (v : pyval) : bool :=
  forallb (fun k => match get k v with Some _ => true | None => false end)
    declared_components.

(** The keys each rule set puts in its result. *)
Definition result_keys (lang : string) : list string :=
  if String.eqb lang "python" then
    ["language"; "functions"; "classes"; "imports"; "variables"; "errors"]
  else if member lang ["javascript"; "typescript"] then
    ["language"; "functions"; "classes"; "imports"; "exports"; "variables";
     "errors"]
  else if String.eqb lang "java" then
    ["language"; "functions"; "classes"; "imports"; "errors"]
  else if member lang ["cpp"; "c"] then
    ["language"; "functions"; "classes"; "includes"; "errors"]
  else
    ["language"; "functions"; "structs"; "imports"; "errors"].

(** The language a rule set writes into its result. *)
Definition rule_language (lang : string) : string :=
  if String.eqb lang "typescript" then "javascript"
  else if String.eqb lang "c" then "cpp"
  else lang.

(** Resolution with the detector first and the declared language second. *)
Definition detector_first (file_path : string) (language : option string)
  : option string :=
  match _detect_language file_path with
  | Some l => Some l
  | None => language
  end.

(** The docstring by the convention: the first statement of the body, when
    it is a bare string literal. *)
Definition leading_docstring (node : Node) (lines : list string) : pyval :=
  match first_child "block" (children node) with
  | Some body_node =>
      match children body_node with
      | stmt :: _ =>
          if String.eqb (type stmt) "expression_statement"
          then match children stmt with
               | lit :: _ =>
                   if String.eqb (type lit) "string"
                   then match node_text lines lit with
                        | Ok s => PStr s
                        | Raise _ => PNone
                        end
                   else PNone
               | [] => PNone
               end
          else PNone
      | [] => PNone
      end
  | None => PNone
  end.

(** What one turn of the batch stores for a descriptor at a given moment. *)
Definition entry_at (w : World) (d : FileDescriptor) (t : nat) : pyval :=
  match parse_file w (fd_full_path d) (fd_language d) t with
  | (Ok (PDict r), _) => PDict (dict_set "file_info" (file_info_val d) r)
  | _ => PNone
  end.

(** How often a character occurs in a string. *)
Fixpoint occurrences (c : ascii) (s : string) : nat :=
  match s with
  | EmptyString => 0
  | String c' s' => (if Ascii.eqb c' c then 1 else 0) + occurrences c s'
  end.

(** The number of lines with something other than white space on them. *)
Definition non_blank_lines (lines : list string) : nat :=
  length (List.filter (fun line => negb (is_blank line)) lines).

(** A line: a string without a newline in it. *)
Definition is_line (l : string) : Prop := occurrences newline l = 0.

(** The text made of the given lines, with a newline between two lines and
    none after the last. *)
Fixpoint joined (ls : list string) : string :=
  match ls with
  | [] => EmptyString
  | l :: ls' =>
      match ls' with
      | [] => l
      | _ :: _ => l ++ String newline (joined ls')
      end
  end.

(** The text made of the given lines, with a newline after each line. *)
Fixpoint terminated (ls : list string) : string :=
  match ls with
  | [] => EmptyString
  | l :: ls' => l ++ String newline (terminated ls')
  end.

(** The result of the rule set that [parse_file] picks for a registered
    language. *)
Definition rule_set_result (lang : string) (tree : Node) (content : string)
  : pyval :=
  if String.eqb lang "python" then _parse_python tree content
  else if member lang ["javascript"; "typescript"] then
    _parse_javascript tree content
  else if String.eqb lang "java" then _parse_java tree content
  else if member lang ["cpp"; "c"] then _parse_cpp tree content
  else if String.eqb lang "go" then _parse_go tree content
  else _parse_rust tree content.

(** The moment at which the batch reaches the descriptor at position [i]. *)
Definition clock_at (w : World) (file_list : list FileDescriptor) (t i : nat)
  : nat :=
  snd (batch_parse_files w (take i file_list) t).

(** * Sample inputs *)

Definition nl : string := String newline EmptyString.

(** A node without children on one line. *)
Definition leaf (ty : string) (row c0 c1 : nat) : Node :=
  mkNode ty (row, c0) (row, c1) [].

(** [def f(x):] / ['doc'] / [return x] and its tree. *)
Definition src_doc : string :=
  "def f(x):" ++ nl ++ "    'doc'" ++ nl ++ "    return x".

Definition fn_doc : Node :=
  mkNode "function_definition" (0, 0) (2, 12)
    [leaf "def" 0 0 3;
     leaf "identifier" 0 4 5;
     mkNode "parameters" (0, 5) (0, 8)
       [leaf "(" 0 5 6; leaf "identifier" 0 6 7; leaf ")" 0 7 8];
     leaf ":" 0 8 9;
     mkNode "block" (1, 4) (2, 12)
       [mkNode "expression_statement" (1, 4) (1, 9)
          [mkNode "string" (1, 4) (1, 9)
             [leaf "string_start" 1 4 5;
              leaf "string_content" 1 5 8;
              leaf "string_end" 1 8 9]];
        mkNode "return_statement" (2, 4) (2, 12)
          [leaf "return" 2 4 10; leaf "identifier" 2 11 12]]].

Definition tree_doc : Node := mkNode "module" (0, 0) (2, 12) [fn_doc].

(** [def f(x):] / [pass] / ['not a docstring'] and its tree. *)
Definition src_late : string :=
  "def f(x):" ++ nl ++ "    pass" ++ nl ++ "    'late'".

Definition fn_late : Node :=
  mkNode "function_definition" (0, 0) (2, 10)
    [leaf "def" 0 0 3;
     leaf "identifier" 0 4 5;
     mkNode "parameters" (0, 5) (0, 8)
       [leaf "(" 0 5 6; leaf "identifier" 0 6 7; leaf ")" 0 7 8];
     leaf ":" 0 8 9;
     mkNode "block" (1, 4) (2, 10)
       [mkNode "pass_statement" (1, 4) (1, 8) [leaf "pass" 1 4 8];
        mkNode "expression_statement" (2, 4) (2, 10)
          [mkNode "string" (2, 4) (2, 10)
             [leaf "string_start" 2 4 5;
              leaf "string_content" 2 5 9;
              leaf "string_end" 2 9 10]]]].

(** [def g(xs):] / [if xs:] / [for x in xs:] / [pass] and its tree. *)
Definition src_if_for : string :=
  "def g(xs):" ++ nl ++ "    if xs:" ++ nl ++ "        for x in xs:" ++ nl
  ++ "            pass".

Definition fn_if_for : Node :=
  mkNode "function_definition" (0, 0) (3, 16)
    [leaf "def" 0 0 3;
     leaf "identifier" 0 4 5;
     mkNode "parameters" (0, 5) (0, 9)
       [leaf "(" 0 5 6; leaf "identifier" 0 6 8; leaf ")" 0 8 9];
     leaf ":" 0 9 10;
     mkNode "block" (1, 4) (3, 16)
       [mkNode "if_statement" (1, 4) (3, 16)
          [leaf "if" 1 4 6;
           leaf "identifier" 1 7 9;
           leaf ":" 1 9 10;
           mkNode "block" (2, 8) (3, 16)
             [mkNode "for_statement" (2, 8) (3, 16)
                [leaf "for" 2 8 11;
                 leaf "identifier" 2 12 13;
                 leaf "in" 2 14 16;
                 leaf "identifier" 2 17 19;
                 leaf ":" 2 19 20;
                 mkNode "block" (3, 12) (3, 16)
                   [mkNode "pass_statement" (3, 12) (3, 16)
                      [leaf "pass" 3 12 16]]]]]]].

(** [class A:] / [def m(self):] / [pass] and its tree. *)
Definition src_class : string :=
  "class A:" ++ nl ++ "    def m(self):" ++ nl ++ "        pass".

Definition fn_method : Node :=
  mkNode "function_definition" (1, 4) (2, 12)
    [leaf "def" 1 4 7;
     leaf "identifier" 1 8 9;
     mkNode "parameters" (1, 9) (1, 15)
       [leaf "(" 1 9 10; leaf "identifier" 1 10 14; leaf ")" 1 14 15];
     leaf ":" 1 15 16;
     mkNode "block" (2, 8) (2, 12)
       [mkNode "pass_statement" (2, 8) (2, 12) [leaf "pass" 2 8 12]]].

Definition class_body : Node := mkNode "block" (1, 4) (2, 12) [fn_method].

Definition cls_a : Node :=
  mkNode "class_definition" (0, 0) (2, 12)
    [leaf "class" 0 0 5; leaf "identifier" 0 6 7; leaf ":" 0 7 8; class_body].

Definition tree_class : Node := mkNode "module" (0, 0) (2, 12) [cls_a].

(** [class A:] / [@staticmethod] / [def m():] / [pass] and its tree: the
    definition of the method is wrapped in a node for the decorated
    definition. *)
Definition src_decorated : string :=
  "class A:" ++ nl ++ "    @staticmethod" ++ nl ++ "    def m():" ++ nl
  ++ "        pass".

Definition fn_decorated : Node :=
  mkNode "function_definition" (2, 4) (3, 12)
    [leaf "def" 2 4 7;
     leaf "identifier" 2 8 9;
     mkNode "parameters" (2, 9) (2, 11) [leaf "(" 2 9 10; leaf ")" 2 10 11];
     leaf ":" 2 11 12;
     mkNode "block" (3, 8) (3, 12)
       [mkNode "pass_statement" (3, 8) (3, 12) [leaf "pass" 3 8 12]]].

Definition decorated_body : Node :=
  mkNode "block" (1, 4) (3, 12)
    [mkNode "decorated_definition" (1, 4) (3, 12)
       [mkNode "decorator" (1, 4) (1, 17)
          [leaf "@" 1 4 5; leaf "identifier" 1 5 17];
        fn_decorated]].

Definition cls_decorated : Node :=
  mkNode "class_definition" (0, 0) (3, 12)
    [leaf "class" 0 0 5; leaf "identifier" 0 6 7; leaf ":" 0 7 8;
     decorated_body].

Definition tree_decorated : Node :=
  mkNode "module" (0, 0) (3, 12) [cls_decorated].

(** [function k() {}] and its tree. *)
Definition src_js : string := "function k() {}".

Definition fn_js : Node :=
  mkNode "function_declaration" (0, 0) (0, 15)
    [leaf "function" 0 0 8;
     leaf "identifier" 0 9 10;
     mkNode "formal_parameters" (0, 10) (0, 12)
       [leaf "(" 0 10 11; leaf ")" 0 11 12];
     mkNode "statement_block" (0, 13) (0, 15)
       [leaf "{" 0 13 14; leaf "}" 0 14 15]].

Definition tree_js : Node := mkNode "program" (0, 0) (0, 15) [fn_js].

(** Ten lines, three of them blank. *)
Definition sample_lines : list string :=
  ["alpha"; EmptyString; "beta"; "gamma"; "   "; "delta"; "epsilon";
   String (ascii_of_nat 9) EmptyString; "zeta"; "eta"].

(** These ten lines, no newline after the last. *)
Definition ten_lines : string :=
  "alpha" ++ nl ++ nl ++ "beta" ++ nl ++ "gamma" ++ nl ++ "   " ++ nl
  ++ "delta" ++ nl ++ "epsilon" ++ nl ++ String (ascii_of_nat 9) nl
  ++ "zeta" ++ nl ++ "eta".

Definition FileNotFoundError : exn :=
  mkExn "FileNotFoundError" "[Errno 2] No such file or directory".

(** A directory that never changes. *)
Definition sample_files : list (string * string) :=
  [("/r/a.py", src_doc);
   ("/r/cls.py", src_class);
   ("/r/deco.py", src_decorated);
   ("/r/app.ts", src_js);
   ("/r/app.js", src_js);
   ("/r/main.c", "int main(void) { return 0; }");
   ("/r/Main.java", "class Main {}");
   ("/r/notes.txt", ten_lines);
   ("/r/log.txt", terminated sample_lines)].

Definition sample_fs (t : nat) (file_path : string) : Exc string :=
  match assoc file_path sample_files with
  | Some content => Ok content
  | None => Raise FileNotFoundError
  end.

(** A parser that knows the sample sources. *)
Definition sample_parse (lang content : string) : Exc Node :=
  if String.eqb content src_doc then Ok tree_doc
  else if String.eqb content src_class then Ok tree_class
  else if String.eqb content src_decorated then Ok tree_decorated
  else if String.eqb content src_js then Ok tree_js
  else Ok (mkNode "root" (0, 0) (0, 0) []).

(** Every grammar loads, the directory is [sample_files]. *)
Definition sample_world : World :=
  mkWorld (fun _ => true) sample_parse sample_fs.

(** The same, but [/r/cls.py] is deleted after the first read of the run. *)
Definition vanishing_world : World :=
  mkWorld (fun _ => true) sample_parse
    (fun t file_path =>
       if (String.eqb file_path "/r/cls.py" && (1 <=? t)%nat)%bool
       then Raise FileNotFoundError
       else sample_fs t file_path).

Definition file_a : FileDescriptor := mkFile "a.py" "/r/a.py" None 40.
Definition file_cls : FileDescriptor := mkFile "cls.py" "/r/cls.py" None 38.
Definition file_a_as_java : FileDescriptor :=
  mkFile "a.py" "/r/a.py" (Some "java") 40.
Definition file_a_as_Python : FileDescriptor :=
  mkFile "a.py" "/r/a.py" (Some "Python") 40.

(** The rule a walker applies at a node: the key it appends to and the
    record it extracted there. *)
Definition rule_python (lines : list string) (node : Node)
  : option (string * pyval) :=
  if String.eqb (type node) "function_definition" then
    Some ("functions", _extract_python_function node lines)
  else if String.eqb (type node) "class_definition" then
    Some ("classes", _extract_python_class node lines)
  else if member (type node) ["import_statement"; "import_from_statement"] then
    Some ("imports", _extract_python_import node lines)
  else if String.eqb (type node) "assignment" then
    Some ("variables", _extract_python_variable node lines)
  else None.

Definition rule_javascript (lines : list string) (node : Node)
  : option (string * pyval) :=
  if member (type node)
       ["function_declaration"; "function_expression"; "arrow_function"] then
    Some ("functions", _extract_js_function node lines)
  else if String.eqb (type node) "class_declaration" then
    Some ("classes", _extract_js_class node lines)
  else if member (type node) ["import_statement"; "import_clause"] then
    Some ("imports", _extract_js_import node lines)
  else None.

Definition visit_rule (rule : Node -> option (string * pyval)) (node : Node)
  (result : dict) : dict :=
  match rule node with
  | Some (key, info) => append_if key info result
  | None => result
  end.

(** The records a rule yields for one key over a list of nodes, in order. *)
Definition collected (rule : Node -> option (string * pyval)) (key : string)
  (nodes : list Node) : list pyval :=
  flat_map
    (fun m =>
       match rule m with
       | Some (k, v) => if String.eqb k key && truthy v then [v] else []
       | None => []
       end)
    nodes.

(** * The repository listing (git_handler.py)

    The directory that is walked is a snapshot: a tree of entries, the
    entries of a directory in the order the system lists them, without
    symbolic links and with every directory readable. *)

Definition starts_with_char (c : ascii) (s : string) : bool :=
  match s with
  | String c' _ => Ascii.eqb c' c
  | EmptyString => false
  end.

Fixpoint ends_with_char (c : ascii) (s : string) : bool :=
  match s with
  | EmptyString => false
  | String c' EmptyString => Ascii.eqb c' c
  | String _ s' => ends_with_char c s'
  end.

(** [os.path.join(a, b)] (posixpath) *)
Definition path_join (a b : string) : string :=
  if starts_with_char "/" b then b
  else if String.eqb a EmptyString || ends_with_char "/" a then a ++ b
  else a ++ "/" ++ b.

(** [Config.ALLOWED_EXTENSIONS] (config.py) *)
Definition ALLOWED_EXTENSIONS : list string :=
  [".py"; ".js"; ".ts"; ".java"; ".cpp"; ".c"; ".go"; ".rs"; ".rb"; ".php"].

Definition _is_code_file (filename : string) : bool :=
  member (lower (splitext_ext filename)) ALLOWED_EXTENSIONS.

Definition language_map : list (string * string) :=
  [(".py", "Python");
   (".js", "JavaScript");
   (".ts", "TypeScript");
   (".java", "Java");
   (".cpp", "C++");
   (".c", "C");
   (".go", "Go");
   (".rs", "Rust");
   (".rb", "Ruby");
   (".php", "PHP")].

Definition _get_language_from_extension (ext : string) : option string :=
  assoc (lower ext) language_map.

#[warnings="-register-all"] Inductive Entry :=
| File (name : string) (size : nat)
| Dir (name : string) (entries : list Entry).

Definition entry_name (e : Entry) : string :=
  match e with
  | File name _ => name
  | Dir name _ => name
  end.

(** [name.startswith('.')] *)
Definition hidden (name : string) : bool := starts_with_char "." name.

(** The files of a directory, with their sizes. *)
Definition files_of (entries : list Entry) : list (string * nat) :=
  flat_map (fun e => match e with
                     | File name size => [(name, size)]
                     | Dir _ _ => []
                     end) entries.

(** What [os.walk] yields below a directory once the loop body has pruned
    the hidden directories ([dirs[:] = ...]): for an entry of that directory
    which is a directory and not hidden, its own path and files, then the
    same for its directories in order.  Beside the path [root] that
    [os.walk] builds with [os.path.join], the walk carries [rel], the path
    relative to the start: what [os.path.relpath(_, path)] makes of a path
    built this way. *)
Fixpoint walk_below (root rel : string) (e : Entry)
  : list (string * string * list (string * nat)) :=
  match e with
  | File _ _ => []
  | Dir name entries =>
      if hidden name then []
      else
        let root' := path_join root name in
        let rel' := path_join rel name in
        (root', rel', files_of entries)
          :: flat_map (walk_below root' rel') entries
  end.

(** [os.walk(path)] with the pruning: the start itself is never pruned. *)
Definition os_walk (path : string) (entries : list Entry)
  : list (string * string * list (string * nat)) :=
  (path, EmptyString, files_of entries)
    :: flat_map (walk_below path EmptyString) entries.

(** Lines 230-249 of git_handler.py. *)
Definition get_file_list (path : string) (entries : list Entry)
  : list FileDescriptor :=
  flat_map
    (fun '(root, rel, filenames) =>
       flat_map
         (fun '(filename, size) =>
            if _is_code_file filename
            then [mkFile (path_join rel filename) (path_join root filename)
                    (_get_language_from_extension (splitext_ext filename))
                    size]
            else [])
         filenames)
    (os_walk path entries).

(** Lines 189-199 of git_handler.py. *)
Definition _count_code_files (path : string) (entries : list Entry) : nat :=
  fold_left
    (fun count '(_, _, files) =>
       fold_left
         (fun count '(file, _) =>
            if _is_code_file file then count + 1 else count)
         files count)
    (os_walk path entries) 0.

(** A dictionary from strings to counts. *)
Fixpoint count_get (k : string) (d : list (string * nat)) (default : nat)
  : nat :=
  match d with
  | [] => default
  | (k', v) :: d' => if String.eqb k k' then v else count_get k d' default
  end.

Fixpoint count_set (k : string) (v : nat) (d : list (string * nat))
  : list (string * nat) :=
  match d with
  | [] => [(k, v)]
  | (k', v') :: d' =>
      if String.eqb k k' then (k', v) :: d' else (k', v') :: count_set k v d'
  end.

(** Lines 172-187 of git_handler.py. *)
Definition _get_language_distribution (path : string) (entries : list Entry)
  : list (string * nat) :=
  fold_left
    (fun language_count '(_, _, files) =>
       fold_left
         (fun language_count '(file, _) =>
            if _is_code_file file then
              match _get_language_from_extension (splitext_ext file) with
              | Some language =>
                  if str_truthy language
                  then count_set language
                         (count_get language language_count 0 + 1)
                         language_count
                  else language_count
              | None => language_count
              end
            else language_count)
         files language_count)
    (os_walk path entries) [].

(** One turn of the loop of [build_tree], for an item whose value in the
    tree is [value]. *)
Definition build_tree_step (value : Entry -> pyval) (tree : dict) (e : Entry)
  : dict :=
  if hidden (entry_name e) then tree
  else match e with
       | Dir name _ => dict_set name (value e) tree
       | File name _ =>
           if _is_code_file name then dict_set name (value e) tree else tree
       end.

(** The value [build_tree] stores for an item: the tree of a directory, the
    description of a file. *)
Fixpoint tree_value (e : Entry) : pyval :=
  match e with
  | File name size =>
      PDict [("type", PStr "file");
             ("size", PInt (Z.of_nat size));
             ("extension", PStr (splitext_ext name))]
  | Dir _ entries =>
      PDict (fold_left
               (fun tree e' =>
                  if hidden (entry_name e') then tree
                  else match e' with
                       | Dir name _ => dict_set name (tree_value e') tree
                       | File name _ =>
                           if _is_code_file name
                           then dict_set name (tree_value e') tree
                           else tree
                       end)
               entries [])
  end.

(** Lines 146-170 of git_handler.py. *)
Definition _get_directory_structure (entries : list Entry) : dict :=
  fold_left (build_tree_step tree_value) entries [].

(** Lines 132-144 of git_handler.py; [os.path.basename(path)] is the part
    after the last separator. *)
Definition _extract_directory_metadata (path : string) (entries : list Entry)
  : pyval :=
  PDict [("name",
           PStr match after_last "/" path with Some b => b | None => path end);
         ("url", PNone);
         ("structure", PDict (_get_directory_structure entries));
         ("language_distribution",
           PDict (map (fun '(k, v) => (k, PInt (Z.of_nat v)))
                    (_get_language_distribution path entries)));
         ("file_count", PInt (Z.of_nat (_count_code_files path entries)))].

(** * Rows for the store (code_parser.py)

    The keyword arguments with which [_save_parsed_function],
    [_save_parsed_class] and [_save_parsed_file] build their rows, before the
    session is touched. *)

Definition KeyError (k : string) : exn := mkExn "KeyError" k.

(** [d[k]] *)
Definition getitem (d : pyval) (k : string) : Exc pyval :=
  match d with
  | PDict l =>
      match dict_get k l with
      | Some v => Ok v
      | None => Raise (KeyError k)
      end
  | _ => Raise TypeError
  end.

(** [d.get(k, default)], for a dictionary [d] *)
Definition get_default (d : pyval) (k : string) (default : pyval) : pyval :=
  match get k d with
  | Some v => v
  | None => default
  end.

(** Lines 197-205 of code_parser.py. *)
Definition parsed_function_row (file_id : Z) (func_data : pyval) : Exc pyval :=
  name <- getitem func_data "name" ;;
  start_line <- getitem func_data "start_line" ;;
  end_line <- getitem func_data "end_line" ;;
  Ok (PDict [("file_id", PInt file_id);
             ("name", name);
             ("start_line", start_line);
             ("end_line", end_line);
             ("parameters", get_default func_data "parameters" (PList []));
             ("docstring", get_default func_data "docstring" PNone);
             ("complexity", get_default func_data "complexity" (PInt 1))]).

(** Lines 217-225 of code_parser.py. *)
Definition parsed_class_row (file_id : Z) (class_data : pyval) : Exc pyval :=
  name <- getitem class_data "name" ;;
  start_line <- getitem class_data "start_line" ;;
  end_line <- getitem class_data "end_line" ;;
  Ok (PDict [("file_id", PInt file_id);
             ("name", name);
             ("start_line", start_line);
             ("end_line", end_line);
             ("methods", get_default class_data "methods" (PList []));
             ("attributes", get_default class_data "attributes" (PList []));
             ("docstring", get_default class_data "docstring" PNone)]).

(** Lines 160-175 of code_parser.py: the file is read once more. *)
Definition code_file_row (w : World) (repo_id : Z) (file_path : string)
  (parsed_data : pyval) : IO pyval :=
  file_info <~ liftE (getitem parsed_data "file_info") ;;
  full_path <~ liftE (getitem file_info "full_path") ;;
  match full_path with
  | PStr full_path =>
      content <~ open_read w full_path ;;
      language <~ liftE (getitem parsed_data "language") ;;
      ret (PDict
             [("repo_id", PInt repo_id);
              ("file_path", PStr file_path);
              ("language", language);
              ("content", PStr content);
              ("parsed_data", parsed_data);
              ("functions", get_default parsed_data "functions" (PList []));
              ("classes", get_default parsed_data "classes" (PList []));
              ("imports", get_default parsed_data "imports" (PList []));
              ("lines_of_code",
                get_default parsed_data "lines_of_code" (PInt 0))])
  | _ => liftE (Raise TypeError)
  end.

(** * More sample inputs *)

(** [import os] / [x = 1] / [a.b = 2] and its tree. *)
Definition src_mod : string :=
  "import os" ++ nl ++ "x = 1" ++ nl ++ "a.b = 2".

Definition tree_mod : Node :=
  mkNode "module" (0, 0) (2, 7)
    [mkNode "import_statement" (0, 0) (0, 9)
       [leaf "import" 0 0 6;
        mkNode "dotted_name" (0, 7) (0, 9) [leaf "identifier" 0 7 9]];
     mkNode "expression_statement" (1, 0) (1, 5)
       [mkNode "assignment" (1, 0) (1, 5)
          [leaf "identifier" 1 0 1; leaf "=" 1 2 3; leaf "integer" 1 4 5]];
     mkNode "expression_statement" (2, 0) (2, 7)
       [mkNode "assignment" (2, 0) (2, 7)
          [mkNode "attribute" (2, 0) (2, 3)
             [leaf "identifier" 2 0 1; leaf "." 2 1 2; leaf "identifier" 2 2 3];
           leaf "=" 2 4 5;
           leaf "integer" 2 6 7]]].

(** [const h = () => 1] and its tree: an arrow function without a name of
    its own. *)
Definition src_arrow : string := "const h = () => 1".

Definition fn_arrow : Node :=
  mkNode "arrow_function" (0, 10) (0, 17)
    [mkNode "formal_parameters" (0, 10) (0, 12)
       [leaf "(" 0 10 11; leaf ")" 0 11 12];
     leaf "=>" 0 13 15;
     leaf "number" 0 16 17].

Definition tree_arrow : Node :=
  mkNode "program" (0, 0) (0, 17)
    [mkNode "lexical_declaration" (0, 0) (0, 17)
       [leaf "const" 0 0 5;
        mkNode "variable_declarator" (0, 6) (0, 17)
          [leaf "identifier" 0 6 7; leaf "=" 0 8 9; fn_arrow]]].

(** A parser that raises on every input. *)
Definition raising_world : World :=
  mkWorld (fun _ => true)
    (fun _ _ => Raise (mkExn "ValueError" "Parsing failed"))
    sample_fs.

(** Every grammar loads, but [parse_file] is called with the stack nearly
    used up: four calls are left inside a rule set. *)
Definition shallow_world : World :=
  mkWorldWith (fun _ => true) sample_parse sample_fs 4.

(** No grammar could be loaded. *)
Definition bare_world : World :=
  mkWorld (fun _ => false) sample_parse sample_fs.

(** A checkout with a hidden directory, a hidden file and a file that is
    not code. *)
Definition sample_repo : list Entry :=
  [File "README.md" 120;
   File "setup.PY" 300;
   File ".hidden.py" 10;
   Dir ".git" [File "hook.py" 50];
   Dir "src"
     [File "app.ts" 15;
      File "main.c" 28;
      Dir "util" [File "a.py" 40; File "notes.txt" 64]]].

(** * Notions used to state further properties *)

Definition has_identifier (n : Node) : bool :=
  match first_child "identifier" (children n) with
  | Some _ => true
  | None => false
  end.

Definition is_python_function (n : Node) : bool :=
  String.eqb (type n) "function_definition".

Definition is_js_function (n : Node) : bool :=
  member (type n)
    ["function_declaration"; "function_expression"; "arrow_function"].

(** The left-hand side of an assignment is a bare identifier. *)
Definition assigns_identifier (n : Node) : bool :=
  String.eqb (type n) "assignment"
  && match children n with
     | left_node :: _ => String.eqb (type left_node) "identifier"
     | [] => false
     end.

Definition is_python_import (n : Node) : bool :=
  member (type n) ["import_statement"; "import_from_statement"].

(** The result of the handler of [_fallback_parse], for the error [e]. *)
Definition unreadable_result (e : exn) : pyval :=
  PDict [("language", PStr "unknown");
         ("functions", PList []);
         ("classes", PList []);
         ("imports", PList []);
         ("errors", PList [PStr ("Parsing failed: " ++ exn_msg e)])].

(** Sum of the counts of a dictionary of counts. *)
Definition count_total (d : list (string * nat)) : nat :=
  fold_right (fun kv acc => snd kv + acc) 0 d.

(** A name a directory entry can have: not empty, without separator. *)
Definition valid_name (s : string) : Prop :=
  s <> EmptyString /\ occurrences "/" s = 0.

(** A directory as the system has it: the names are valid and no two
    entries of one directory share a name. *)
#[warnings="-register-all"] Inductive wf_entry : Entry -> Prop :=
| wf_file name size : valid_name name -> wf_entry (File name size)
| wf_subdir name entries :
    valid_name name ->
    NoDup (map entry_name entries) ->
    Forall wf_entry entries ->
    wf_entry (Dir name entries).

Definition wf_dir (entries : list Entry) : Prop :=
  NoDup (map entry_name entries) /\ Forall wf_entry entries.

(** Induction on directories, with the property known of every entry. *)
Fixpoint Entry_rose_ind (P : Entry -> Prop)
  (file : forall name size, P (File name size))
  (dir : forall name entries, Forall P entries -> P (Dir name entries))
  (e : Entry) : P e :=
  match e with
  | File name size => file name size
  | Dir name entries =>
      dir name entries
        ((fix all (l : list Entry) : Forall P l :=
            match l with
            | [] => @List.Forall_nil Entry P
            | c :: l' =>
                @List.Forall_cons Entry P c l'
                  (Entry_rose_ind P file dir c) (all l')
            end) entries)
  end.

(** The names below the start that lead to a file, the file's name last. *)
Fixpoint code_paths_below (e : Entry) : list (list string) :=
  match e with
  | File _ _ => []
  | Dir name entries =>
      if hidden name then []
      else map (cons name)
             (map (fun f => [fst f])
                (List.filter (fun f => _is_code_file (fst f))
                   (files_of entries))
              ++ flat_map code_paths_below entries)
  end.

Definition code_paths (entries : list Entry) : list (list string) :=
  map (fun f => [fst f])
    (List.filter (fun f => _is_code_file (fst f)) (files_of entries))
  ++ flat_map code_paths_below entries.

(** The descriptors [get_file_list] appends for the directories of a
    walk. *)
Definition descriptors_of
  (walk : list (string * string * list (string * nat)))
  : list FileDescriptor :=
  flat_map
    (fun '(root, rel, filenames) =>
       flat_map
         (fun '(filename, size) =>
            if _is_code_file filename
            then [mkFile (path_join rel filename) (path_join root filename)
                    (_get_language_from_extension (splitext_ext filename))
                    size]
            else [])
         filenames)
    walk.

(** * Properties *)

(** A sample tree finds room on the stack of a sample world. *)
Ltac room := intros; unfold room_for, fits; intros; vm_compute; lia.

(** Case analysis on every condition of the goal. *)
Ltac case_ifs :=
  repeat match goal with
         | |- context [if ?b then _ else _] => destruct b
         end.

(** One case per element of the list a hypothesis [In x [a; b; ...]] ranges
    over. *)
Ltac each_member H :=
  unfold configured_languages in H; simpl in H;
  repeat (destruct H as [<-|H]); try destruct H.

(** The same for a hypothesis [member x [a; b; ...] = true]. *)
Ltac each_key H :=
  unfold member in H; simpl in H; rewrite ?orb_false_r in H;
  apply Is_true_true in H;
  repeat (apply orb_True in H; destruct H as [H|H]);
  apply Is_true_true, String.eqb_eq in H; subst.

(** ** Dictionaries *)

Lemma dict_get_append_same k x d :
  dict_get k (dict_append k x d) =
  match dict_get k d with
  | Some (PList l) => Some (PList (l ++ [x]))
  | o => o
  end.
Proof.
  induction d as [|[k' v] d IH]; simpl; [reflexivity|].
  destruct (String.eqb k k') eqn:E; simpl; rewrite E.
  - destruct v; reflexivity.
  - exact IH.
Qed.

Lemma dict_get_append_other k k' x d :
  k <> k' -> dict_get k' (dict_append k x d) = dict_get k' d.
Proof.
  intros Hne. induction d as [|[k0 v] d IH]; simpl; [reflexivity|].
  destruct (String.eqb k k0) eqn:E; simpl.
  - apply String.eqb_eq in E. subst k0.
    destruct (String.eqb k' k) eqn:E'; [|reflexivity].
    apply String.eqb_eq in E'. congruence.
  - destruct (String.eqb k' k0); [reflexivity | exact IH].
Qed.

Lemma dict_keys_append k x d : dict_keys (dict_append k x d) = dict_keys d.
Proof.
  unfold dict_keys. induction d as [|[k' v] d IH]; simpl; [reflexivity|].
  destruct (String.eqb k k'); simpl; [reflexivity | now rewrite IH].
Qed.

Lemma dict_get_set_same k v d : dict_get k (dict_set k v d) = Some v.
Proof.
  induction d as [|[k' v'] d IH]; simpl.
  - now rewrite String.eqb_refl.
  - destruct (String.eqb k k') eqn:E; simpl; rewrite E;
      [reflexivity | exact IH].
Qed.

Lemma dict_get_set_other k k' v d :
  k <> k' -> dict_get k' (dict_set k v d) = dict_get k' d.
Proof.
  intros Hne. induction d as [|[k0 v0] d IH]; simpl.
  - destruct (String.eqb k' k) eqn:E; [|reflexivity].
    apply String.eqb_eq in E. congruence.
  - destruct (String.eqb k k0) eqn:E; simpl.
    + apply String.eqb_eq in E. subst k0.
      destruct (String.eqb k' k) eqn:E'; [|reflexivity].
      apply String.eqb_eq in E'. congruence.
    + destruct (String.eqb k' k0); [reflexivity | exact IH].
Qed.

(** ** Walks as folds over the pre-order *)

Lemma preorder_eq n : preorder n = n :: flat_map preorder (children n).
Proof. destruct n; reflexivity. Qed.

Section Walk.
Context {S : Type}.
Variable visit : Node -> S -> S.
Variable walk : Node -> S -> S.
Hypothesis walk_eq :
  forall n s,
    walk n s = fold_left (fun acc c => walk c acc) (children n) (visit n s).

Lemma walk_children ch :
  Forall (fun n => forall s,
            walk n s
            = fold_left (fun acc m => visit m acc) (preorder n) s) ch ->
  forall s,
    fold_left (fun acc c => walk c acc) ch s =
    fold_left (fun acc m => visit m acc) (flat_map preorder ch) s.
Proof.
  induction 1 as [|c ch Hc _ IH]; intros s; simpl; [reflexivity|].
  rewrite fold_left_app, <- Hc. apply IH.
Qed.

Lemma walk_preorder n :
  forall s, walk n s = fold_left (fun acc m => visit m acc) (preorder n) s.
Proof.
  induction n as [ty sp ep ch IH] using Node_rose_ind. intros s.
  rewrite walk_eq, preorder_eq. simpl.
  now apply walk_children.
Qed.
End Walk.

(** ** Complexity *)

Lemma traverse_for_complexity_eq n c :
  traverse_for_complexity n c =
  fold_left (fun acc child => traverse_for_complexity child acc) (children n)
    (if is_branch n then c + 1 else c).
Proof. destruct n; reflexivity. Qed.

Lemma count_branches nodes :
  forall c,
    fold_left (fun acc m => if is_branch m then acc + 1 else acc) nodes c =
    c + length (List.filter is_branch nodes).
Proof.
  induction nodes as [|m nodes IH]; intros c; simpl; [lia|].
  rewrite IH. destruct (is_branch m); simpl; lia.
Qed.

Lemma calculate_complexity_count node :
  _calculate_complexity node =
  1 + length (List.filter is_branch (preorder node)).
Proof.
  unfold _calculate_complexity.
  rewrite (walk_preorder (fun m c => if is_branch m then c + 1 else c)
             traverse_for_complexity traverse_for_complexity_eq).
  apply count_branches.
Qed.

Lemma function_kind_not_branch ty :
  member ty function_kinds = true -> member ty branch_kinds = false.
Proof.
  intros H. unfold function_kinds in H. each_key H; reflexivity.
Qed.

(** C5. The complexity of a function node is one more than the number of
    nodes below it, at any depth, that are conditionals, while loops, for
    loops or exception handlers; a function with one [if] and a [for] nested
    in it has complexity 3, a function without branching has complexity 1. *)
Theorem C5_complexity_counts_branching_descendants (node : Node) :
  member (type node) function_kinds = true ->
  _calculate_complexity node = 1 + branching_descendants node
  /\ _calculate_complexity fn_if_for = 3
  /\ _calculate_complexity fn_doc = 1.
Proof.
  intros Hfn. split; [|split; reflexivity].
  rewrite calculate_complexity_count, preorder_eq. simpl.
  unfold branching_descendants, descendants, is_branch at 1.
  now rewrite (function_kind_not_branch _ Hfn).
Qed.

Lemma C5_witness :
  member (type fn_if_for) function_kinds = true
  /\ _calculate_complexity fn_if_for = 1 + branching_descendants fn_if_for.
Proof.
  split; [reflexivity|].
  apply (C5_complexity_counts_branching_descendants fn_if_for). reflexivity.
Defined.

(** The record of [def g(xs): if xs: for x in xs: pass]. *)
Example if_for_record :
  _extract_python_function fn_if_for (split newline src_if_for)
  = PDict [("name", PStr "g");
           ("start_line", PInt 1);
           ("end_line", PInt 4);
           ("parameters", PList [PStr "xs"]);
           ("docstring", PNone);
           ("complexity", PInt 3)].
Proof. reflexivity. Qed.

(** ** What a walk leaves in the result *)

Lemma append_if_keys key info r :
  dict_keys (append_if key info r) = dict_keys r.
Proof.
  unfold append_if.
  destruct (truthy info); [apply dict_keys_append | reflexivity].
Qed.

Lemma append_if_get_other key key' info r :
  key <> key' -> dict_get key' (append_if key info r) = dict_get key' r.
Proof.
  intros Hne. unfold append_if.
  destruct (truthy info); [now apply dict_get_append_other | reflexivity].
Qed.

Section Rules.
Variable rule : Node -> option (string * pyval).

Lemma visit_rule_keys n r : dict_keys (visit_rule rule n r) = dict_keys r.
Proof.
  unfold visit_rule.
destruct (rule n) as [[k v]|]; [apply append_if_keys | reflexivity].
Qed.

Lemma walk_rule_keys nodes :
  forall r,
    dict_keys (fold_left (fun acc m => visit_rule rule m acc) nodes r) =
    dict_keys r.
Proof.
  induction nodes as [|m nodes IH]; intros r; simpl; [reflexivity|].
  now rewrite IH, visit_rule_keys.
Qed.

Lemma visit_rule_get key n r l0 :
  dict_get key r = Some (PList l0) ->
  dict_get key (visit_rule rule n r) =
  Some (PList (l0 ++ collected rule key [n])).
Proof.
  intros Hget. unfold visit_rule, collected. simpl.
  destruct (rule n) as [[k v]|]; simpl; [|now rewrite app_nil_r].
  unfold append_if. rewrite app_nil_r.
  destruct (String.eqb k key) eqn:E; simpl.
  - apply String.eqb_eq in E. subst k.
    destruct (truthy v); [|now rewrite app_nil_r].
    now rewrite dict_get_append_same, Hget.
  - apply String.eqb_neq in E. rewrite app_nil_r.
    destruct (truthy v); [now rewrite dict_get_append_other | exact Hget].
Qed.

Lemma collected_app key l1 l2 :
  collected rule key (l1 ++ l2)
= collected rule key l1 ++ collected rule key l2.
Proof. unfold collected. apply flat_map_app. Qed.

Lemma walk_rule_get key nodes :
  forall r l0,
    dict_get key r = Some (PList l0) ->
    dict_get key (fold_left (fun acc m => visit_rule rule m acc) nodes r) =
    Some (PList (l0 ++ collected rule key nodes)).
Proof.
  induction nodes as [|m nodes IH]; intros r l0 Hget; cbn [fold_left].
  - simpl. now rewrite app_nil_r.
  - rewrite (IH _ _ (visit_rule_get key m r l0 Hget)).
    change (m :: nodes) with ([m] ++ nodes).
    now rewrite collected_app, app_assoc.
Qed.

Lemma walk_rule_get_untouched key nodes :
  (forall n v, rule n <> Some (key, v)) ->
  forall r,
    dict_get key (fold_left (fun acc m => visit_rule rule m acc) nodes r) =
    dict_get key r.
Proof.
  intros Hrule.
induction nodes as [|m nodes IH]; intros r; simpl; [reflexivity|].
  rewrite IH. unfold visit_rule.
  destruct (rule m) as [[k v]|] eqn:E; [|reflexivity].
  apply append_if_get_other. intros ->. exact (Hrule _ _ E).
Qed.

Lemma in_collected key nodes r :
  In r (collected rule key nodes) <->
  exists n, In n nodes /\ rule n = Some (key, r) /\ truthy r = true.
Proof.
  unfold collected. rewrite in_flat_map. split.
  - intros (n & Hn & Hr). exists n. split; [exact Hn|].
    destruct (rule n) as [[k v]|]; [|destruct Hr].
    destruct (String.eqb k key) eqn:E; simpl in Hr; [|destruct Hr].
    destruct (truthy v) eqn:T; simpl in Hr; [|destruct Hr].
    destruct Hr as [<-|[]]. apply String.eqb_eq in E. now subst k.
  - intros (n & Hn & Hr & T). exists n. split; [exact Hn|].
    rewrite Hr, String.eqb_refl, T. now left.
Qed.
End Rules.

Lemma traverse_python_eq lines n r :
  traverse_python lines n r =
  fold_left (fun acc c => traverse_python lines c acc) (children n)
    (visit_python lines n r).
Proof. destruct n; reflexivity. Qed.

Lemma traverse_javascript_eq lines n r :
  traverse_javascript lines n r =
  fold_left (fun acc c => traverse_javascript lines c acc) (children n)
    (visit_javascript lines n r).
Proof. destruct n; reflexivity. Qed.

Lemma visit_python_rule lines n r :
  visit_python lines n r = visit_rule (rule_python lines) n r.
Proof.
  unfold visit_python, visit_rule, rule_python.
  case_ifs; reflexivity.
Qed.

Lemma visit_javascript_rule lines n r :
  visit_javascript lines n r = visit_rule (rule_javascript lines) n r.
Proof.
  unfold visit_javascript, visit_rule, rule_javascript.
  case_ifs; reflexivity.
Qed.

Lemma fold_left_pointwise {A B} (f g : A -> B -> A) :
  (forall a b, f a b = g a b) ->
  forall l a, fold_left f l a = fold_left g l a.
Proof.
  intros Hfg l. induction l as [|b l IH]; intros a; simpl; [reflexivity|].
  now rewrite Hfg, IH.
Qed.

Lemma traverse_python_fold lines n r :
  traverse_python lines n r =
  fold_left (fun acc m => visit_rule (rule_python lines) m acc) (preorder n) r.
Proof.
  rewrite (walk_preorder (visit_python lines) (traverse_python lines)
             (traverse_python_eq lines)).
  apply fold_left_pointwise. intros. apply visit_python_rule.
Qed.

Lemma traverse_javascript_fold lines n r :
  traverse_javascript lines n r =
  fold_left (fun acc m => visit_rule (rule_javascript lines) m acc)
    (preorder n) r.
Proof.
  rewrite (walk_preorder (visit_javascript lines) (traverse_javascript lines)
             (traverse_javascript_eq lines)).
  apply fold_left_pointwise. intros. apply visit_javascript_rule.
Qed.

Lemma parse_python_collected key tree content :
  member key ["functions"; "classes"; "imports"; "variables"] = true ->
  get_list key (_parse_python tree content) =
  collected (rule_python (split newline content)) key (preorder tree).
Proof.
  intros Hkey. unfold get_list, _parse_python, get.
  rewrite traverse_python_fold.
  rewrite (walk_rule_get _ key _ _ []).
  - reflexivity.
  - each_key Hkey; reflexivity.
Qed.

Lemma parse_javascript_collected key tree content :
  member key ["functions"; "classes"; "imports"] = true ->
  get_list key (_parse_javascript tree content) =
  collected (rule_javascript (split newline content)) key (preorder tree).
Proof.
  intros Hkey. unfold get_list, _parse_javascript, get.
  rewrite traverse_javascript_fold.
  rewrite (walk_rule_get _ key _ _ []).
  - reflexivity.
  - each_key Hkey; reflexivity.
Qed.

Lemma rule_python_functions lines n r :
  rule_python lines n = Some ("functions", r) <->
  type n = "function_definition" /\ r = _extract_python_function n lines.
Proof.
  unfold rule_python.
  destruct (String.eqb (type n) "function_definition") eqn:E.
  - apply String.eqb_eq in E. split.
    + intros [= <-]. now split.
    + intros [_ ->]. reflexivity.
  - apply String.eqb_neq in E. split.
    + case_ifs; discriminate.
    + intros [H _]. contradiction.
Qed.

Lemma rule_python_classes lines n r :
  rule_python lines n = Some ("classes", r) <->
  type n = "class_definition" /\ r = _extract_python_class n lines.
Proof.
  unfold rule_python.
  destruct (String.eqb (type n) "function_definition") eqn:E.
  - apply String.eqb_eq in E. split; [discriminate|].
    intros [H _]. rewrite H in E. discriminate.
  - destruct (String.eqb (type n) "class_definition") eqn:E'.
    + apply String.eqb_eq in E'. split.
      * intros [= <-]. now split.
      * intros [_ ->]. reflexivity.
    + apply String.eqb_neq in E'. split.
      * case_ifs; discriminate.
      * intros [H _]. contradiction.
Qed.

(** ** Shape of the extracted records *)

Lemma bindE_Ok {A B} (m : Exc A) (k : A -> Exc B) b :
  bindE m k = Ok b -> exists a, m = Ok a /\ k a = Ok b.
Proof. destruct m as [a|e]; simpl; [eauto | discriminate]. Qed.

Lemma try_return_truthy (m : Exc pyval) r :
  try_return m (fun _ => PNone) = r -> truthy r = true -> m = Ok r.
Proof.
  destruct m as [a|e]; simpl; intros <-; [reflexivity | discriminate].
Qed.

Lemma extract_python_function_record node lines :
  truthy (_extract_python_function node lines) = true ->
  exists name params doc,
    _extract_python_function node lines =
    PDict [("name", PStr name);
           ("start_line", line_no (fst (start_point node)));
           ("end_line", line_no (fst (end_point node)));
           ("parameters", PList params);
           ("docstring", doc);
           ("complexity", PInt (Z.of_nat (_calculate_complexity node)))].
Proof.
  intros T.
  pose proof (try_return_truthy _ _ eq_refl T) as E.
  fold (_extract_python_function node lines) in E.
  unfold extract_python_function_body in E.
  destruct (first_child "identifier" (children node)).
  - apply bindE_Ok in E as (name & _ & E).
    apply bindE_Ok in E as (params & _ & E).
    apply bindE_Ok in E as (doc & _ & E).
    injection E as E. rewrite <- E. eauto.
  - injection E as E. rewrite <- E in T. discriminate.
Qed.

Lemma extract_python_class_record node lines :
  truthy (_extract_python_class node lines) = true ->
  exists name,
    _extract_python_class node lines =
    PDict [("name", PStr name);
           ("start_line", line_no (fst (start_point node)));
           ("end_line", line_no (fst (end_point node)));
           ("methods",
             PList
               match first_child "block" (children node) with
               | Some body_node =>
                   List.filter truthy
                     (map (fun child => _extract_python_function child lines)
                        (List.filter
                           (fun c => String.eqb (type c) "function_definition")
                           (children body_node)))
               | None => []
               end);
           ("attributes", PList [])].
Proof.
  intros T.
  pose proof (try_return_truthy _ _ eq_refl T) as E.
  fold (_extract_python_class node lines) in E.
  unfold extract_python_class_body in E.
  destruct (first_child "identifier" (children node)).
  - apply bindE_Ok in E as (name & _ & E).
    injection E as E. rewrite <- E. eauto.
  - injection E as E. rewrite <- E in T. discriminate.
Qed.

Lemma extract_js_function_record node lines :
  truthy (_extract_js_function node lines) = true ->
  exists name,
    _extract_js_function node lines =
    PDict [("name", PStr name);
           ("start_line", line_no (fst (start_point node)));
           ("end_line", line_no (fst (end_point node)));
           ("parameters", PList []);
           ("type", PStr (type node))].
Proof.
  unfold _extract_js_function. cbv zeta.
  destruct (match first_child "identifier" (children node) with
            | Some child => node_text lines child
            | None => Ok "anonymous"
            end) as [name|e]; simpl; [eauto | discriminate].
Qed.

Lemma extract_js_class_record node lines :
  truthy (_extract_js_class node lines) = true ->
  exists name,
    _extract_js_class node lines =
    PDict [("name", PStr name);
           ("start_line", line_no (fst (start_point node)));
           ("end_line", line_no (fst (end_point node)));
           ("methods", PList [])].
Proof.
  unfold _extract_js_class. cbv zeta.
  destruct (match first_child "identifier" (children node) with
            | Some child => node_text lines child
            | None => Ok "anonymous"
            end) as [name|e]; simpl; [eauto | discriminate].
Qed.

(** ** Nodes of a tree *)

Lemma preorder_self n : In n (preorder n).
Proof. rewrite preorder_eq. now left. Qed.

Lemma preorder_child tree :
  forall n c, In n (preorder tree) -> In c (children n) -> In c (preorder tree).
Proof.
  induction tree as [ty sp ep ch IH] using Node_rose_ind.
  intros n c Hn Hc. rewrite preorder_eq in Hn |- *. simpl in Hn |- *.
  right. apply in_flat_map. destruct Hn as [<-|Hn].
  - exists c. split; [exact Hc | apply preorder_self].
  - apply in_flat_map in Hn as (k & Hk & Hn). exists k. split; [exact Hk|].
    rewrite Forall_forall in IH. apply (IH k) with (n := n); auto.
    now apply list_elem_of_In.
Qed.

Lemma first_child_in ty cs n :
  first_child ty cs = Some n -> In n cs /\ type n = ty.
Proof.
  unfold first_child. intros H. apply find_some in H as [Hin E].
  apply String.eqb_eq in E. now split.
Qed.

Lemma rule_javascript_functions lines n r :
  rule_javascript lines n = Some ("functions", r) ->
  r = _extract_js_function n lines.
Proof.
  unfold rule_javascript.
  case_ifs; intros [= <-] || discriminate; reflexivity.
Qed.

Lemma rule_javascript_classes lines n r :
  rule_javascript lines n = Some ("classes", r) ->
  r = _extract_js_class n lines.
Proof.
  unfold rule_javascript.
  case_ifs; intros [= <-] || discriminate; reflexivity.
Qed.

(** ** The rules on the nodes of a parsed tree *)

(** Extraction succeeds on the nodes of a tree whose rows are lines of the
    content, as soon as the node has a name. *)
Lemma node_text_in_range tree lines n :
  rows_in_range tree lines -> In n (preorder tree) ->
  exists s, node_text lines n = Ok s.
Proof.
  intros Hrows Hn. unfold rows_in_range in Hrows.
  rewrite Forall_forall in Hrows.
  assert (Hlt : fst (start_point n) < length lines).
  { apply Hrows. now apply list_elem_of_In. }
  unfold node_text.
  destruct (nth_error lines (fst (start_point n))) as [line|] eqn:E; [eauto|].
  apply nth_error_None in E. lia.
Qed.

Lemma mapE_total {A B} (f : A -> Exc B) (l : list A) :
  (forall a, In a l -> exists b, f a = Ok b) ->
  exists bs, mapE f l = Ok bs.
Proof.
  induction l as [|a l IH]; intros H; simpl; [eauto|].
  destruct (H a (or_introl eq_refl)) as (b & ->).
  destruct IH as (bs & ->); [intros; apply H; now right|].
  simpl. eauto.
Qed.

Lemma extract_python_function_succeeds tree lines fn name_node :
  rows_in_range tree lines ->
  In fn (preorder tree) ->
  first_child "identifier" (children fn) = Some name_node ->
  truthy (_extract_python_function fn lines) = true.
Proof.
  intros Hrows Hfn Hname.
  assert (Hchild : forall n c, In n (preorder tree) -> In c (children n) ->
                               exists s, node_text lines c = Ok s).
  { intros n c Hn Hc. apply (node_text_in_range tree); [exact Hrows|].
    now apply (preorder_child tree n). }
  unfold _extract_python_function, extract_python_function_body.
  rewrite Hname.
  destruct (Hchild fn name_node Hfn) as (name & ->);
    [now apply first_child_in in Hname|].
  cbn [bindE].
  assert (Hpar : exists ps,
             match first_child "parameters" (children fn) with
             | Some params_node =>
                 mapE (node_text lines)
                   (List.filter (fun c => String.eqb (type c) "identifier")
                      (children params_node))
             | None => Ok []
             end = Ok ps).
  { destruct (first_child "parameters" (children fn)) as [p|] eqn:Hp; [|eauto].
    apply first_child_in in Hp as [Hp _].
    apply mapE_total. intros a Ha. apply filter_In in Ha as [Ha _].
    apply (Hchild p); [|exact Ha]. now apply (preorder_child tree fn). }
  destruct Hpar as (ps & ->). cbn [bindE].
  assert (Hdoc : exists doc,
             match first_child "block" (children fn) with
             | Some body_node =>
                 match nth_error (children body_node) 1 with
                 | Some first_stmt =>
                     if String.eqb (type first_stmt) "expression_statement"
                     then match children first_stmt with
                          | expr_child :: _ =>
                              if String.eqb (type expr_child) "string"
                              then s <- node_text lines expr_child ;;
                                   Ok (PStr s)
                              else Ok PNone
                          | [] => Ok PNone
                          end
                     else Ok PNone
                 | None => Ok PNone
                 end
             | None => Ok PNone
             end = Ok doc).
  { destruct (first_child "block" (children fn)) as [b|] eqn:Hb; [|eauto].
    apply first_child_in in Hb as [Hb _].
    destruct (nth_error (children b) 1) as [st|] eqn:Hst; [|eauto].
    apply nth_error_In in Hst.
    destruct (String.eqb (type st) "expression_statement"); [|eauto].
    destruct (children st) as [|e es] eqn:He; [eauto|].
    destruct (String.eqb (type e) "string"); [|eauto].
    destruct (Hchild st e) as (s & ->).
    - eapply preorder_child; [|exact Hst]. now apply (preorder_child tree fn).
    - rewrite He. now left.
    - simpl. eauto. }
  destruct Hdoc as (doc & ->). reflexivity.
Qed.

Lemma extract_python_class_succeeds tree lines cls name_node :
  rows_in_range tree lines ->
  In cls (preorder tree) ->
  first_child "identifier" (children cls) = Some name_node ->
  truthy (_extract_python_class cls lines) = true.
Proof.
  intros Hrows Hcls Hname.
  unfold _extract_python_class, extract_python_class_body.
  rewrite Hname.
  destruct (node_text_in_range tree lines name_node Hrows) as (name & ->).
  - apply first_child_in in Hname as [Hname _].
    now apply (preorder_child tree cls).
  - reflexivity.
Qed.

Lemma rows_in_range_class : rows_in_range tree_class (split newline src_class).
Proof. unfold rows_in_range. repeat constructor; simpl; lia. Qed.

(** ** Docstrings *)

(** C7. The code reads the docstring from the second child of the body.  For
    [def f(x): 'doc'; return x] the first statement is the string literal
    ['doc'], yet the record has no docstring, also in the result of
    [parse_file]; for [def f(x): pass; 'late'] the first statement is [pass],
    yet the record takes ['late'] as its docstring. *)
Theorem C7_docstring_read_from_second_statement :
  get "docstring" (_extract_python_function fn_doc (split newline src_doc))
  = Some PNone
  /\ leading_docstring fn_doc (split newline src_doc) = PStr "'doc'"
  /\ (exists res r,
        parse_file sample_world "/r/a.py" None 0 = (Ok res, 1)
        /\ get_list "functions" res = [r]
        /\ get "name" r = Some (PStr "f")
        /\ get "docstring" r = Some PNone)
  /\ get "docstring" (_extract_python_function fn_late (split newline src_late))
     = Some (PStr "'late'")
  /\ leading_docstring fn_late (split newline src_late) = PNone.
Proof.
  split; [reflexivity|]. split; [reflexivity|]. split.
  - eexists. eexists. split; [vm_compute; reflexivity|].
    repeat split; reflexivity.
  - split; reflexivity.
Qed.

(** ** Blank lines *)

Lemma lstrip_blank s : is_blank s = true -> lstrip s = EmptyString.
Proof.
  induction s as [|c s IH]; simpl; [reflexivity|].
  destruct (is_space c); simpl; [exact IH | discriminate].
Qed.

Lemma lstrip_non_blank s :
  is_blank s = false ->
  exists c s', lstrip s = String c s' /\ is_space c = false.
Proof.
  induction s as [|c s IH]; simpl; [discriminate|].
  destruct (is_space c) eqn:E; simpl; [exact IH | eauto].
Qed.

Lemma rstrip_keeps_head c s :
  is_space c = false -> rstrip (String c s) <> EmptyString.
Proof.
  intros E. simpl. destruct (rstrip s); [rewrite E|]; discriminate.
Qed.

Lemma strip_truthy s : str_truthy (strip s) = negb (is_blank s).
Proof.
  unfold str_truthy, strip. destruct (is_blank s) eqn:B.
  - now rewrite (lstrip_blank s B).
  - destruct (lstrip_non_blank s B) as (c & s' & -> & E).
    pose proof (rstrip_keeps_head c s' E) as H.
    destruct (rstrip (String c s')); [contradiction | reflexivity].
Qed.

Lemma filter_complement {A} (p : A -> bool) (l : list A) :
  length (List.filter (fun a => negb (p a)) l) + length (List.filter p l)
  = length l.
Proof.
  induction l as [|a l IH]; simpl; [reflexivity|].
  destruct (p a); simpl; lia.
Qed.

Lemma lines_of_code_non_blank lines :
  length (List.filter (fun line => str_truthy (strip line)) lines)
  = non_blank_lines lines.
Proof.
  unfold non_blank_lines. f_equal. apply List.filter_ext.
  intros a. apply strip_truthy.
Qed.

(** The lines of a content are the pieces between its newline characters:
    one more than there are newlines, so that a content whose last line ends
    in a newline has an empty last line. *)
Lemma split_length sep s : length (split sep s) = S (occurrences sep s).
Proof.
  induction s as [|c s IH]; simpl; [reflexivity|].
  destruct (Ascii.eqb c sep); simpl; [now rewrite IH|].
  destruct (split sep s); simpl in *; lia.
Qed.

Lemma split_without_sep sep s :
  occurrences sep s = 0 -> split sep s = [s].
Proof.
  induction s as [|c s IH]; simpl; [reflexivity|].
  destruct (Ascii.eqb c sep); [discriminate|]. simpl.
  intros H. now rewrite (IH H).
Qed.

Lemma split_at_sep sep a b :
  occurrences sep a = 0 ->
  split sep (a ++ String sep b)%string = a :: split sep b.
Proof.
  induction a as [|c a IH]; simpl.
  - now rewrite Ascii.eqb_refl.
  - destruct (Ascii.eqb c sep); [discriminate|]. simpl.
    intros H. now rewrite (IH H).
Qed.

Lemma split_joined ls :
  ls <> [] -> Forall is_line ls -> split newline (joined ls) = ls.
Proof.
  induction ls as [|a ls IH]; intros Hne Hlines; [contradiction|].
  apply Forall_cons in Hlines as [Ha Hlines].
  destruct ls as [|b ls].
  - simpl. now apply split_without_sep.
  - change (joined (a :: b :: ls))
      with (a ++ String newline (joined (b :: ls)))%string.
    rewrite (split_at_sep newline a _ Ha), IH; [reflexivity | discriminate|].
    exact Hlines.
Qed.

Lemma split_terminated ls :
  Forall is_line ls -> split newline (terminated ls) = ls ++ [EmptyString].
Proof.
  induction ls as [|a ls IH]; intros Hlines; [reflexivity|].
  apply Forall_cons in Hlines as [Ha Hlines].
  simpl terminated. rewrite (split_at_sep newline a _ Ha), (IH Hlines).
  reflexivity.
Qed.

Lemma non_blank_lines_terminated ls :
  non_blank_lines (ls ++ [EmptyString]) = non_blank_lines ls.
Proof.
  unfold non_blank_lines. rewrite List.filter_app, length_app. simpl. lia.
Qed.

(** ** The fallback *)

Lemma fallback_parse_read w file_path t content :
  fs w t file_path = Ok content ->
  _fallback_parse w file_path t =
  (Ok (PDict
         [("language",
            PStr match _detect_language file_path with
                 | Some l => l
                 | None => "unknown"
                 end);
          ("functions", PList []);
          ("classes", PList []);
          ("imports", PList []);
          ("lines_of_code",
            PInt (Z.of_nat (non_blank_lines (split newline content))));
          ("total_lines", PInt (Z.of_nat (length (split newline content))));
          ("errors",
            PList [PStr "Fallback parsing used - limited functionality"])]),
   S t).
Proof.
  intros Hread.
  unfold _fallback_parse, try_except, bindIO, open_read, ret.
  rewrite Hread, lines_of_code_non_blank. reflexivity.
Qed.

Lemma fallback_parse_unreadable w file_path t e :
  fs w t file_path = Raise e ->
  _fallback_parse w file_path t =
  (Ok (PDict
         [("language", PStr "unknown");
          ("functions", PList []);
          ("classes", PList []);
          ("imports", PList []);
          ("errors", PList [PStr ("Parsing failed: " ++ exn_msg e)])]),
   S t).
Proof.
  intros Hread.
  unfold _fallback_parse, try_except, bindIO, open_read, ret.
  rewrite Hread. reflexivity.
Qed.

Lemma fallback_parse_result w file_path t :
  exists r, _fallback_parse w file_path t = (Ok r, S t) /\ is_parse_result r.
Proof.
  destruct (fs w t file_path) as [content|e] eqn:Hread.
  - rewrite (fallback_parse_read _ _ _ _ Hread). eexists. split; [reflexivity|].
    unfold is_parse_result. do 4 eexists. repeat split; reflexivity.
  - rewrite (fallback_parse_unreadable _ _ _ _ Hread).
    eexists. split; [reflexivity|].
    unfold is_parse_result. do 4 eexists. repeat split; reflexivity.
Qed.

Lemma parse_resolved_unregistered w file_path language t :
  (forall l, language = Some l -> member l (parsers w) = false) ->
  parse_resolved w file_path language t = _fallback_parse w file_path t.
Proof.
  intros H. unfold parse_resolved. destruct language as [l|]; [|reflexivity].
  rewrite (H l eq_refl). simpl. now rewrite orb_true_r.
Qed.

Lemma parse_file_unregistered w file_path language t :
  (forall l, resolve_language file_path language = Some l ->
             member l (parsers w) = false) ->
  parse_file w file_path language t = _fallback_parse w file_path t.
Proof.
  intros H. unfold parse_file, try_except.
  rewrite (parse_resolved_unregistered _ _ _ _ H).
  destruct (fallback_parse_result w file_path t) as (r & -> & _). reflexivity.
Qed.

(** C8, as the code has it. For a file whose extension is not in the table
    (and for which no language with a registered parser is declared), once
    its content is read: the result is the fallback result; functions,
    classes and imports are empty and there is a diagnostic; lines_of_code
    is the number of lines that are not blank; total_lines is one more than
    the number of newlines of the content.  So total_lines is the number of
    lines when no newline follows the last line, and one more than the
    number of lines when every line ends in a newline; lines_of_code is the
    number of lines that are not blank in both cases. *)
Theorem C8_fallback_counts_lines
  (w : World) (file_path : string) (language : option string) (t : nat)
  (content : string) :
  (forall l, language = Some l -> member l (parsers w) = false) ->
  _detect_language file_path = None ->
  fs w t file_path = Ok content ->
  exists r loc total,
    parse_file w file_path language t = (Ok r, S t)
    /\ _fallback_parse w file_path t = (Ok r, S t)
    /\ get "functions" r = Some (PList [])
    /\ get "classes" r = Some (PList [])
    /\ get "imports" r = Some (PList [])
    /\ (exists e es, get "errors" r = Some (PList (e :: es)))
    /\ get_int "lines_of_code" r = Some (Z.of_nat loc)
    /\ get_int "total_lines" r = Some (Z.of_nat total)
    /\ loc = non_blank_lines (split newline content)
    /\ total = S (occurrences newline content)
    /\ (forall ls,
          ls <> [] -> Forall is_line ls -> content = joined ls ->
          total = length ls /\ loc = non_blank_lines ls)
    /\ (forall ls,
          Forall is_line ls -> content = terminated ls ->
          total = S (length ls) /\ loc = non_blank_lines ls).
Proof.
  intros Hlang Hdetect Hread.
  pose proof (fallback_parse_read w file_path t content Hread) as Hfb.
  rewrite Hdetect in Hfb.
  assert (Hpf : parse_file w file_path language t
                = _fallback_parse w file_path t).
  { apply parse_file_unregistered. unfold resolve_language.
    destruct language as [l|]; simpl.
    - destruct (String.eqb l EmptyString).
      + rewrite Hdetect. discriminate.
      + intros l' [= <-]. now apply Hlang.
    - rewrite Hdetect. discriminate. }
  eexists. exists (non_blank_lines (split newline content)),
    (length (split newline content)).
  split; [now rewrite Hpf, Hfb|]. split; [exact Hfb|].
  repeat (split; [reflexivity|]). split; [eauto|].
  split; [reflexivity|]. split; [reflexivity|]. split; [reflexivity|].
  split; [apply split_length|]. split.
  - intros ls Hne Hlines ->. now rewrite split_joined.
  - intros ls Hlines ->.
    rewrite split_terminated, length_app, non_blank_lines_terminated by auto.
    simpl. split; [lia | reflexivity].
Qed.

Lemma sample_lines_are_lines : Forall is_line sample_lines.
Proof. repeat constructor. Qed.

Lemma C8_witness :
  exists r,
    parse_file sample_world "/r/notes.txt" None 0 = (Ok r, 1)
    /\ get "functions" r = Some (PList [])
    /\ get_int "lines_of_code" r = Some 7%Z
    /\ get_int "total_lines" r = Some 10%Z.
Proof.
  assert (Hnone : forall l, @None string = Some l ->
                            member l (parsers sample_world) = false)
    by discriminate.
  destruct (C8_fallback_counts_lines sample_world "/r/notes.txt" None 0
              ten_lines Hnone eq_refl eq_refl)
    as (r & loc & total & Hr & _ & Hf & _ & _ & _ & Hloc & Htot & _ & _
        & Hjoined & _).
  destruct (Hjoined sample_lines) as [-> ->];
    [discriminate | exact sample_lines_are_lines | reflexivity |].
  exists r. split; [exact Hr|]. split; [exact Hf|].
  split; [exact Hloc | exact Htot].
Defined.

(** C8, as the specification states it, fails for a file whose lines each
    end in a newline, as the lines of a text file usually do: the file has
    10 lines, 3 of them blank, and its total_lines is 11. *)
Lemma C8_counterexample :
  length sample_lines = 10
  /\ length (List.filter is_blank sample_lines) = 3
  /\ _detect_language "/r/log.txt" = None
  /\ fs sample_world 0 "/r/log.txt" = Ok (terminated sample_lines)
  /\ exists r,
       parse_file sample_world "/r/log.txt" None 0 = (Ok r, 1)
       /\ get_int "lines_of_code" r = Some 7%Z
       /\ get_int "total_lines" r = Some 11%Z
       /\ get_int "total_lines" r <> Some 10%Z.
Proof.
  repeat (split; [reflexivity|]).
  eexists. split; [vm_compute; reflexivity|].
  split; [reflexivity|]. split; [reflexivity | discriminate].
Qed.

(** ** Results of the rule sets *)

Lemma rule_python_never key lines :
  member key ["language"; "errors"] = true ->
  forall n v, rule_python lines n <> Some (key, v).
Proof.
  intros Hkey n v. unfold rule_python.
  case_ifs; try discriminate; intros [= <- _]; discriminate Hkey.
Qed.

Lemma rule_javascript_never key lines :
  member key ["language"; "errors"] = true ->
  forall n v, rule_javascript lines n <> Some (key, v).
Proof.
  intros Hkey n v. unfold rule_javascript.
  case_ifs; try discriminate; intros [= <- _]; discriminate Hkey.
Qed.

Lemma parse_python_is_result tree content :
  is_parse_result (_parse_python tree content)
  /\ get "language" (_parse_python tree content) = Some (PStr "python").
Proof.
  unfold is_parse_result, _parse_python, get.
  rewrite traverse_python_fold.
  set (lines := split newline content).
  set (r0 := [("language", PStr "python"); ("functions", PList []);
              ("classes", PList []); ("imports", PList []);
              ("variables", PList []); ("errors", PList [])]).
  assert (Hl : dict_get "language"
                 (fold_left (fun acc m => visit_rule (rule_python lines) m acc)
                    (preorder tree) r0) = Some (PStr "python")).
  { rewrite walk_rule_get_untouched; [reflexivity|].
    now apply rule_python_never. }
  split; [|exact Hl].
  do 4 eexists. split; [reflexivity|]. split; [exact Hl|]. split.
  - apply (walk_rule_get _ "functions" _ r0 []). reflexivity.
  - rewrite walk_rule_get_untouched; [reflexivity|].
    now apply rule_python_never.
Qed.

Lemma parse_javascript_is_result tree content :
  is_parse_result (_parse_javascript tree content)
  /\ get "language" (_parse_javascript tree content)
     = Some (PStr "javascript").
Proof.
  unfold is_parse_result, _parse_javascript, get.
  rewrite traverse_javascript_fold.
  set (lines := split newline content).
  set (r0 := [("language", PStr "javascript"); ("functions", PList []);
              ("classes", PList []); ("imports", PList []);
              ("exports", PList []); ("variables", PList []);
              ("errors", PList [])]).
  assert (Hl : dict_get "language"
                 (fold_left
                    (fun acc m => visit_rule (rule_javascript lines) m acc)
                    (preorder tree) r0) = Some (PStr "javascript")).
  { rewrite walk_rule_get_untouched; [reflexivity|].
    now apply rule_javascript_never. }
  split; [|exact Hl].
  do 4 eexists. split; [reflexivity|]. split; [exact Hl|]. split.
  - apply (walk_rule_get _ "functions" _ r0 []). reflexivity.
  - rewrite walk_rule_get_untouched; [reflexivity|].
    now apply rule_javascript_never.
Qed.

Lemma known_language w l :
  member l (parsers w) = true ->
  In l configured_languages.
Proof.
  unfold member, parsers. intros H.
  apply existsb_exists in H as (x & Hx & E).
  apply String.eqb_eq in E. subst x.
  apply filter_In in Hx as [Hx _]. exact Hx.
Qed.

Lemma rule_set_is_result l tree content :
  is_parse_result (rule_set_result l tree content).
Proof.
  unfold rule_set_result.
  case_ifs;
    try apply parse_python_is_result;
    try apply parse_javascript_is_result;
    unfold is_parse_result; do 4 eexists; repeat split; reflexivity.
Qed.

Lemma rule_set_language l tree content :
  In l configured_languages ->
  get "language" (rule_set_result l tree content)
  = Some (PStr (rule_language l)).
Proof.
  intros Hl.
  each_member Hl; unfold rule_set_result, rule_language; simpl;
    try apply parse_python_is_result;
    try apply parse_javascript_is_result; reflexivity.
Qed.

Lemma rule_set_keys l tree content :
  In l configured_languages ->
  exists d,
    rule_set_result l tree content = PDict d /\ dict_keys d = result_keys l.
Proof.
  intros Hl.
  each_member Hl; unfold rule_set_result, result_keys; simpl;
    eexists; (split; [reflexivity|]);
    try reflexivity;
    try (rewrite traverse_python_fold, walk_rule_keys; reflexivity);
    try (rewrite traverse_javascript_fold, walk_rule_keys; reflexivity).
Qed.

(** ** The walkers on a bounded stack *)

Lemma height_eq n :
  height n = S (fold_right (fun c h => Nat.max (height c) h) 0 (children n)).
Proof. destruct n; reflexivity. Qed.

Lemma height_child n c : In c (children n) -> height c < height n.
Proof.
  rewrite (height_eq n).
  induction (children n) as [|a l IH]; simpl; [tauto|].
  intros [<-|H]; [lia | specialize (IH H); lia].
Qed.

Lemma height_highest_child n :
  1 < height n -> exists c, In c (children n) /\ height n = S (height c).
Proof.
  rewrite (height_eq n). intros H.
  assert (E : exists c, In c (children n)
                /\ fold_right (fun c h => Nat.max (height c) h) 0 (children n)
                   = height c).
  { induction (children n) as [|a l IH]; simpl in *; [lia|].
    destruct (Nat.max_spec (height a)
                (fold_right (fun c h => Nat.max (height c) h) 0 l))
      as [[Hlt ->]|[Hle ->]].
    - destruct IH as (c & Hc & E); [lia|]. exists c. split; [now right|exact E].
    - exists a. split; [now left | reflexivity]. }
  destruct E as (c & Hc & ->). eauto.
Qed.

Lemma call_outcome {A} frames (body : nat -> Exc A) :
  (forall f, (exists a, body f = Ok a) \/ body f = Raise RecursionError) ->
  (exists a, call frames body = Ok a)
  \/ call frames body = Raise RecursionError.
Proof. intros H. destruct frames; simpl; [now right | apply H]. Qed.

Lemma foldE_ok {A S} (f : S -> A -> Exc S) (g : S -> A -> S) l :
  (forall a, In a l -> forall s, f s a = Ok (g s a)) ->
  forall s, foldE f l s = Ok (fold_left g l s).
Proof.
  induction l as [|a l IH]; intros H s; simpl; [reflexivity|].
  rewrite (H a (or_introl eq_refl)). simpl. apply IH.
  intros b Hb. apply H. now right.
Qed.

Lemma foldE_outcome {A S} (f : S -> A -> Exc S) l e :
  (forall a s, In a l -> (exists s', f s a = Ok s') \/ f s a = Raise e) ->
  forall s, (exists s', foldE f l s = Ok s') \/ foldE f l s = Raise e.
Proof.
  induction l as [|a l IH]; intros H s; simpl; [eauto|].
  destruct (H a s (or_introl eq_refl)) as [(s' & ->)| ->]; simpl; [|now right].
  apply IH. intros b s0 Hb. apply H. now right.
Qed.

Lemma foldE_raise {A S} (f : S -> A -> Exc S) l e a :
  In a l -> (forall s, f s a = Raise e) ->
  (forall b s, In b l -> (exists s', f s b = Ok s') \/ f s b = Raise e) ->
  forall s, foldE f l s = Raise e.
Proof.
  induction l as [|b l IH]; intros Ha Hraise H s; [destruct Ha|]. simpl.
  destruct (H b s (or_introl eq_refl)) as [(s' & E)| ->]; [|reflexivity].
  rewrite E. simpl. destruct Ha as [->|Ha].
  - rewrite Hraise in E. discriminate.
  - apply IH; auto. intros c s0 Hc. apply H. now right.
Qed.

Lemma foldE_invariant {A S} (f : S -> A -> Exc S) l (P : S -> Prop) :
  (forall a s s', In a l -> P s -> f s a = Ok s' -> P s') ->
  forall s s', P s -> foldE f l s = Ok s' -> P s'.
Proof.
  induction l as [|a l IH]; intros H s s' Hs E; simpl in E.
  - now injection E as <-.
  - destruct (f s a) as [s1|e] eqn:E1; [|discriminate]. simpl in E.
    apply (IH (fun b s0 s0' Hb => H b s0 s0' (or_intror Hb)) s1 s');
      [|exact E].
    exact (H a s s1 (or_introl eq_refl) Hs E1).
Qed.

Lemma mapE_ok {A B} (f : A -> Exc B) (g : A -> B) l :
  (forall a, In a l -> f a = Ok (g a)) -> mapE f l = Ok (map g l).
Proof.
  induction l as [|a l IH]; intros H; simpl; [reflexivity|].
  rewrite (H a (or_introl eq_refl)), IH; [reflexivity|].
  intros b Hb. apply H. now right.
Qed.

Lemma mapE_in {A B} (f : A -> Exc B) l bs b :
  mapE f l = Ok bs -> In b bs -> exists a, In a l /\ f a = Ok b.
Proof.
  revert bs. induction l as [|a l IH]; intros bs E Hb; simpl in E.
  - injection E as <-. destruct Hb.
  - destruct (f a) as [b0|e] eqn:Ea; [|discriminate]. simpl in E.
    destruct (mapE f l) as [bs0|e]; [|discriminate]. injection E as <-.
    destruct Hb as [<-|Hb].
    + exists a. split; [now left | exact Ea].
    + destruct (IH bs0 eq_refl Hb) as (a0 & Ha0 & E0).
      exists a0. split; [now right | exact E0].
Qed.

(** A walker on a bounded stack against the same walker as a structural
    recursion. *)
Section BoundedWalk.
Context {St : Type}.
Variable visit : Node -> St -> St.
Variable walk : Node -> St -> St.
Variable visit_within : nat -> Node -> St -> Exc St.
Variable walk_within : nat -> Node -> St -> Exc St.
Variable margin : nat.
Hypothesis walk_eq :
  forall n s,
    walk n s = fold_left (fun acc c => walk c acc) (children n) (visit n s).
Hypothesis walk_within_eq :
  forall frames n s,
    walk_within frames n s
    = call frames
        (fun frames' =>
           s' <- visit_within frames' n s ;;
           foldE (fun acc c => walk_within frames' c acc) (children n) s').
Hypothesis visit_fits :
  forall frames n s,
    height n + margin <= S frames -> visit_within frames n s = Ok (visit n s).
Hypothesis visit_outcome :
  forall frames n s,
    (exists s', visit_within frames n s = Ok s')
    \/ visit_within frames n s = Raise RecursionError.

Lemma walk_within_fits n :
  forall frames s,
    height n + margin <= frames -> walk_within frames n s = Ok (walk n s).
Proof.
  induction n as [ty sp ep ch IH] using Node_rose_ind. intros frames s Hfit.
  rewrite walk_within_eq, walk_eq.
  destruct frames as [|frames]; [rewrite height_eq in Hfit; lia|]. simpl call.
  rewrite (visit_fits _ _ _ Hfit). simpl bindE. simpl children.
  apply foldE_ok. intros c Hc s0.
  rewrite Forall_forall in IH. apply IH; [now apply list_elem_of_In|].
  pose proof (height_child (mkNode ty sp ep ch) c Hc). lia.
Qed.

Lemma walk_within_outcome frames :
  forall n s,
    (exists s', walk_within frames n s = Ok s')
    \/ walk_within frames n s = Raise RecursionError.
Proof.
  induction frames as [|frames IH]; intros n s; rewrite walk_within_eq; simpl.
  - now right.
  - destruct (visit_outcome frames n s) as [(s' & ->)| ->]; simpl;
      [|now right].
    apply foldE_outcome. intros c s0 _. apply IH.
Qed.

Lemma walk_within_too_deep frames :
  forall n s,
    frames < height n -> walk_within frames n s = Raise RecursionError.
Proof.
  induction frames as [|frames IH]; intros n s Hdeep;
    rewrite walk_within_eq; simpl; [reflexivity|].
  destruct (visit_outcome frames n s) as [(s' & ->)| ->]; simpl;
    [|reflexivity].
  destruct (height_highest_child n) as (c & Hc & E); [lia|].
  apply (foldE_raise _ _ _ c Hc).
  - intros s0. apply IH. lia.
  - intros b s0 _. apply walk_within_outcome.
Qed.

Lemma walk_within_invariant (P : St -> Prop) (Q : Node -> Prop) :
  (forall frames n s s',
     Q n -> P s -> visit_within frames n s = Ok s' -> P s') ->
  (forall n c, Q n -> In c (children n) -> Q c) ->
  forall frames n s s',
    Q n -> P s -> walk_within frames n s = Ok s' -> P s'.
Proof.
  intros Hvisit Hchild.
  induction frames as [|frames IH]; intros n s s' Hn Hs E;
    rewrite walk_within_eq in E; simpl in E; [discriminate|].
  destruct (visit_within frames n s) as [s1|e] eqn:E1; [|discriminate].
  simpl in E.
  apply (foldE_invariant _ _ P) with (s := s1) (s' := s') in E; auto.
  - intros c s0 s0' Hc Hs0 E0. apply (IH c s0 s0'); auto.
    now apply (Hchild n).
  - now apply (Hvisit frames n s s1).
Qed.
End BoundedWalk.

(** *** The complexity counter *)

Lemma traverse_for_complexity_within_eq frames n c :
  traverse_for_complexity_within frames n c
  = call frames
      (fun frames' =>
         c' <- Ok (if is_branch n then c + 1 else c) ;;
         foldE (fun acc child =>
                  traverse_for_complexity_within frames' child acc)
           (children n) c').
Proof. destruct frames; reflexivity. Qed.

Lemma traverse_for_complexity_within_fits frames n c :
  height n <= frames ->
  traverse_for_complexity_within frames n c
  = Ok (traverse_for_complexity n c).
Proof.
  intros H.
  apply (walk_within_fits (fun n c => if is_branch n then c + 1 else c)
           traverse_for_complexity
           (fun _ n c => Ok (if is_branch n then c + 1 else c))
           traverse_for_complexity_within 0);
    [apply traverse_for_complexity_eq | apply traverse_for_complexity_within_eq
    | reflexivity | lia].
Qed.

Lemma traverse_for_complexity_within_too_deep frames n c :
  frames < height n ->
  traverse_for_complexity_within frames n c = Raise RecursionError.
Proof.
  apply (walk_within_too_deep
           (fun _ n c => Ok (if is_branch n then c + 1 else c))
           traverse_for_complexity_within);
    [apply traverse_for_complexity_within_eq | eauto].
Qed.

(** The counter returns when its walk of the node fits, with the count of
    the structural recursion, and raises otherwise. *)
Lemma calculate_complexity_within_cases frames node :
  (height node + 1 <= frames
   /\ _calculate_complexity_within frames node
      = Ok (_calculate_complexity node))
  \/ (frames < height node + 1
      /\ _calculate_complexity_within frames node = Raise RecursionError).
Proof.
  unfold _calculate_complexity_within, _calculate_complexity.
  destruct frames as [|frames]; simpl; [right; split; [lia|reflexivity]|].
  destruct (le_lt_dec (height node) frames) as [H|H].
  - left. split; [lia|]. now apply traverse_for_complexity_within_fits.
  - right. split; [lia|]. now apply traverse_for_complexity_within_too_deep.
Qed.

(** *** The rules *)

(** Once entered, the rule for functions returns the record of the
    structural recursion, or nothing when the counter found no room. *)
Lemma extract_python_function_body_within_cases frames node lines :
  (height node + 1 <= frames
   /\ extract_python_function_body_within frames node lines
      = extract_python_function_body node lines)
  \/ try_return (extract_python_function_body_within frames node lines)
       (fun _ => PNone) = PNone.
Proof.
  unfold extract_python_function_body_within, extract_python_function_body.
  destruct (first_child "identifier" (children node)) as [name_node|];
    [|right; reflexivity].
  destruct (node_text lines name_node) as [name|e]; [|right; reflexivity].
  cbn [bindE].
  destruct (match first_child "parameters" (children node) with
            | Some params_node =>
                mapE (node_text lines)
                  (List.filter (fun c => String.eqb (type c) "identifier")
                     (children params_node))
            | None => Ok []
            end) as [params|e]; [|right; reflexivity].
  cbn [bindE].
  destruct (match first_child "block" (children node) with
            | Some body_node =>
                match nth_error (children body_node) 1 with
                | Some first_stmt =>
                    if String.eqb (type first_stmt) "expression_statement"
                    then match children first_stmt with
                         | expr_child :: _ =>
                             if String.eqb (type expr_child) "string"
                             then s <- node_text lines expr_child ;;
                                  Ok (PStr s)
                             else Ok PNone
                         | [] => Ok PNone
                         end
                    else Ok PNone
                | None => Ok PNone
                end
            | None => Ok PNone
            end) as [doc|e]; [|right; reflexivity].
  cbn [bindE].
  destruct (calculate_complexity_within_cases frames node) as [[H ->]|[_ ->]];
    [left; split; [exact H | reflexivity] | right; reflexivity].
Qed.

Lemma extract_python_function_within_fits frames node lines :
  height node + 2 <= frames ->
  _extract_python_function_within frames node lines
  = Ok (_extract_python_function node lines).
Proof.
  intros H. unfold _extract_python_function_within, _extract_python_function.
  destruct frames as [|frames]; [lia|]. simpl call. f_equal. f_equal.
  unfold extract_python_function_body_within, extract_python_function_body.
  destruct (calculate_complexity_within_cases frames node) as [[_ ->]|[H' _]];
    [reflexivity | lia].
Qed.

Lemma extract_python_function_within_value frames node lines v :
  _extract_python_function_within frames node lines = Ok v ->
  v = PNone \/ v = _extract_python_function node lines.
Proof.
  unfold _extract_python_function_within, _extract_python_function.
  destruct frames as [|frames]; simpl; [discriminate|]. intros [= <-].
  destruct (extract_python_function_body_within_cases frames node lines)
    as [[_ ->]| ->]; auto.
Qed.

Lemma extract_python_function_within_outcome frames node lines :
  (exists v, _extract_python_function_within frames node lines = Ok v)
  \/ _extract_python_function_within frames node lines = Raise RecursionError.
Proof. apply call_outcome. eauto. Qed.

(** The methods a class record can hold: records of function definitions
    among the children of the body of the class. *)
Lemma extract_python_class_within_fits frames node lines :
  height node + 2 <= frames ->
  _extract_python_class_within frames node lines
  = Ok (_extract_python_class node lines).
Proof.
  intros H. unfold _extract_python_class_within, _extract_python_class.
  destruct frames as [|frames]; [lia|]. simpl call. f_equal. f_equal.
  unfold extract_python_class_body_within, extract_python_class_body.
  destruct (first_child "identifier" (children node)) as [name_node|];
    [|reflexivity].
  destruct (node_text lines name_node) as [name|e]; [|reflexivity].
  cbn [bindE].
  destruct (first_child "block" (children node)) as [body|] eqn:Hbody;
    [|reflexivity].
  rewrite (mapE_ok _ (fun child => _extract_python_function child lines));
    [reflexivity|].
  intros c Hc. apply extract_python_function_within_fits.
  apply filter_In in Hc as [Hc _].
  apply first_child_in in Hbody as [Hbody _].
  pose proof (height_child _ _ Hc). pose proof (height_child _ _ Hbody). lia.
Qed.

Lemma extract_python_class_within_value frames node lines v :
  _extract_python_class_within frames node lines = Ok v ->
  v = PNone
  \/ exists name methods,
       v = PDict [("name", PStr name);
                  ("start_line", line_no (fst (start_point node)));
                  ("end_line", line_no (fst (end_point node)));
                  ("methods", PList methods);
                  ("attributes", PList [])]
       /\ forall m, In m methods ->
            exists body child,
              first_child "block" (children node) = Some body
              /\ In child (children body)
              /\ type child = "function_definition"
              /\ m = _extract_python_function child lines
              /\ truthy m = true.
Proof.
  unfold _extract_python_class_within.
  destruct frames as [|frames]; simpl; [discriminate|]. intros [= <-].
  unfold extract_python_class_body_within.
  destruct (first_child "identifier" (children node)) as [name_node|];
    [|left; reflexivity].
  destruct (node_text lines name_node) as [name|e]; [|left; reflexivity].
  cbn [bindE].
  destruct (first_child "block" (children node)) as [body|] eqn:Hbody.
  - destruct (mapE _ _) as [infos|e] eqn:E; [|left; reflexivity].
    right. exists name, (List.filter truthy infos). split; [reflexivity|].
    intros m Hm. apply filter_In in Hm as [Hm T].
    destruct (mapE_in _ _ _ _ E Hm) as (c & Hc & Ec).
    apply filter_In in Hc as [Hc Hty]. apply String.eqb_eq in Hty.
    exists body, c. repeat split; auto.
    apply extract_python_function_within_value in Ec as [->| ->];
      [discriminate T | reflexivity].
  - right. exists name, []. split; [reflexivity|]. intros m [].
Qed.

Lemma extract_python_class_within_outcome frames node lines :
  (exists v, _extract_python_class_within frames node lines = Ok v)
  \/ _extract_python_class_within frames node lines = Raise RecursionError.
Proof. apply call_outcome. eauto. Qed.

(** *** The walkers *)

Lemma traverse_python_within_eq lines frames n r :
  traverse_python_within frames lines n r
  = call frames
      (fun frames' =>
         r' <- visit_python_within frames' lines n r ;;
         foldE (fun acc c => traverse_python_within frames' lines c acc)
           (children n) r').
Proof. destruct frames; reflexivity. Qed.

Lemma traverse_javascript_within_eq lines frames n r :
  traverse_javascript_within frames lines n r
  = call frames
      (fun frames' =>
         r' <- visit_javascript_within frames' lines n r ;;
         foldE (fun acc c => traverse_javascript_within frames' lines c acc)
           (children n) r').
Proof. destruct frames; reflexivity. Qed.

Lemma visit_python_within_fits lines frames n r :
  height n + 3 <= S frames ->
  visit_python_within frames lines n r = Ok (visit_python lines n r).
Proof.
  intros H. unfold visit_python_within, visit_python.
  rewrite extract_python_function_within_fits,
    extract_python_class_within_fits by lia.
  unfold _extract_python_import_within, _extract_python_variable_within.
  destruct frames as [|frames]; [rewrite height_eq in H; lia|].
  case_ifs; reflexivity.
Qed.

Lemma visit_javascript_within_fits lines frames n r :
  height n + 3 <= S frames ->
  visit_javascript_within frames lines n r = Ok (visit_javascript lines n r).
Proof.
  intros H. unfold visit_javascript_within, visit_javascript.
  unfold _extract_js_function_within, _extract_js_class_within,
    _extract_js_import_within.
  destruct frames as [|frames]; [rewrite height_eq in H; lia|].
  case_ifs; reflexivity.
Qed.

Lemma visit_python_within_outcome lines frames n r :
  (exists r', visit_python_within frames lines n r = Ok r')
  \/ visit_python_within frames lines n r = Raise RecursionError.
Proof.
  unfold visit_python_within, _extract_python_import_within,
    _extract_python_variable_within.
  destruct (extract_python_function_within_outcome frames n lines)
    as [(v1 & ->)| ->];
    destruct (extract_python_class_within_outcome frames n lines)
      as [(v2 & ->)| ->];
    destruct frames; simpl; case_ifs; simpl; eauto.
Qed.

Lemma visit_javascript_within_outcome lines frames n r :
  (exists r', visit_javascript_within frames lines n r = Ok r')
  \/ visit_javascript_within frames lines n r = Raise RecursionError.
Proof.
  unfold visit_javascript_within, _extract_js_function_within,
    _extract_js_class_within, _extract_js_import_within.
  destruct frames; simpl; case_ifs; simpl; eauto.
Qed.

(** A tree that fits is walked as by the structural recursion. *)
Lemma parse_python_within_fits frames tree content :
  fits frames tree ->
  _parse_python_within frames tree content = Ok (_parse_python tree content).
Proof.
  intros H. unfold fits in H. unfold _parse_python_within, _parse_python.
  rewrite (walk_within_fits (visit_python (split newline content))
                 (traverse_python (split newline content))
                 (fun frames => visit_python_within frames
                                  (split newline content))
                 (fun frames => traverse_python_within frames
                                  (split newline content)) 3
                 (traverse_python_eq _) (traverse_python_within_eq _)
                 (visit_python_within_fits _)); [reflexivity | lia].
Qed.

Lemma parse_javascript_within_fits frames tree content :
  fits frames tree ->
  _parse_javascript_within frames tree content
  = Ok (_parse_javascript tree content).
Proof.
  intros H. unfold fits in H.
  unfold _parse_javascript_within, _parse_javascript.
  rewrite (walk_within_fits (visit_javascript (split newline content))
                 (traverse_javascript (split newline content))
                 (fun frames => visit_javascript_within frames
                                  (split newline content))
                 (fun frames => traverse_javascript_within frames
                                  (split newline content)) 3
                 (traverse_javascript_eq _) (traverse_javascript_within_eq _)
                 (visit_javascript_within_fits _)); [reflexivity | lia].
Qed.

(** A tree higher than the stack allows makes the walker raise. *)
Lemma parse_python_within_too_deep frames tree content :
  frames < height tree ->
  _parse_python_within frames tree content = Raise RecursionError.
Proof.
  intros H. unfold _parse_python_within.
  now rewrite (walk_within_too_deep
                 (fun frames => visit_python_within frames
                                  (split newline content))
                 (fun frames => traverse_python_within frames
                                  (split newline content))
                 (traverse_python_within_eq _)
                 (visit_python_within_outcome _)).
Qed.

Lemma parse_javascript_within_too_deep frames tree content :
  frames < height tree ->
  _parse_javascript_within frames tree content = Raise RecursionError.
Proof.
  intros H. unfold _parse_javascript_within.
  now rewrite (walk_within_too_deep
                 (fun frames => visit_javascript_within frames
                                  (split newline content))
                 (fun frames => traverse_javascript_within frames
                                  (split newline content))
                 (traverse_javascript_within_eq _)
                 (visit_javascript_within_outcome _)).
Qed.

(** *** What a walk that returns leaves in the result *)

Lemma visit_python_within_step lines frames n r r' :
  visit_python_within frames lines n r = Ok r' ->
  exists key info,
    r' = append_if key info r
    /\ member key ["functions"; "classes"; "imports"; "variables"] = true
    /\ (key = "functions" ->
        type n = "function_definition"
        /\ _extract_python_function_within frames n lines = Ok info)
    /\ (key = "classes" ->
        type n = "class_definition"
        /\ _extract_python_class_within frames n lines = Ok info).
Proof.
  unfold visit_python_within.
  destruct (String.eqb (type n) "function_definition") eqn:E1.
  { apply String.eqb_eq in E1.
    destruct (_extract_python_function_within frames n lines) as [v|e];
      [|discriminate].
    intros [= <-]. exists "functions", v. repeat split; auto; discriminate. }
  destruct (String.eqb (type n) "class_definition") eqn:E2.
  { apply String.eqb_eq in E2.
    destruct (_extract_python_class_within frames n lines) as [v|e];
      [|discriminate].
    intros [= <-]. exists "classes", v. repeat split; auto; discriminate. }
  destruct (member (type n) ["import_statement"; "import_from_statement"]).
  { destruct (_extract_python_import_within frames n lines) as [v|e];
      [|discriminate].
    intros [= <-]. exists "imports", v. repeat split; auto; discriminate. }
  destruct (String.eqb (type n) "assignment").
  { destruct (_extract_python_variable_within frames n lines) as [v|e];
      [|discriminate].
    intros [= <-]. exists "variables", v. repeat split; auto; discriminate. }
  intros [= <-]. exists "imports", PNone. repeat split; auto; discriminate.
Qed.

Lemma visit_javascript_within_step lines frames n r r' :
  visit_javascript_within frames lines n r = Ok r' ->
  exists key info,
    r' = append_if key info r
    /\ member key ["functions"; "classes"; "imports"] = true
    /\ (key = "functions" ->
        is_js_function n = true /\ info = _extract_js_function n lines)
    /\ (key = "classes" ->
        type n = "class_declaration" /\ info = _extract_js_class n lines).
Proof.
  unfold visit_javascript_within, _extract_js_function_within,
    _extract_js_class_within, _extract_js_import_within, is_js_function.
  destruct frames as [|frames]; cbn [call bindE].
  - case_ifs; try discriminate. intros [= <-].
    exists "imports", PNone. repeat split; auto; discriminate.
  - destruct (member (type n)
                ["function_declaration"; "function_expression";
                 "arrow_function"]).
    { intros [= <-]. eexists "functions", _.
      repeat split; auto; discriminate. }
    destruct (String.eqb (type n) "class_declaration") eqn:E.
    { apply String.eqb_eq in E. intros [= <-]. eexists "classes", _.
      repeat split; auto; discriminate. }
    destruct (member (type n) ["import_statement"; "import_clause"]).
    { intros [= <-]. eexists "imports", _.
      repeat split; auto; discriminate. }
    intros [= <-]. exists "imports", PNone. repeat split; auto; discriminate.
Qed.

(** Appending a record leaves the language and the errors alone and the
    functions a list. *)
Lemma append_if_shape key info r lang :
  key <> "language" -> key <> "errors" ->
  dict_get "language" r = Some (PStr lang)
  /\ (exists fs, dict_get "functions" r = Some (PList fs))
  /\ (exists es, dict_get "errors" r = Some (PList es)) ->
  dict_get "language" (append_if key info r) = Some (PStr lang)
  /\ (exists fs, dict_get "functions" (append_if key info r) = Some (PList fs))
  /\ (exists es, dict_get "errors" (append_if key info r) = Some (PList es)).
Proof.
  intros Hl He (Hlang & (fs0 & Hfs) & Herr).
  rewrite (append_if_get_other key "language"),
    (append_if_get_other key "errors") by assumption.
  split; [exact Hlang|]. split; [|exact Herr].
  unfold append_if. destruct (truthy info); [|eauto].
  destruct (String.eqb key "functions") eqn:E.
  - apply String.eqb_eq in E. subst key.
    rewrite dict_get_append_same, Hfs. eauto.
  - apply String.eqb_neq in E. rewrite dict_get_append_other; eauto.
Qed.

(** The records under a key all have a property that the appended one
    has. *)
Lemma append_if_records key key' info r (G : pyval -> Prop) :
  (forall l x, dict_get key' r = Some (PList l) -> In x l -> G x) ->
  (key = key' -> truthy info = true -> G info) ->
  forall l x,
    dict_get key' (append_if key info r) = Some (PList l) -> In x l -> G x.
Proof.
  intros Hr Hinfo l x. unfold append_if.
  destruct (truthy info); [|apply Hr].
  destruct (String.eqb key key') eqn:E.
  - apply String.eqb_eq in E. subst key'.
    rewrite dict_get_append_same.
    destruct (dict_get key r) as [[| | |l0|]|] eqn:Hget; try discriminate.
    intros [= <-] Hx. apply in_app_or in Hx as [Hx|[<-|[]]].
    + exact (Hr l0 x eq_refl Hx).
    + now apply Hinfo.
  - apply String.eqb_neq in E. rewrite dict_get_append_other by assumption.
    apply Hr.
Qed.

Lemma parse_python_within_is_result frames tree content r :
  _parse_python_within frames tree content = Ok r ->
  is_parse_result r /\ get "language" r = Some (PStr "python").
Proof.
  unfold _parse_python_within.
  destruct (traverse_python_within _ _ _ _) as [d|e] eqn:E; [|discriminate].
  intros [= <-].
  assert (H : dict_get "language" d = Some (PStr "python")
              /\ (exists fs, dict_get "functions" d = Some (PList fs))
              /\ (exists es, dict_get "errors" d = Some (PList es))).
  { apply (walk_within_invariant
             (fun frames =>
                visit_python_within frames (split newline content))
             (fun frames =>
                traverse_python_within frames (split newline content))
             (traverse_python_within_eq _)
             (fun d => dict_get "language" d = Some (PStr "python")
                       /\ (exists fs, dict_get "functions" d = Some (PList fs))
                       /\ (exists es, dict_get "errors" d = Some (PList es)))
             (fun _ => True))
      in E; auto.
    - intros f n s s' _ Hs Hv.
      apply visit_python_within_step in Hv as (key & info & -> & Hkey & _).
      apply append_if_shape; auto; intros ->; discriminate Hkey.
    - simpl. eauto. }
  destruct H as (Hl & (fs0 & Hf) & (es & He)).
  split; [|exact Hl]. exists d, "python", fs0, es. auto.
Qed.

Lemma parse_javascript_within_is_result frames tree content r :
  _parse_javascript_within frames tree content = Ok r ->
  is_parse_result r /\ get "language" r = Some (PStr "javascript").
Proof.
  unfold _parse_javascript_within.
  destruct (traverse_javascript_within _ _ _ _) as [d|e] eqn:E;
    [|discriminate].
  intros [= <-].
  assert (H : dict_get "language" d = Some (PStr "javascript")
              /\ (exists fs, dict_get "functions" d = Some (PList fs))
              /\ (exists es, dict_get "errors" d = Some (PList es))).
  { apply (walk_within_invariant
             (fun frames =>
                visit_javascript_within frames (split newline content))
             (fun frames =>
                traverse_javascript_within frames (split newline content))
             (traverse_javascript_within_eq _)
             (fun d => dict_get "language" d = Some (PStr "javascript")
                       /\ (exists fs, dict_get "functions" d = Some (PList fs))
                       /\ (exists es, dict_get "errors" d = Some (PList es)))
             (fun _ => True))
      in E; auto.
    - intros f n s s' _ Hs Hv.
      apply visit_javascript_within_step in Hv as (key & info & -> & Hkey & _).
      apply append_if_shape; auto; intros ->; discriminate Hkey.
    - simpl. eauto. }
  destruct H as (Hl & (fs0 & Hf) & (es & He)).
  split; [|exact Hl]. exists d, "javascript", fs0, es. auto.
Qed.

(** ** The records of a walk that returns *)

Lemma extract_python_function_unnamed n lines :
  has_identifier n = false -> _extract_python_function n lines = PNone.
Proof.
  unfold has_identifier, _extract_python_function, extract_python_function_body.
  destruct (first_child "identifier" (children n)); [discriminate|reflexivity].
Qed.

Lemma extract_python_class_unnamed n lines :
  has_identifier n = false -> _extract_python_class n lines = PNone.
Proof.
  unfold has_identifier, _extract_python_class, extract_python_class_body.
  destruct (first_child "identifier" (children n)); [discriminate|reflexivity].
Qed.

Lemma has_identifier_child n :
  has_identifier n = true ->
  exists c, first_child "identifier" (children n) = Some c.
Proof.
  unfold has_identifier.
  destruct (first_child "identifier" (children n)); [eauto | discriminate].
Qed.

Lemma preorder_sub tree :
  forall n m, In n (preorder tree) -> In m (preorder n) -> In m (preorder tree).
Proof.
  induction tree as [ty sp ep ch IH] using Node_rose_ind.
  intros n m Hn Hm. rewrite preorder_eq in Hn. simpl in Hn.
  destruct Hn as [<-|Hn]; [exact Hm|].
  rewrite preorder_eq. simpl. right.
  apply in_flat_map in Hn as (c & Hc & Hn). apply in_flat_map.
  exists c. split; [exact Hc|].
  rewrite Forall_forall in IH. apply (IH c) with (n := n); auto.
  now apply list_elem_of_In.
Qed.

Lemma get_list_dict key d :
  get_list key (PDict d)
  = match dict_get key d with Some (PList l) => l | _ => [] end.
Proof. reflexivity. Qed.

(** Whatever the stack, the function records of a result of the Python
    walker are records of function definitions of the tree, and the methods
    of its class records are records of function definitions among the
    children of the body of the class. *)
Lemma parse_python_within_records frames tree content py :
  _parse_python_within frames tree content = Ok py ->
  (forall r, In r (get_list "functions" py) ->
     exists n,
       In n (preorder tree) /\ type n = "function_definition"
       /\ r = _extract_python_function n (split newline content)
       /\ truthy r = true)
  /\ (forall r, In r (get_list "classes" py) ->
        exists n name methods,
          In n (preorder tree) /\ type n = "class_definition"
          /\ r = PDict [("name", PStr name);
                        ("start_line", line_no (fst (start_point n)));
                        ("end_line", line_no (fst (end_point n)));
                        ("methods", PList methods);
                        ("attributes", PList [])]
          /\ forall m, In m methods ->
               exists body child,
                 first_child "block" (children n) = Some body
                 /\ In child (children body)
                 /\ type child = "function_definition"
                 /\ m = _extract_python_function child (split newline content)
                 /\ truthy m = true).
Proof.
  unfold _parse_python_within. set (lines := split newline content).
  destruct (traverse_python_within _ _ _ _) as [d|e] eqn:E; [|discriminate].
  intros [= <-]. rewrite !get_list_dict.
  set (Gf := fun r : pyval =>
               exists n,
                 In n (preorder tree) /\ type n = "function_definition"
                 /\ r = _extract_python_function n lines /\ truthy r = true).
  set (Gc := fun r : pyval =>
               exists n name methods,
                 In n (preorder tree) /\ type n = "class_definition"
                 /\ r = PDict [("name", PStr name);
                               ("start_line", line_no (fst (start_point n)));
                               ("end_line", line_no (fst (end_point n)));
                               ("methods", PList methods);
                               ("attributes", PList [])]
                 /\ forall m, In m methods ->
                      exists body child,
                        first_child "block" (children n) = Some body
                        /\ In child (children body)
                        /\ type child = "function_definition"
                        /\ m = _extract_python_function child lines
                        /\ truthy m = true).
  apply (walk_within_invariant
           (fun frames => visit_python_within frames lines)
           (fun frames => traverse_python_within frames lines)
           (traverse_python_within_eq _)
           (fun d =>
              (forall l x, dict_get "functions" d = Some (PList l) ->
                           In x l -> Gf x)
              /\ (forall l x, dict_get "classes" d = Some (PList l) ->
                              In x l -> Gc x))
           (fun n => In n (preorder tree))) in E.
  - destruct E as [Hf Hc]. split; intros r Hr.
    + destruct (dict_get "functions" d) as [[| | |l|]|]; try destruct Hr.
      now apply (Hf l).
    + destruct (dict_get "classes" d) as [[| | |l|]|]; try destruct Hr.
      now apply (Hc l).
  - intros f n s s' Hn [Hf Hc] Hv.
    apply visit_python_within_step in Hv
      as (key & info & -> & _ & Hfun & Hcls).
    split; apply append_if_records; auto.
    + intros -> T. destruct (Hfun eq_refl) as [Hty Hinfo].
      apply extract_python_function_within_value in Hinfo as [->| ->];
        [discriminate T|].
      exists n. auto.
    + intros -> T. destruct (Hcls eq_refl) as [Hty Hinfo].
      apply extract_python_class_within_value in Hinfo
        as [->|(name & methods & -> & Hm)]; [discriminate T|].
      exists n, name, methods. auto.
  - intros n c Hn Hc. now apply (preorder_child tree n).
  - apply preorder_self.
  - split; intros l x [= <-] [].
Qed.

(** The same for the JavaScript walker, whose rules call nothing. *)
Lemma parse_javascript_within_records frames tree content js :
  _parse_javascript_within frames tree content = Ok js ->
  (forall r, In r (get_list "functions" js) ->
     exists n,
       In n (preorder tree) /\ is_js_function n = true
       /\ r = _extract_js_function n (split newline content)
       /\ truthy r = true)
  /\ (forall r, In r (get_list "classes" js) ->
        exists n,
          In n (preorder tree) /\ type n = "class_declaration"
          /\ r = _extract_js_class n (split newline content)
          /\ truthy r = true).
Proof.
  unfold _parse_javascript_within. set (lines := split newline content).
  destruct (traverse_javascript_within _ _ _ _) as [d|e] eqn:E;
    [|discriminate].
  intros [= <-]. rewrite !get_list_dict.
  set (Gf := fun r : pyval =>
               exists n,
                 In n (preorder tree) /\ is_js_function n = true
                 /\ r = _extract_js_function n lines /\ truthy r = true).
  set (Gc := fun r : pyval =>
               exists n,
                 In n (preorder tree) /\ type n = "class_declaration"
                 /\ r = _extract_js_class n lines /\ truthy r = true).
  apply (walk_within_invariant
           (fun frames => visit_javascript_within frames lines)
           (fun frames => traverse_javascript_within frames lines)
           (traverse_javascript_within_eq _)
           (fun d =>
              (forall l x, dict_get "functions" d = Some (PList l) ->
                           In x l -> Gf x)
              /\ (forall l x, dict_get "classes" d = Some (PList l) ->
                              In x l -> Gc x))
           (fun n => In n (preorder tree))) in E.
  - destruct E as [Hf Hc]. split; intros r Hr.
    + destruct (dict_get "functions" d) as [[| | |l|]|]; try destruct Hr.
      now apply (Hf l).
    + destruct (dict_get "classes" d) as [[| | |l|]|]; try destruct Hr.
      now apply (Hc l).
  - intros f n s s' Hn [Hf Hc] Hv.
    apply visit_javascript_within_step in Hv
      as (key & info & -> & _ & Hfun & Hcls).
    split; apply append_if_records; auto.
    + intros -> T. destruct (Hfun eq_refl) as [Hty ->]. exists n. auto.
    + intros -> T. destruct (Hcls eq_refl) as [Hty ->]. exists n. auto.
  - intros n c Hn Hc. now apply (preorder_child tree n).
  - apply preorder_self.
  - split; intros l x [= <-] [].
Qed.

(** ** Lines and complexity of the records *)

Lemma record_spans_intro n d :
  dict_get "start_line" d = Some (line_no (fst (start_point n))) ->
  dict_get "end_line" d = Some (line_no (fst (end_point n))) ->
  record_spans n (PDict d).
Proof.
  intros Hs He. unfold record_spans, get_int, get. rewrite Hs, He.
  do 2 eexists. split; [reflexivity|]. split; [reflexivity|].
  split; [reflexivity|]. split; [reflexivity|].
  unfold span_ok. split; [lia|]. split; lia.
Qed.

Lemma python_function_record_ok n lines :
  truthy (_extract_python_function n lines) = true ->
  record_spans n (_extract_python_function n lines)
  /\ complexity_of n (_extract_python_function n lines).
Proof.
  intros T.
  destruct (extract_python_function_record _ _ T) as (name & params & doc & E).
  rewrite E. split; [apply record_spans_intro; reflexivity|].
  split; [reflexivity|].
  exists (Z.of_nat (_calculate_complexity n)). split; [reflexivity|].
  rewrite calculate_complexity_count. lia.
Qed.

(** C6, as the code has it. Whatever the stack of the interpreter, in a
    result of the Python walker every function record is the record of a
    function definition of the tree and every class record that of a class
    definition; in a result of the JavaScript walker every function record is
    the record of a function node and every class record that of a class
    declaration.  The start and end line of a record are the rows on which
    its node starts and ends, plus one: the start line is at least 1, and it
    is at most the end line exactly when the node does not end on an earlier
    row than it starts.  Every Python function record, top-level or method
    of a class record, has the complexity counted for its node, which is at
    least 1; the JavaScript function records have no complexity entry. *)
Theorem C6_record_lines_and_complexity
  (frames : nat) (tree : Node) (content : string) :
  let lines := split newline content in
  (forall py,
     _parse_python_within frames tree content = Ok py ->
     (forall r, In r (get_list "functions" py) ->
        exists n,
          In n (preorder tree) /\ type n = "function_definition"
          /\ r = _extract_python_function n lines
          /\ record_spans n r /\ complexity_of n r)
     /\ (forall r, In r (get_list "classes" py) ->
           exists n,
             In n (preorder tree) /\ type n = "class_definition"
             /\ record_spans n r
             /\ forall m, In m (get_list "methods" r) ->
                  exists body child,
                    first_child "block" (children n) = Some body
                    /\ In child (children body)
                    /\ type child = "function_definition"
                    /\ m = _extract_python_function child lines
                    /\ record_spans child m /\ complexity_of child m))
  /\ (forall js,
        _parse_javascript_within frames tree content = Ok js ->
        (forall r, In r (get_list "functions" js) ->
           exists n,
             In n (preorder tree) /\ is_js_function n = true
             /\ r = _extract_js_function n lines
             /\ record_spans n r /\ get "complexity" r = None)
        /\ (forall r, In r (get_list "classes" js) ->
              exists n,
                In n (preorder tree) /\ type n = "class_declaration"
                /\ r = _extract_js_class n lines
                /\ record_spans n r)).
Proof.
  intros lines. split.
  - intros py E.
    destruct (parse_python_within_records _ _ _ _ E) as [Hf Hc].
    split.
    + intros r Hr. destruct (Hf r Hr) as (n & Hn & Hty & -> & T).
      exists n. split; [exact Hn|]. split; [exact Hty|].
      split; [reflexivity|]. now apply python_function_record_ok.
    + intros r Hr.
      destruct (Hc r Hr) as (n & name & methods & Hn & Hty & -> & Hm).
      exists n. split; [exact Hn|]. split; [exact Hty|].
      split; [apply record_spans_intro; reflexivity|].
      intros m Hin.
      destruct (Hm m Hin) as (body & child & Hb & Hch & Hcty & -> & T).
      exists body, child. repeat (split; [assumption || reflexivity|]).
      now apply python_function_record_ok.
  - intros js E.
    destruct (parse_javascript_within_records _ _ _ _ E) as [Hf Hc].
    split.
    + intros r Hr. destruct (Hf r Hr) as (n & Hn & Hty & -> & T).
      exists n. split; [exact Hn|]. split; [exact Hty|].
      split; [reflexivity|].
      destruct (extract_js_function_record _ _ T) as (name & ->).
      split; [apply record_spans_intro; reflexivity | reflexivity].
    + intros r Hr. destruct (Hc r Hr) as (n & Hn & Hty & -> & T).
      exists n. split; [exact Hn|]. split; [exact Hty|].
      split; [reflexivity|].
      destruct (extract_js_class_record _ _ T) as (name & ->).
      apply record_spans_intro; reflexivity.
Qed.

Lemma C6_witness :
  _parse_python_within 11 tree_class src_class
  = Ok (_parse_python tree_class src_class)
  /\ forall r,
       In r (get_list "functions" (_parse_python tree_class src_class)) ->
       exists n,
         In n (preorder tree_class) /\ type n = "function_definition"
         /\ r = _extract_python_function n (split newline src_class)
         /\ record_spans n r /\ complexity_of n r.
Proof.
  assert (E : _parse_python_within 11 tree_class src_class
              = Ok (_parse_python tree_class src_class)) by reflexivity.
  split; [exact E|].
  destruct (C6_record_lines_and_complexity 11 tree_class src_class) as [H _].
  destruct (H _ E) as [Hf _]. exact Hf.
Defined.

(** C6, as the specification states it, fails on the JavaScript rules: the
    record of [function k() {}] is a function record of the result for a
    JavaScript file, with lines 1 to 1, and it has no complexity. *)
Lemma C6_counterexample :
  _detect_language "/r/app.js" = Some "javascript"
  /\ exists res r,
       parse_file sample_world "/r/app.js" None 0 = (Ok res, 1)
       /\ In r (get_list "functions" res)
       /\ get_int "start_line" r = Some 1%Z
       /\ get_int "end_line" r = Some 1%Z
       /\ get "complexity" r = None
       /\ ~ has_complexity r.
Proof.
  split; [reflexivity|].
  eexists. eexists. split; [vm_compute; reflexivity|].
  split; [left; reflexivity|]. repeat (split; [reflexivity|]).
  intros (c & H & _). discriminate H.
Qed.

(** ** Methods are reported twice, decorated methods once *)

Lemma filter_truthy_map {A} (f : A -> pyval) (sel named : A -> bool) l :
  (forall a, In a l -> sel a = true -> truthy (f a) = named a) ->
  List.filter truthy (map f (List.filter sel l))
  = map f (List.filter (fun a => sel a && named a) l).
Proof.
  induction l as [|a l IH]; intros H; simpl; [reflexivity|].
  assert (IH' := IH (fun b Hb => H b (or_intror Hb))).
  destruct (sel a) eqn:E; simpl; [|exact IH'].
  rewrite (H a (or_introl eq_refl) E).
  destruct (named a); simpl; now rewrite IH'.
Qed.

(** C10, as the code has it. In a Python file whose tree finds room on the
    stack, the methods of the record of a class are the records of the
    function definitions with a name that are children of the body of the
    class, and every function definition with a name inside the class, at
    any depth, has its record among the functions of the result.  So a
    function definition that is a child of the body is reported twice, in
    the methods of the class and in the functions of the file; a method
    whose definition is wrapped in another node, as a decorated method is,
    is reported in the functions only.  (The rows of the tree are lines of
    the content, as they are when the tree was parsed from it.) *)
Theorem C10_method_reported_twice
  (frames : nat) (tree : Node) (content : string) (cls cls_name body : Node) :
  rows_in_range tree (split newline content) ->
  fits frames tree ->
  In cls (preorder tree) ->
  type cls = "class_definition" ->
  first_child "identifier" (children cls) = Some cls_name ->
  first_child "block" (children cls) = Some body ->
  let lines := split newline content in
  let class_record := _extract_python_class cls lines in
  let record := fun fn => _extract_python_function fn lines in
  let named_function := fun n => is_python_function n && has_identifier n in
  exists result,
    _parse_python_within frames tree content = Ok result
    /\ In class_record (get_list "classes" result)
    /\ get_list "methods" class_record
       = map record (List.filter named_function (children body))
    /\ (forall fn, In fn (preorder cls) -> named_function fn = true ->
          In (record fn) (get_list "functions" result))
    /\ (forall fn, In fn (children body) -> named_function fn = true ->
          In (record fn) (get_list "methods" class_record)
          /\ In (record fn) (get_list "functions" result)).
Proof.
  intros Hrows Hfits Hcls Tcls Ncls Hbody lines class_record record
    named_function.
  exists (_parse_python tree content).
  split; [now apply parse_python_within_fits|].
  pose proof (extract_python_class_succeeds _ _ _ _ Hrows Hcls Ncls) as Ccls.
  pose proof (first_child_in _ _ _ Hbody) as [Hb _].
  assert (Hbt : In body (preorder tree)) by now apply (preorder_child tree cls).
  assert (Hfun : forall fn, In fn (preorder tree) ->
                   named_function fn = true ->
                   In (record fn)
                     (get_list "functions" (_parse_python tree content))).
  { intros fn Hfn Hsel. apply andb_prop in Hsel as [Hty Hid].
    apply String.eqb_eq in Hty. apply has_identifier_child in Hid as [c Hc].
    rewrite parse_python_collected by reflexivity.
    apply in_collected. exists fn. split; [exact Hfn|].
    split; [now apply rule_python_functions|].
    now apply (extract_python_function_succeeds tree _ fn c). }
  assert (Hmethods : get_list "methods" class_record
                     = map record
                         (List.filter named_function (children body))).
  { subst class_record record lines.
    destruct (extract_python_class_record _ _ Ccls) as (name & ->).
    unfold get_list. simpl. rewrite Hbody.
    apply filter_truthy_map. intros c Hc _.
    destruct (has_identifier c) eqn:Hid.
    - apply has_identifier_child in Hid as [k Hk].
      apply (extract_python_function_succeeds tree _ c k); auto.
      now apply (preorder_child tree body).
    - now rewrite extract_python_function_unnamed. }
  split; [|split; [exact Hmethods|split]].
  - rewrite parse_python_collected by reflexivity.
    apply in_collected. exists cls. split; [exact Hcls|].
    split; [now apply rule_python_classes | exact Ccls].
  - intros fn Hfn Hsel. apply Hfun; [|exact Hsel].
    now apply (preorder_sub tree cls).
  - intros fn Hfn Hsel. split.
    + rewrite Hmethods. apply in_map. apply filter_In. now split.
    + apply Hfun; [|exact Hsel]. now apply (preorder_child tree body).
Qed.

Lemma C10_witness :
  let lines := split newline src_class in
  exists result,
    _parse_python_within 11 tree_class src_class = Ok result
    /\ In (_extract_python_class cls_a lines) (get_list "classes" result)
    /\ In (_extract_python_function fn_method lines)
         (get_list "methods" (_extract_python_class cls_a lines))
    /\ In (_extract_python_function fn_method lines)
         (get_list "functions" result).
Proof.
  destruct (C10_method_reported_twice 11 tree_class src_class cls_a
              (leaf "identifier" 0 6 7) class_body)
    as (result & E & Hc & _ & _ & Htwice).
  - exact rows_in_range_class.
  - unfold fits. vm_compute. lia.
  - right. left. reflexivity.
  - reflexivity.
  - reflexivity.
  - reflexivity.
  - exists result. split; [exact E|]. split; [exact Hc|].
    apply (Htwice fn_method); [left|]; reflexivity.
Defined.

(** C10, as the specification states it, fails for a decorated method: in
    [class A: @staticmethod def m(): pass] the function [m] is defined
    directly in the body of the class, yet the record of the class has no
    method, and [m] is reported once, among the functions of the file. *)
Lemma C10_counterexample :
  exists result class_record function_record,
    parse_file sample_world "/r/deco.py" None 0 = (Ok result, 1)
    /\ get_list "classes" result = [class_record]
    /\ get "name" class_record = Some (PStr "A")
    /\ get_list "methods" class_record = []
    /\ get_list "functions" result = [function_record]
    /\ get "name" function_record = Some (PStr "m")
    /\ function_record
       = _extract_python_function fn_decorated (split newline src_decorated).
Proof.
  do 3 eexists. split; [vm_compute; reflexivity|].
  repeat split; reflexivity.
Qed.

(** ** Single files *)

Lemma parse_resolved_registered w file_path l t content tree :
  member l (parsers w) = true ->
  fs w t file_path = Ok content ->
  ts_parse w l content = Ok tree ->
  room_for w l tree ->
  parse_resolved w file_path (Some l) t
  = (Ok (rule_set_result l tree content), S t).
Proof.
  intros Hmem Hread Hparse Hroom.
  pose proof (known_language w l Hmem) as Hl.
  simpl in Hl.
  assert (Hne : String.eqb l EmptyString = false).
  { each_member Hl; reflexivity. }
  unfold parse_resolved, bindIO, open_read, liftE, ret.
  rewrite Hmem, Hne. cbn [orb negb]. cbv beta. rewrite Hread, Hparse.
  unfold room_for, walked_languages in Hroom.
  each_member Hl; try reflexivity;
    rewrite ?parse_python_within_fits, ?parse_javascript_within_fits
      by (apply Hroom; simpl; tauto);
    reflexivity.
Qed.

(** A tree too high for the stack makes the rule set of a walked language
    raise, after the file was read. *)
Lemma parse_resolved_too_deep w file_path l t content tree :
  member l (parsers w) = true ->
  In l walked_languages ->
  fs w t file_path = Ok content ->
  ts_parse w l content = Ok tree ->
  stack w < height tree ->
  parse_resolved w file_path (Some l) t = (Raise RecursionError, S t).
Proof.
  intros Hmem Hl Hread Hparse Hdeep.
  assert (Hne : String.eqb l EmptyString = false).
  { unfold walked_languages in Hl. each_member Hl; reflexivity. }
  unfold parse_resolved, bindIO, open_read, liftE, ret.
  rewrite Hmem, Hne. cbn [orb negb]. cbv beta. rewrite Hread, Hparse.
  unfold walked_languages in Hl.
  each_member Hl;
    rewrite ?parse_python_within_too_deep, ?parse_javascript_within_too_deep
      by assumption;
    reflexivity.
Qed.

Lemma parse_resolved_result w file_path language t r t' :
  parse_resolved w file_path language t = (Ok r, t') -> is_parse_result r.
Proof.
  assert (Hfb : forall t0,
             _fallback_parse w file_path t0 = (Ok r, t') -> is_parse_result r).
  { intros t0 E.
    destruct (fallback_parse_result w file_path t0) as (r0 & E0 & H).
    rewrite E0 in E. now injection E as <- _. }
  unfold parse_resolved. destruct language as [l|]; [|apply Hfb].
  destruct (String.eqb l EmptyString || negb (member l (parsers w)));
    [apply Hfb|].
  unfold bindIO, open_read, liftE, ret.
  destruct (fs w t file_path) as [content|e]; [|discriminate].
  destruct (ts_parse w l content) as [tree|e]; [|discriminate].
  destruct (String.eqb l "python").
  { intros [= E _]. now apply parse_python_within_is_result in E. }
  destruct (member l ["javascript"; "typescript"]).
  { intros [= E _]. now apply parse_javascript_within_is_result in E. }
  case_ifs; try apply Hfb; intros [= <- _];
    unfold is_parse_result; do 4 eexists; repeat split; reflexivity.
Qed.

Lemma parse_file_result w file_path language t :
  exists r t', parse_file w file_path language t = (Ok r, t')
               /\ is_parse_result r.
Proof.
  unfold parse_file, try_except.
  destruct (parse_resolved w file_path (resolve_language file_path language) t)
    as [[r|e] t'] eqn:E.
  - exists r, t'. split; [reflexivity|]. eapply parse_resolved_result; eauto.
  - destruct (fallback_parse_result w file_path t') as (r & E' & H).
    exists r, (S t'). now split.
Qed.

(** C1. Whatever the grammars that loaded, whatever the parser and the file
    system do, and for every path and declared language, [parse_file] does
    not raise: it returns a dictionary with a language, a list of functions
    and a list of errors. *)
Theorem C1_parse_file_never_raises
  (w : World) (file_path : string) (language : option string) (t : nat) :
  exists r t',
    parse_file w file_path language t = (Ok r, t')
    /\ is_parse_result r.
Proof. apply parse_file_result. Qed.

Lemma parse_file_registered w file_path language t l content tree :
  resolve_language file_path language = Some l ->
  member l (parsers w) = true ->
  fs w t file_path = Ok content ->
  ts_parse w l content = Ok tree ->
  room_for w l tree ->
  parse_file w file_path language t
  = (Ok (rule_set_result l tree content), S t).
Proof.
  intros Hres Hmem Hread Hparse Hroom. unfold parse_file, try_except.
  rewrite Hres,
    (parse_resolved_registered _ _ _ _ _ _ Hmem Hread Hparse Hroom).
  reflexivity.
Qed.

(** When the walker runs out of stack, [parse_file] catches the error and
    returns what the fallback makes of a second read of the file. *)
Lemma parse_file_too_deep w file_path language t l content tree :
  resolve_language file_path language = Some l ->
  member l (parsers w) = true ->
  In l walked_languages ->
  fs w t file_path = Ok content ->
  ts_parse w l content = Ok tree ->
  stack w < height tree ->
  parse_file w file_path language t = _fallback_parse w file_path (S t).
Proof.
  intros Hres Hmem Hl Hread Hparse Hdeep. unfold parse_file, try_except.
  rewrite Hres,
    (parse_resolved_too_deep _ _ _ _ _ _ Hmem Hl Hread Hparse Hdeep).
  reflexivity.
Qed.


(** ** The language field *)

(** For a registered language, the language field is that of the rule set:
    the resolved language itself, except for typescript and c. *)
Lemma parse_file_language_field w file_path language t l content tree :
  resolve_language file_path language = Some l ->
  member l (parsers w) = true ->
  fs w t file_path = Ok content ->
  ts_parse w l content = Ok tree ->
  room_for w l tree ->
  exists r,
    parse_file w file_path language t = (Ok r, S t)
    /\ get "language" r = Some (PStr (rule_language l))
    /\ (rule_language l = l <-> l <> "typescript" /\ l <> "c").
Proof.
  intros Hres Hmem Hread Hparse Hroom.
  pose proof (known_language w l Hmem) as Hl.
  exists (rule_set_result l tree content).
  split; [now apply parse_file_registered|].
  split; [now apply rule_set_language|].
  clear -Hl. each_member Hl; unfold rule_language; simpl;
    (split; [intros H; try discriminate H; split; discriminate
            | intros [H1 H2]; try reflexivity; congruence]).
Qed.

(** C3. The language written into the result is a constant of the rule set,
    not the resolved language.  A TypeScript file whose grammar is loaded is
    reported as javascript, and a C file as cpp, although the detector says
    typescript and c, and the fallback reports these files under the
    detector's name when the grammar is missing. *)
Theorem C3_typescript_and_c_reported_under_another_language :
  (_detect_language "/r/app.ts" = Some "typescript"
   /\ member "typescript" (parsers sample_world) = true
   /\ exists r,
        parse_file sample_world "/r/app.ts" None 0 = (Ok r, 1)
        /\ get "language" r = Some (PStr "javascript"))
  /\ (_detect_language "/r/main.c" = Some "c"
      /\ member "c" (parsers sample_world) = true
      /\ exists r,
           parse_file sample_world "/r/main.c" (Some "c") 0 = (Ok r, 1)
           /\ get "language" r = Some (PStr "cpp"))
  /\ (exists r,
        parse_file (mkWorld (fun _ => false) sample_parse sample_fs)
          "/r/app.ts" None 0 = (Ok r, 1)
        /\ get "language" r = Some (PStr "typescript")).
Proof.
  repeat split; try reflexivity;
    eexists; (split; [vm_compute; reflexivity | reflexivity]).
Qed.

(** ** The components of a result *)

Lemma dict_get_member k d :
  match dict_get k d with Some _ => true | None => false end
  = member k (dict_keys d).
Proof.
  unfold member, dict_keys.
  induction d as [|[k' v] d IH]; simpl; [reflexivity|].
  destruct (String.eqb k k'); simpl; [reflexivity | exact IH].
Qed.

Lemma has_all_components_keys d :
  has_all_components (PDict d)
  = forallb (fun k => member k (dict_keys d)) declared_components.
Proof.
  unfold has_all_components, get.
  induction declared_components as [|k ks IH]; simpl; [reflexivity|].
  now rewrite dict_get_member, IH.
Qed.

Lemma fallback_parse_no_variables w file_path t :
  exists d,
    _fallback_parse w file_path t = (Ok (PDict d), S t)
    /\ dict_get "variables" d = None
    /\ has_all_components (PDict d) = false.
Proof.
  destruct (fs w t file_path) as [content|e] eqn:Hread.
  - rewrite (fallback_parse_read _ _ _ _ Hread). eexists.
    split; [reflexivity|]. split; reflexivity.
  - rewrite (fallback_parse_unreadable _ _ _ _ Hread). eexists.
    split; [reflexivity|]. split; reflexivity.
Qed.

(** C9, as the code has it. For a registered language whose file is read
    and parsed, the keys of the result depend on the language: python has
    language, functions, classes, imports, variables, errors;
    javascript/typescript have these and exports; java has no variables;
    cpp/c have includes for imports and no variables; go/rust have structs
    for classes and no variables.  So the result holds all of functions,
    classes, imports, variables and errors exactly for python, javascript and
    typescript, the languages whose rule set walks the tree, and for these
    only when the walk finds room on the stack: when the tree is higher than
    the stack allows, the result is that of the fallback on a second read of
    the file, which has no variables either. *)
Theorem C9_result_keys_by_language
  (w : World) (file_path : string) (language : option string) (t : nat)
  (l content : string) (tree : Node) :
  resolve_language file_path language = Some l ->
  member l (parsers w) = true ->
  fs w t file_path = Ok content ->
  ts_parse w l content = Ok tree ->
  (room_for w l tree ->
   exists d,
     parse_file w file_path language t = (Ok (PDict d), S t)
     /\ dict_keys d = result_keys l
     /\ (has_all_components (PDict d) = true <-> In l walked_languages))
  /\ (In l walked_languages -> stack w < height tree ->
      exists d,
        parse_file w file_path language t = (Ok (PDict d), S (S t))
        /\ _fallback_parse w file_path (S t) = (Ok (PDict d), S (S t))
        /\ dict_get "variables" d = None
        /\ has_all_components (PDict d) = false).
Proof.
  intros Hres Hmem Hread Hparse. split.
  - intros Hroom.
    rewrite (parse_file_registered _ _ _ _ _ _ _ Hres Hmem Hread Hparse Hroom).
    pose proof (known_language w l Hmem) as Hl.
    destruct (rule_set_keys l tree content Hl) as (d & -> & Hkeys).
    exists d. split; [reflexivity|]. split; [exact Hkeys|].
    rewrite has_all_components_keys, Hkeys. clear -Hl.
    unfold walked_languages.
    each_member Hl;
      (split; [intros H; try discriminate H; simpl; tauto
              | intros H; try reflexivity;
                simpl in H; repeat (destruct H as [H|H]; try discriminate H);
                destruct H]).
  - intros Hl Hdeep.
    rewrite (parse_file_too_deep _ _ _ _ _ _ _ Hres Hmem Hl Hread Hparse
               Hdeep).
    destruct (fallback_parse_no_variables w file_path (S t))
      as (d & E & Hv & Hc).
    exists d. auto.
Qed.

Lemma C9_witness :
  (exists d,
     parse_file sample_world "/r/a.py" None 0 = (Ok (PDict d), 1)
     /\ dict_keys d = result_keys "python"
     /\ (has_all_components (PDict d) = true
         <-> In "python" walked_languages))
  /\ (exists d,
        parse_file shallow_world "/r/a.py" None 0 = (Ok (PDict d), 2)
        /\ dict_get "variables" d = None).
Proof.
  split.
  - destruct (C9_result_keys_by_language sample_world "/r/a.py" None 0
                "python" src_doc tree_doc eq_refl eq_refl eq_refl eq_refl)
      as [H _].
    apply H. room.
  - destruct (C9_result_keys_by_language shallow_world "/r/a.py" None 0
                "python" src_doc tree_doc eq_refl eq_refl eq_refl eq_refl)
      as [_ H].
    destruct H as (d & E & _ & Hv & _).
    + left. reflexivity.
    + vm_compute. lia.
    + exists d. split; [exact E | exact Hv].
Defined.

(** C9, as the specification states it, fails for java: the grammar is
    loaded, the file is read and parsed, and the result has no variables. *)
Lemma C9_counterexample :
  member "java" (parsers sample_world) = true
  /\ exists r,
       parse_file sample_world "/r/Main.java" None 0 = (Ok r, 1)
       /\ get "variables" r = None
       /\ has_all_components r = false.
Proof.
  split; [reflexivity|]. eexists.
  split; [vm_compute; reflexivity|]. split; reflexivity.
Qed.

(** ** The batch *)

Lemma batch_step_entry w results d t :
  batch_step w results d t
  = (Ok (<[fd_path d := entry_at w d t]> results),
     snd (parse_file w (fd_full_path d) (fd_language d) t)).
Proof.
  destruct (parse_file_result w (fd_full_path d) (fd_language d) t)
    as (r & t' & E & (dd & lang & fs0 & es & -> & _)).
  unfold batch_step, entry_at, try_except, bindIO, liftE, ret.
  rewrite E. reflexivity.
Qed.

Lemma entry_at_result w d t :
  is_parse_result (entry_at w d t)
  /\ get "file_info" (entry_at w d t) = Some (file_info_val d)
  /\ exists r t',
       parse_file w (fd_full_path d) (fd_language d) t = (Ok (PDict r), t')
       /\ entry_at w d t = PDict (dict_set "file_info" (file_info_val d) r).
Proof.
  destruct (parse_file_result w (fd_full_path d) (fd_language d) t)
    as (r & t' & E & (dd & lang & fs0 & es & -> & Hl & Hf & He)).
  unfold entry_at. rewrite E. split; [|split].
  - exists (dict_set "file_info" (file_info_val d) dd), lang, fs0, es.
    split; [reflexivity|].
    rewrite !dict_get_set_other by discriminate. auto.
  - apply dict_get_set_same.
  - eauto.
Qed.

Lemma batch_fold_cons w d fl acc t :
  foldIO (batch_step w) (d :: fl) acc t
  = foldIO (batch_step w) fl (<[fd_path d := entry_at w d t]> acc)
      (snd (parse_file w (fd_full_path d) (fd_language d) t)).
Proof. simpl. unfold bindIO. now rewrite batch_step_entry. Qed.

Lemma batch_fold_total w fl :
  forall acc t, exists m t', foldIO (batch_step w) fl acc t = (Ok m, t').
Proof.
  induction fl as [|d fl IH]; intros acc t.
  - exists acc, t. reflexivity.
  - rewrite batch_fold_cons. apply IH.
Qed.

Lemma batch_fold_untouched w fl :
  forall acc t m t',
    foldIO (batch_step w) fl acc t = (Ok m, t') ->
    forall p, ~ In p (map fd_path fl) -> m !! p = acc !! p.
Proof.
  induction fl as [|d fl IH]; intros acc t m t' E p Hp.
  - now injection E as <- _.
  - rewrite batch_fold_cons in E. simpl in Hp.
    rewrite (IH _ _ _ _ E p) by tauto.
    apply lookup_insert_ne. tauto.
Qed.

Lemma batch_fold_dom w fl :
  forall acc t m t',
    foldIO (batch_step w) fl acc t = (Ok m, t') ->
    dom m = dom acc ∪ list_to_set (map fd_path fl).
Proof.
  induction fl as [|d fl IH]; intros acc t m t' E.
  - injection E as <- _. simpl. now rewrite union_empty_r_L.
  - rewrite batch_fold_cons in E. rewrite (IH _ _ _ _ E), dom_insert_L.
    simpl. apply set_eq. intros p.
    rewrite !elem_of_union, elem_of_singleton. tauto.
Qed.

Lemma batch_fold_lookup w fl :
  NoDup (map fd_path fl) ->
  forall acc t m t',
    foldIO (batch_step w) fl acc t = (Ok m, t') ->
    forall i d,
      fl !! i = Some d ->
      m !! fd_path d
      = Some (entry_at w d (snd (foldIO (batch_step w) (take i fl) acc t))).
Proof.
  induction fl as [|d0 fl IH]; intros Hnd acc t m t' E i d Hi.
  - discriminate Hi.
  - simpl in Hnd. apply NoDup_cons in Hnd as [Hfresh Hnd].
    rewrite batch_fold_cons in E. destruct i as [|i].
    + injection Hi as <-. simpl.
      rewrite (batch_fold_untouched _ _ _ _ _ _ E).
      * apply lookup_insert_eq.
      * intros Hin. apply Hfresh. now apply list_elem_of_In.
    + simpl in Hi. rewrite (IH Hnd _ _ _ _ E i d Hi).
      change (take (S i) (d0 :: fl)) with (d0 :: take i fl).
      now rewrite batch_fold_cons.
Qed.

(** In a directory that does not change, what is stored for a descriptor
    does not depend on the moment it is processed. *)
Lemma fallback_parse_static w file_path :
  (forall t1 t2 p, fs w t1 p = fs w t2 p) ->
  forall t, fst (_fallback_parse w file_path t)
            = fst (_fallback_parse w file_path 0).
Proof.
  intros Hs t.
  unfold _fallback_parse, try_except, bindIO, open_read, ret.
  rewrite (Hs t 0 file_path).
  destruct (fs w 0 file_path); reflexivity.
Qed.

Lemma parse_resolved_static w file_path language :
  (forall t1 t2 p, fs w t1 p = fs w t2 p) ->
  forall t, fst (parse_resolved w file_path language t)
            = fst (parse_resolved w file_path language 0).
Proof.
  intros Hs t.
  pose proof (fallback_parse_static w file_path Hs) as Hfb.
  unfold parse_resolved. destruct language as [l|]; [|apply Hfb].
  destruct (String.eqb l EmptyString || negb (member l (parsers w)));
    [apply Hfb|].
  unfold bindIO, open_read, liftE, ret.
  rewrite (Hs t 0 file_path).
  destruct (fs w 0 file_path) as [content|e]; [|reflexivity].
  destruct (ts_parse w l content) as [tree|e]; [|reflexivity].
  case_ifs; try reflexivity.
  now rewrite (Hfb (S t)), (Hfb 1).
Qed.

Lemma parse_file_static w file_path language :
  (forall t1 t2 p, fs w t1 p = fs w t2 p) ->
  forall t, fst (parse_file w file_path language t)
            = fst (parse_file w file_path language 0).
Proof.
  intros Hs t.
  pose proof (parse_resolved_static w file_path
                (resolve_language file_path language) Hs t) as H.
  unfold parse_file, try_except.
  destruct (parse_resolved w file_path (resolve_language file_path language) t)
    as [[r|e] t1];
    destruct (parse_resolved w file_path
                (resolve_language file_path language) 0)
      as [[r0|e0] t0]; simpl in H; try discriminate H.
  - exact H.
  - now rewrite (fallback_parse_static w file_path Hs t1),
      (fallback_parse_static w file_path Hs t0).
Qed.

Lemma entry_at_static w d :
  (forall t1 t2 p, fs w t1 p = fs w t2 p) ->
  forall t, entry_at w d t = entry_at w d 0.
Proof.
  intros Hs t.
  pose proof (parse_file_static w (fd_full_path d) (fd_language d) Hs t) as H.
  unfold entry_at.
  destruct (parse_file w (fd_full_path d) (fd_language d) t) as [r t1];
    destruct (parse_file w (fd_full_path d) (fd_language d) 0) as [r0 t0].
  simpl in H. now subst r0.
Qed.

(** C2, as the code has it. The batch returns a map whose keys are exactly
    the relative paths of the descriptors.  When these paths are pairwise
    distinct the map has as many entries as there are descriptors, and the
    entry of each descriptor is the result of [parse_file] for it, at the
    moment the batch reaches it, with the descriptor added: no other
    descriptor, failing or not, removes or changes it.  In a directory that
    does not change during the run, it is the entry the descriptor would get
    in a batch of its own. *)
Theorem C2_one_entry_per_distinct_path
  (w : World) (file_list : list FileDescriptor) (t : nat) :
  exists m t',
    batch_parse_files w file_list t = (Ok m, t')
    /\ dom m = list_to_set (map fd_path file_list)
    /\ (NoDup (map fd_path file_list) ->
        size m = length file_list
        /\ forall i d,
             file_list !! i = Some d ->
             m !! fd_path d = Some (entry_at w d (clock_at w file_list t i))
             /\ is_parse_result (entry_at w d (clock_at w file_list t i))
             /\ ((forall t1 t2 p, fs w t1 p = fs w t2 p) ->
                 m !! fd_path d = Some (entry_at w d 0))).
Proof.
  unfold batch_parse_files, clock_at.
  destruct (batch_fold_total w file_list ∅ t) as (m & t' & E).
  exists m, t'. split; [exact E|].
  pose proof (batch_fold_dom _ _ _ _ _ _ E) as Hdom.
  rewrite dom_empty_L, union_empty_l_L in Hdom.
  split; [exact Hdom|]. intros Hnd. split.
  - rewrite <- size_dom, Hdom, size_list_to_set, length_map; [reflexivity|].
    exact Hnd.
  - intros i d Hi.
    pose proof (batch_fold_lookup w file_list Hnd _ _ _ _ E i d Hi) as Hm.
    split; [exact Hm|]. split; [apply entry_at_result|].
    intros Hs. now rewrite Hm, (entry_at_static w d Hs).
Qed.

Lemma C2_witness :
  NoDup (map fd_path [file_a; file_cls])
  /\ exists m t',
       batch_parse_files vanishing_world [file_a; file_cls] 0 = (Ok m, t')
       /\ size m = 2
       /\ m !! "a.py" = Some (entry_at vanishing_world file_a 0)
       /\ m !! "cls.py" = Some (entry_at vanishing_world file_cls 1).
Proof.
  assert (Hnd : NoDup (map fd_path [file_a; file_cls])).
  { apply NoDup_cons. split; [|apply NoDup_cons; split; [|apply NoDup_nil_2]].
    - intros H. apply list_elem_of_In in H. destruct H as [H|[]].
      discriminate H.
    - intros H. apply list_elem_of_In in H. destruct H. }
  split; [exact Hnd|].
  destruct (C2_one_entry_per_distinct_path vanishing_world [file_a; file_cls] 0)
    as (m & t' & E & _ & H).
  destruct (H Hnd) as [Hsize Hentries].
  exists m, t'. split; [exact E|]. split; [exact Hsize|]. split.
  - destruct (Hentries 0 file_a eq_refl) as [Ha _]. exact Ha.
  - destruct (Hentries 1 file_cls eq_refl) as [Hc _]. exact Hc.
Defined.

(** C2, as the specification states it, fails when two descriptors share a
    relative path: the batch over two descriptors returns a map with one
    entry. *)
Lemma C2_counterexample :
  exists m,
    batch_parse_files sample_world [file_a; file_a_as_java] 0 = (Ok m, 2)
    /\ size m = 1
    /\ size m <> length [file_a; file_a_as_java].
Proof.
  eexists. split; [vm_compute; reflexivity|].
  split; [vm_compute; reflexivity | vm_compute; discriminate].
Qed.

(** ** Which language the batch works with *)

Lemma batch_single w d t :
  batch_parse_files w [d] t
  = (Ok (<[fd_path d := entry_at w d t]> ∅),
     snd (parse_file w (fd_full_path d) (fd_language d) t)).
Proof. unfold batch_parse_files. now rewrite batch_fold_cons. Qed.

(** C4, as the code has it. The language declared in the descriptor comes
    first: when it is present and not empty it decides how the file is
    handled, whatever the detector says of the path.  If it is a registered
    language, the entry of the batch is the result of the rule set of that
    language (the file being read and parsed, and the tree finding room on
    the stack), with the descriptor added.  If it is not a registered
    language, the entry is the fallback result, which no rule set has
    touched and which carries the detector's name for the path as its
    language.  The detector chooses the rule set only when the descriptor
    declares no language: the entry is then the result of [parse_file] for
    the detector's answer, with the descriptor added. *)
Theorem C4_declared_language_first
  (w : World) (d : FileDescriptor) (t : nat) :
  (forall l,
     fd_language d = Some l -> l <> EmptyString ->
     (forall content tree,
        member l (parsers w) = true ->
        fs w t (fd_full_path d) = Ok content ->
        ts_parse w l content = Ok tree ->
        room_for w l tree ->
        exists r,
          rule_set_result l tree content = PDict r
          /\ batch_parse_files w [d] t
             = (Ok (<[fd_path d :=
                        PDict (dict_set "file_info" (file_info_val d) r)]> ∅),
                S t)
          /\ dict_get "language" (dict_set "file_info" (file_info_val d) r)
             = Some (PStr (rule_language l)))
     /\ (member l (parsers w) = false ->
         forall content,
           fs w t (fd_full_path d) = Ok content ->
           exists r,
             _fallback_parse w (fd_full_path d) t = (Ok (PDict r), S t)
             /\ batch_parse_files w [d] t
                = (Ok (<[fd_path d :=
                           PDict (dict_set "file_info" (file_info_val d) r)]>
                         ∅),
                   S t)
             /\ dict_get "language" (dict_set "file_info" (file_info_val d) r)
                = Some (PStr match _detect_language (fd_full_path d) with
                             | Some k => k
                             | None => "unknown"
                             end)
             /\ dict_get "functions" (dict_set "file_info" (file_info_val d) r)
                = Some (PList [])))
  /\ (not_language (fd_language d) = true ->
      exists r t',
        parse_file w (fd_full_path d) (_detect_language (fd_full_path d)) t
        = (Ok (PDict r), t')
        /\ batch_parse_files w [d] t
           = (Ok (<[fd_path d :=
                      PDict (dict_set "file_info" (file_info_val d) r)]> ∅),
              t')).
Proof.
  split.
  - intros l Hl Hne.
    assert (Hres : resolve_language (fd_full_path d) (fd_language d) = Some l).
    { unfold resolve_language. rewrite Hl. simpl.
      apply String.eqb_neq in Hne. now rewrite Hne. }
    split.
    + intros content tree Hmem Hread Hparse Hroom.
      pose proof (parse_file_registered _ _ _ _ _ _ _ Hres Hmem Hread Hparse
                    Hroom) as E.
      pose proof (known_language w l Hmem) as Hk.
      destruct (rule_set_keys l tree content Hk) as (r & Hr & _).
      exists r. split; [exact Hr|].
      rewrite batch_single. unfold entry_at. rewrite E, Hr. simpl snd.
      split; [reflexivity|].
      rewrite dict_get_set_other by discriminate.
      pose proof (rule_set_language l tree content Hk) as H.
      now rewrite Hr in H.
    + intros Hmem content Hread.
      assert (E : parse_file w (fd_full_path d) (fd_language d) t
                  = _fallback_parse w (fd_full_path d) t).
      { apply parse_file_unregistered. intros l' Hl'.
        rewrite Hres in Hl'. now injection Hl' as <-. }
      pose proof (fallback_parse_read _ _ _ _ Hread) as Hfb.
      eexists. split; [exact Hfb|].
      rewrite batch_single. unfold entry_at. rewrite E, Hfb. simpl snd.
      split; [reflexivity|]. split; reflexivity.
  - intros Hnot.
    assert (E : parse_file w (fd_full_path d) (fd_language d) t
                = parse_file w (fd_full_path d)
                    (_detect_language (fd_full_path d)) t).
    { unfold parse_file, resolve_language. rewrite Hnot.
      destruct (not_language (_detect_language (fd_full_path d)));
        reflexivity. }
    destruct (entry_at_result w d t) as (_ & _ & r & t' & Er & He).
    exists r, t'. rewrite <- E. split; [exact Er|].
    rewrite batch_single, He, Er. reflexivity.
Qed.

Lemma C4_witness :
  (exists r,
     batch_parse_files sample_world [file_a_as_java] 0
     = (Ok (<[ "a.py" :=
                 PDict (dict_set "file_info" (file_info_val file_a_as_java)
                          r) ]> ∅), 1)
     /\ dict_get "language"
          (dict_set "file_info" (file_info_val file_a_as_java) r)
        = Some (PStr "java"))
  /\ (exists r,
        batch_parse_files sample_world [file_a_as_Python] 0
        = (Ok (<[ "a.py" :=
                    PDict (dict_set "file_info"
                             (file_info_val file_a_as_Python) r) ]> ∅), 1)
        /\ dict_get "language"
             (dict_set "file_info" (file_info_val file_a_as_Python) r)
           = Some (PStr "python")
        /\ dict_get "functions"
             (dict_set "file_info" (file_info_val file_a_as_Python) r)
           = Some (PList [])).
Proof.
  split.
  - destruct (C4_declared_language_first sample_world file_a_as_java 0)
      as [H _].
    destruct (H "java" eq_refl) as [Hrun _]; [discriminate|].
    destruct (Hrun src_doc tree_doc) as (r & _ & E & Hl);
      [reflexivity | reflexivity | reflexivity | room |].
    exists r. split; [exact E | exact Hl].
  - destruct (C4_declared_language_first sample_world file_a_as_Python 0)
      as [H _].
    destruct (H "Python" eq_refl) as [_ Hfb]; [discriminate|].
    destruct (Hfb eq_refl src_doc eq_refl) as (r & _ & E & Hl & Hf).
    exists r. split; [exact E|]. split; [exact Hl | exact Hf].
Defined.

(** C4, as the specification states it, fails: for the descriptor of
    [/r/a.py] that declares java, the detector says python, which the
    specification puts first, yet the file is parsed as java: the entry has
    the language and the keys of the java rule set and none of the functions
    of the file. *)
Lemma C4_counterexample :
  detector_first "/r/a.py" (Some "java") = Some "python"
  /\ resolve_language "/r/a.py" (Some "java") = Some "java"
  /\ resolve_language "/r/a.py" (Some "java")
     <> detector_first "/r/a.py" (Some "java")
  /\ exists m r,
       batch_parse_files sample_world [file_a_as_java] 0 = (Ok m, 1)
       /\ m !! "a.py" = Some r
       /\ get "language" r = Some (PStr "java")
       /\ get_list "functions" r = []
       /\ get_list "functions" (rule_set_result "python" tree_doc src_doc)
          <> [].
Proof.
  split; [reflexivity|]. split; [reflexivity|]. split; [discriminate|].
  exists (<[ "a.py" := entry_at sample_world file_a_as_java 0 ]> ∅),
    (entry_at sample_world file_a_as_java 0).
  split; [apply batch_single|]. split; [apply lookup_insert_eq|].
  split; [reflexivity|]. split; [reflexivity|].
  vm_compute. discriminate.
Qed.

(** * Further properties of the code *)

(** ** Language detection *)

Lemma lower_char_idempotent c : lower_char (lower_char c) = lower_char c.
Proof. destruct c as [[] [] [] [] [] [] [] []]; reflexivity. Qed.

Lemma lower_char_dot c : Ascii.eqb (lower_char c) "." = Ascii.eqb c ".".
Proof. destruct c as [[] [] [] [] [] [] [] []]; reflexivity. Qed.

Lemma lower_char_slash c : Ascii.eqb (lower_char c) "/" = Ascii.eqb c "/".
Proof. destruct c as [[] [] [] [] [] [] [] []]; reflexivity. Qed.

Lemma lower_idempotent s : lower (lower s) = lower s.
Proof.
  induction s as [|c s IH]; simpl; [reflexivity|].
  now rewrite lower_char_idempotent, IH.
Qed.

Lemma after_last_lower sep s :
  (forall c, Ascii.eqb (lower_char c) sep = Ascii.eqb c sep) ->
  after_last sep (lower s) = option_map lower (after_last sep s).
Proof.
  intros Hsep. induction s as [|c s IH]; simpl; [reflexivity|].
  rewrite IH, Hsep.
  destruct (after_last sep s); simpl; [reflexivity|].
  destruct (Ascii.eqb c sep); reflexivity.
Qed.

Lemma drop_dots_lower s : drop_dots (lower s) = lower (drop_dots s).
Proof.
  induction s as [|c s IH]; simpl; [reflexivity|].
  rewrite lower_char_dot. destruct (Ascii.eqb c "."); [exact IH | reflexivity].
Qed.

Lemma splitext_ext_lower p : splitext_ext (lower p) = lower (splitext_ext p).
Proof.
  unfold splitext_ext.
  rewrite (after_last_lower "/" p lower_char_slash).
  destruct (after_last "/" p) as [b|]; simpl;
    rewrite drop_dots_lower, (after_last_lower "." _ lower_char_dot);
    destruct (after_last "." (drop_dots _)); reflexivity.
Qed.

(** X1. Detection does not depend on the case of any letter of the path:
    two paths that differ only in case are detected as the same language. *)
Theorem detect_language_ignores_case (p q : string) :
  lower p = lower q -> _detect_language p = _detect_language q.
Proof.
  intros H. unfold _detect_language.
  rewrite <- (lower_idempotent (splitext_ext p)).
  rewrite <- (lower_idempotent (splitext_ext q)).
  now rewrite <- !splitext_ext_lower, H.
Qed.

Lemma detect_language_ignores_case_witness :
  _detect_language "SRC/Main.PY" = _detect_language "src/main.py"
  /\ _detect_language "src/main.py" = Some "python".
Proof.
  split; [|reflexivity].
  apply (detect_language_ignores_case "SRC/Main.PY" "src/main.py").
  reflexivity.
Defined.

Lemma assoc_in k l v : assoc k l = Some v -> In (k, v) l.
Proof.
  induction l as [|[k' v'] l IH]; simpl; [discriminate|].
  destruct (String.eqb k k') eqn:E.
  - apply String.eqb_eq in E. intros [= <-]. left. now subst.
  - intros H. right. now apply IH.
Qed.

Lemma detect_language_configured p l :
  _detect_language p = Some l ->
  In l configured_languages /\ l <> EmptyString.
Proof.
  unfold _detect_language. intros H. apply assoc_in in H.
  unfold extension_map in H. simpl in H.
  repeat (destruct H as [[= _ <-]|H]); try destruct H;
    (split; [simpl; tauto | discriminate]).
Qed.

Lemma member_parsers w l :
  member l (parsers w) = true <->
  In l configured_languages /\ grammar_loads w l = true.
Proof.
  unfold member, parsers. rewrite existsb_exists. split.
  - intros (x & Hx & E). apply String.eqb_eq in E. subst x.
    now apply filter_In in Hx.
  - intros H. exists l. split; [now apply filter_In | apply String.eqb_refl].
Qed.

(** X2. Every language the detector can return has a grammar configured.
    So with that grammar loaded, a file with a recognised extension and no
    declared language, once read and parsed, is not sent to the fallback for
    want of a parser: it gets the result of the rule set of its language
    when the tree finds room on the stack, and the fallback result of a
    second read only when the rule set walks the tree and the tree is higher
    than the stack allows. *)
Theorem detected_language_has_rule_set
  (w : World) (file_path : string) (language : option string) (t : nat)
  (l content : string) (tree : Node) :
  not_language language = true ->
  _detect_language file_path = Some l ->
  grammar_loads w l = true ->
  fs w t file_path = Ok content ->
  ts_parse w l content = Ok tree ->
  In l configured_languages
  /\ member l (parsers w) = true
  /\ (room_for w l tree ->
      parse_file w file_path language t
      = (Ok (rule_set_result l tree content), S t))
  /\ (In l walked_languages -> stack w < height tree ->
      parse_file w file_path language t
      = _fallback_parse w file_path (S t)).
Proof.
  intros Hnot Hdet Hload Hread Hparse.
  destruct (detect_language_configured _ _ Hdet) as [Hl _].
  assert (Hmem : member l (parsers w) = true) by now apply member_parsers.
  assert (Hres : resolve_language file_path language = Some l).
  { unfold resolve_language. now rewrite Hnot. }
  split; [exact Hl|]. split; [exact Hmem|]. split.
  - intros Hroom. now apply parse_file_registered.
  - intros Hw Hdeep. now apply (parse_file_too_deep _ _ _ _ l content tree).
Qed.

Lemma detected_language_has_rule_set_witness :
  parse_file sample_world "/r/cls.py" None 0
  = (Ok (rule_set_result "python" tree_class src_class), 1)
  /\ parse_file shallow_world "/r/cls.py" None 0
     = _fallback_parse shallow_world "/r/cls.py" 1.
Proof.
  split.
  - apply (detected_language_has_rule_set sample_world "/r/cls.py" None 0
             "python" src_class tree_class); try reflexivity. room.
  - apply (detected_language_has_rule_set shallow_world "/r/cls.py" None 0
             "python" src_class tree_class); try reflexivity.
    + left. reflexivity.
    + vm_compute. lia.
Defined.

(** ** Single files: the edges *)

(** X3. Loading the grammars is best effort, and a grammar that did not
    load only degrades the result: when the language a file resolves to has
    no parser, and so for every file when no grammar loaded at all,
    [parse_file] returns what [_fallback_parse] returns. *)
Theorem missing_grammar_degrades_to_fallback
  (w : World) (file_path : string) (language : option string) (t : nat) :
  ((forall l, resolve_language file_path language = Some l ->
              grammar_loads w l = false) ->
   parse_file w file_path language t = _fallback_parse w file_path t)
  /\ ((forall l, grammar_loads w l = false) ->
      parsers w = []
      /\ parse_file w file_path language t = _fallback_parse w file_path t).
Proof.
  assert (H1 : (forall l, resolve_language file_path language = Some l ->
                          grammar_loads w l = false) ->
               parse_file w file_path language t
               = _fallback_parse w file_path t).
  { intros H. apply parse_file_unregistered. intros l Hl.
    destruct (member l (parsers w)) eqn:E; [|reflexivity].
    apply member_parsers in E as [_ E]. rewrite (H l Hl) in E. discriminate. }
  split; [exact H1|]. intros Hnone. split; [|now apply H1; auto].
  unfold parsers. induction configured_languages as [|l ls IH]; simpl;
    [reflexivity|]. now rewrite Hnone.
Qed.

Lemma missing_grammar_degrades_to_fallback_witness :
  parsers bare_world = []
  /\ parse_file bare_world "/r/a.py" (Some "python") 0
     = _fallback_parse bare_world "/r/a.py" 0.
Proof.
  apply (missing_grammar_degrades_to_fallback bare_world "/r/a.py"
           (Some "python") 0).
  reflexivity.
Defined.

(** X4. When the parser raises on a file that was read, the file is read a
    second time by the fallback: the result is the fallback result of that
    second read, under the language the detector gives the path, whatever
    language was declared. *)
Theorem parser_failure_falls_back
  (w : World) (file_path : string) (language : option string) (t : nat)
  (l content : string) (e : exn) :
  resolve_language file_path language = Some l ->
  member l (parsers w) = true ->
  fs w t file_path = Ok content ->
  ts_parse w l content = Raise e ->
  parse_file w file_path language t = _fallback_parse w file_path (S t)
  /\ forall content',
       fs w (S t) file_path = Ok content' ->
       exists r,
         parse_file w file_path language t = (Ok r, S (S t))
         /\ get "language" r
            = Some (PStr match _detect_language file_path with
                         | Some d => d
                         | None => "unknown"
                         end)
         /\ get_int "total_lines" r
            = Some (Z.of_nat (length (split newline content'))).
Proof.
  intros Hres Hmem Hread Hparse.
  assert (Hne : String.eqb l EmptyString = false).
  { pose proof (known_language w l Hmem) as Hl. each_member Hl; reflexivity. }
  assert (E : parse_file w file_path language t
              = _fallback_parse w file_path (S t)).
  { unfold parse_file, try_except. rewrite Hres.
    unfold parse_resolved, bindIO, open_read, liftE.
    rewrite Hmem, Hne. cbn [orb negb]. cbv beta. now rewrite Hread, Hparse. }
  split; [exact E|]. intros content' Hread'.
  rewrite E, (fallback_parse_read _ _ _ _ Hread').
  eexists. split; [reflexivity|]. split; reflexivity.
Qed.

Lemma parser_failure_falls_back_witness :
  parse_file raising_world "/r/notes.txt" (Some "python") 0
  = _fallback_parse raising_world "/r/notes.txt" 1
  /\ exists r,
       parse_file raising_world "/r/notes.txt" (Some "python") 0 = (Ok r, 2)
       /\ get "language" r = Some (PStr "unknown")
       /\ get_int "total_lines" r = Some 10%Z.
Proof.
  destruct (parser_failure_falls_back raising_world "/r/notes.txt"
              (Some "python") 0 "python" ten_lines
              (mkExn "ValueError" "Parsing failed")
              eq_refl eq_refl eq_refl eq_refl) as [E H].
  split; [exact E|]. exact (H ten_lines eq_refl).
Defined.

(** X5. A file that cannot be read still gets a result: when every attempt
    to read it raises [e], [parse_file] returns the dictionary with language
    unknown, empty functions, classes and imports and the one diagnostic
    ["Parsing failed: "] followed by the message of [e], whatever the path
    and the declared language; it has no line counts. *)
Theorem unreadable_file_reported
  (w : World) (file_path : string) (language : option string) (t : nat)
  (e : exn) :
  (forall t', fs w t' file_path = Raise e) ->
  exists t',
    parse_file w file_path language t = (Ok (unreadable_result e), t')
    /\ get "lines_of_code" (unreadable_result e) = None
    /\ get "errors" (unreadable_result e)
       = Some (PList [PStr ("Parsing failed: " ++ exn_msg e)]).
Proof.
  intros Hfs.
  assert (Hfb : forall t0, _fallback_parse w file_path t0
                           = (Ok (unreadable_result e), S t0)).
  { intros t0. apply fallback_parse_unreadable. apply Hfs. }
  assert (exists t', parse_file w file_path language t
                     = (Ok (unreadable_result e), t')) as [t' E].
  { unfold parse_file, try_except, parse_resolved.
    destruct (resolve_language file_path language) as [l|];
      [|rewrite Hfb; eauto].
    destruct (String.eqb l EmptyString || negb (member l (parsers w)));
      [rewrite Hfb; eauto|].
    unfold bindIO, open_read. rewrite Hfs, Hfb. eauto. }
  exists t'. split; [exact E|]. split; reflexivity.
Qed.

Lemma unreadable_file_reported_witness :
  exists t',
    parse_file sample_world "/r/gone.py" None 0
    = (Ok (unreadable_result FileNotFoundError), t').
Proof.
  destruct (unreadable_file_reported sample_world "/r/gone.py" None 0
              FileNotFoundError (fun _ => eq_refl)) as (t' & E & _).
  exists t'. exact E.
Defined.

Lemma fallback_parse_clock w file_path t :
  snd (_fallback_parse w file_path t) = S t.
Proof.
  destruct (fallback_parse_result w file_path t) as (r & -> & _). reflexivity.
Qed.

Lemma parse_file_clock w file_path language t :
  S t <= snd (parse_file w file_path language t) <= S (S t).
Proof.
  unfold parse_file, try_except, parse_resolved.
  destruct (resolve_language file_path language) as [l|].
  - destruct (String.eqb l EmptyString || negb (member l (parsers w))).
    + destruct (fallback_parse_result w file_path t) as (r & -> & _).
      simpl. lia.
    + unfold bindIO, open_read, liftE, ret.
      destruct (fs w t file_path) as [content|e].
      * destruct (ts_parse w l content) as [tree|e].
        -- destruct (String.eqb l "python").
           { destruct (_parse_python_within (stack w) tree content);
               [simpl; lia | rewrite fallback_parse_clock; lia]. }
           destruct (member l ["javascript"; "typescript"]).
           { destruct (_parse_javascript_within (stack w) tree content);
               [simpl; lia | rewrite fallback_parse_clock; lia]. }
           case_ifs; simpl; try lia.
           destruct (fallback_parse_result w file_path (S t)) as (r & -> & _).
           simpl. lia.
        -- rewrite fallback_parse_clock. lia.
      * rewrite fallback_parse_clock. lia.
  - destruct (fallback_parse_result w file_path t) as (r & -> & _).
    simpl. lia.
Qed.

Lemma batch_fold_clock w fl :
  forall acc t,
    t + length fl <= snd (foldIO (batch_step w) fl acc t) <= t + 2 * length fl.
Proof.
  induction fl as [|d fl IH]; intros acc t.
  - simpl. lia.
  - rewrite batch_fold_cons.
    pose proof (parse_file_clock w (fd_full_path d) (fd_language d) t) as Hd.
    specialize (IH (<[fd_path d := entry_at w d t]> acc)
                  (snd (parse_file w (fd_full_path d) (fd_language d) t))).
    simpl length. lia.
Qed.

(** X6. [parse_file] opens the file at least once and at most twice, and a
    batch over [n] descriptors opens between [n] and [2 n] files. *)
Theorem files_read_once_or_twice
  (w : World) (file_path : string) (language : option string)
  (file_list : list FileDescriptor) (t : nat) :
  S t <= snd (parse_file w file_path language t) <= S (S t)
  /\ t + length file_list
     <= snd (batch_parse_files w file_list t)
     <= t + 2 * length file_list.
Proof.
  split; [apply parse_file_clock | apply batch_fold_clock].
Qed.

(** ** The batch: descriptors that share a path *)

Lemma batch_fold_app w l1 l2 :
  forall acc t,
    foldIO (batch_step w) (l1 ++ l2) acc t
    = match foldIO (batch_step w) l1 acc t with
      | (Ok m, t1) => foldIO (batch_step w) l2 m t1
      | (Raise e, t1) => (Raise e, t1)
      end.
Proof.
  induction l1 as [|d l1 IH]; intros acc t; [reflexivity|].
  rewrite <- app_comm_cons, !batch_fold_cons. apply IH.
Qed.

(** X7. When several descriptors have the same relative path, the entry of
    that path is the one of the last of them: the result of [parse_file]
    for the last descriptor, at the moment the batch reaches it, with that
    descriptor as file_info. *)
Theorem batch_last_descriptor_wins
  (w : World) (before : list FileDescriptor) (d : FileDescriptor)
  (after : list FileDescriptor) (t : nat) :
  ~ In (fd_path d) (map fd_path after) ->
  exists m t',
    batch_parse_files w (before ++ d :: after) t = (Ok m, t')
    /\ m !! fd_path d
       = Some (entry_at w d (snd (batch_parse_files w before t)))
    /\ get "file_info" (entry_at w d (snd (batch_parse_files w before t)))
       = Some (file_info_val d).
Proof.
  intros Hlast. unfold batch_parse_files.
  destruct (batch_fold_total w (before ++ d :: after) ∅ t) as (m & t' & E).
  exists m, t'. split; [exact E|]. split; [|apply entry_at_result].
  rewrite batch_fold_app in E.
  destruct (batch_fold_total w before ∅ t) as (m1 & t1 & E1).
  rewrite E1 in E |- *. simpl snd.
  rewrite batch_fold_cons in E.
  rewrite (batch_fold_untouched _ _ _ _ _ _ E _ Hlast).
  apply lookup_insert_eq.
Qed.

Lemma batch_last_descriptor_wins_witness :
  exists m t',
    batch_parse_files sample_world [file_a; file_a_as_java] 0 = (Ok m, t')
    /\ m !! "a.py" = Some (entry_at sample_world file_a_as_java 1).
Proof.
  destruct (batch_last_descriptor_wins sample_world [file_a] file_a_as_java
              [] 0) as (m & t' & E & Hm & _).
  - intros [].
  - exists m, t'. split; [exact E | exact Hm].
Defined.

(** ** The fallback: line counts *)

(** X8. In the fallback result of a file that is read, total_lines is one
    more than the number of newline characters of the content, so at least
    1, and lines_of_code is at most total_lines; an empty file has
    total_lines 1 and lines_of_code 0. *)
Theorem fallback_line_counts
  (w : World) (file_path : string) (t : nat) (content : string) :
  fs w t file_path = Ok content ->
  exists r loc total,
    _fallback_parse w file_path t = (Ok r, S t)
    /\ get_int "lines_of_code" r = Some (Z.of_nat loc)
    /\ get_int "total_lines" r = Some (Z.of_nat total)
    /\ total = S (occurrences newline content)
    /\ loc <= total
    /\ (content = EmptyString -> loc = 0 /\ total = 1).
Proof.
  intros Hread. rewrite (fallback_parse_read _ _ _ _ Hread).
  exists (PDict
            [("language",
               PStr match _detect_language file_path with
                    | Some l => l
                    | None => "unknown"
                    end);
             ("functions", PList []);
             ("classes", PList []);
             ("imports", PList []);
             ("lines_of_code",
               PInt (Z.of_nat (non_blank_lines (split newline content))));
             ("total_lines", PInt (Z.of_nat (length (split newline content))));
             ("errors",
               PList [PStr "Fallback parsing used - limited functionality"])]),
    (non_blank_lines (split newline content)),
    (length (split newline content)).
  split; [reflexivity|]. split; [reflexivity|]. split; [reflexivity|].
  split; [apply split_length|]. split.
  - unfold non_blank_lines.
    pose proof (filter_complement is_blank (split newline content)). lia.
  - intros ->. split; reflexivity.
Qed.

Lemma fallback_line_counts_witness :
  exists r,
    _fallback_parse sample_world "/r/notes.txt" 0 = (Ok r, 1)
    /\ get_int "total_lines" r
       = Some (Z.of_nat (S (occurrences newline ten_lines))).
Proof.
  destruct (fallback_line_counts sample_world "/r/notes.txt" 0 ten_lines
              eq_refl) as (r & loc & total & E & _ & Ht & -> & _).
  exists r. split; [exact E | exact Ht].
Defined.

(** ** Complexity of nested nodes *)

Lemma branches_of_children ch :
  length (List.filter is_branch (flat_map preorder ch))
  = fold_right
      (fun c acc => length (List.filter is_branch (preorder c)) + acc) 0 ch.
Proof.
  induction ch as [|c ch IH]; simpl; [reflexivity|].
  now rewrite List.filter_app, length_app, IH.
Qed.

Lemma branches_monotone n :
  forall m, In m (preorder n) ->
    length (List.filter is_branch (preorder m))
    <= length (List.filter is_branch (preorder n)).
Proof.
  induction n as [ty sp ep ch IH] using Node_rose_ind. intros m Hm.
  rewrite preorder_eq in Hm. simpl in Hm. destruct Hm as [<-|Hm]; [lia|].
  rewrite (preorder_eq (mkNode ty sp ep ch)). simpl children.
  assert (length (List.filter is_branch (preorder m))
          <= length (List.filter is_branch (flat_map preorder ch))).
  { clear ty sp ep. induction ch as [|c ch IHch]; simpl in Hm; [destruct Hm|].
    simpl. rewrite List.filter_app, length_app.
    apply Forall_cons in IH as [Hc Hch].
    apply in_app_or in Hm as [Hm|Hm].
    - pose proof (Hc m Hm). lia.
    - pose proof (IHch Hch Hm). lia. }
  simpl. destruct (is_branch _); simpl; lia.
Qed.

(** X9. The complexity of a node is 1, plus 1 if the node itself is a
    branching construct, plus what each child contributes beyond its own
    base of 1.  So complexity never decreases going up the tree: the
    branches of a nested function also count for every function around
    it. *)
Theorem complexity_of_nested_nodes (n : Node) :
  _calculate_complexity n
  = 1 + (if is_branch n then 1 else 0)
    + fold_right (fun c acc => (_calculate_complexity c - 1) + acc) 0
        (children n)
  /\ forall m, In m (preorder n) ->
       _calculate_complexity m <= _calculate_complexity n.
Proof.
  split.
  - rewrite calculate_complexity_count, preorder_eq. simpl.
    assert (H : length (List.filter is_branch (flat_map preorder (children n)))
                = fold_right
                    (fun c acc => (_calculate_complexity c - 1) + acc) 0
                    (children n)).
    { rewrite branches_of_children.
      induction (children n) as [|c ch IH]; simpl; [reflexivity|].
      rewrite IH, calculate_complexity_count. lia. }
    destruct (is_branch n); simpl; lia.
  - intros m Hm. rewrite !calculate_complexity_count.
    pose proof (branches_monotone n m Hm). lia.
Qed.

Lemma complexity_of_nested_nodes_witness :
  In fn_method (preorder tree_class)
  /\ _calculate_complexity fn_method <= _calculate_complexity tree_class.
Proof.
  assert (H : In fn_method (preorder tree_class)).
  { do 6 right. left. reflexivity. }
  split; [exact H|].
  destruct (complexity_of_nested_nodes tree_class) as [_ Hm].
  exact (Hm fn_method H).
Defined.

(** ** What the walkers collect *)

Lemma collected_map_filter rule key (sel : Node -> bool) (f : Node -> pyval)
  nodes :
  (forall n, In n nodes -> sel n = true ->
             rule n = Some (key, f n) /\ truthy (f n) = true) ->
  (forall n v, In n nodes -> sel n = false ->
               rule n = Some (key, v) -> truthy v = false) ->
  collected rule key nodes = map f (List.filter sel nodes).
Proof.
  induction nodes as [|n nodes IH]; intros Hyes Hno; [reflexivity|].
  change (n :: nodes) with ([n] ++ nodes) at 1.
  rewrite collected_app, IH.
  - unfold collected. simpl. rewrite app_nil_r.
    destruct (sel n) eqn:E.
    + destruct (Hyes n (or_introl eq_refl) E) as [-> T].
      now rewrite String.eqb_refl, T.
    + destruct (rule n) as [[k v]|] eqn:R; [|reflexivity].
      destruct (String.eqb k key) eqn:K; [|reflexivity].
      apply String.eqb_eq in K. subst k.
      now rewrite (Hno n v (or_introl eq_refl) E R).
  - intros m Hm. apply Hyes. now right.
  - intros m v Hm. apply Hno. now right.
Qed.

Lemma python_definitions_collected (tree : Node) (content : string) :
  rows_in_range tree (split newline content) ->
  get_list "functions" (_parse_python tree content)
  = map (fun n => _extract_python_function n (split newline content))
      (List.filter (fun n => is_python_function n && has_identifier n)
         (preorder tree))
  /\ get_list "classes" (_parse_python tree content)
     = map (fun n => _extract_python_class n (split newline content))
         (List.filter
            (fun n => String.eqb (type n) "class_definition"
                      && has_identifier n)
            (preorder tree)).
Proof.
  intros Hrows. split.
  - rewrite parse_python_collected by reflexivity.
    apply collected_map_filter.
    + intros n Hn Hsel. apply andb_prop in Hsel as [Hty Hid].
      apply String.eqb_eq in Hty. apply has_identifier_child in Hid as [c Hc].
      split; [now apply rule_python_functions|].
      now apply (extract_python_function_succeeds tree _ n c).
    + intros n v Hn Hsel Hr. apply rule_python_functions in Hr as [Hty ->].
      unfold is_python_function in Hsel. rewrite Hty in Hsel. simpl in Hsel.
      now rewrite extract_python_function_unnamed.
  - rewrite parse_python_collected by reflexivity.
    apply collected_map_filter.
    + intros n Hn Hsel. apply andb_prop in Hsel as [Hty Hid].
      apply String.eqb_eq in Hty. apply has_identifier_child in Hid as [c Hc].
      split; [now apply rule_python_classes|].
      now apply (extract_python_class_succeeds tree _ n c).
    + intros n v Hn Hsel Hr. apply rule_python_classes in Hr as [Hty ->].
      rewrite Hty in Hsel. simpl in Hsel.
      now rewrite extract_python_class_unnamed.
Qed.

(** X10. The Python walker misses no function and no class, nested or not:
    for a tree whose rows are lines of the content and which finds room on
    the stack, the functions of the result are the records of the
    function_definition nodes that have a name, one each, in the order of
    the pre-order walk, and likewise the classes for the class_definition
    nodes.  On a tree that is higher than the stack allows the walker
    raises, and nothing is collected. *)
Theorem python_walker_collects_every_definition
  (frames : nat) (tree : Node) (content : string) :
  rows_in_range tree (split newline content) ->
  (fits frames tree ->
   exists result,
     _parse_python_within frames tree content = Ok result
     /\ get_list "functions" result
        = map (fun n => _extract_python_function n (split newline content))
            (List.filter (fun n => is_python_function n && has_identifier n)
               (preorder tree))
     /\ get_list "classes" result
        = map (fun n => _extract_python_class n (split newline content))
            (List.filter
               (fun n => String.eqb (type n) "class_definition"
                         && has_identifier n)
               (preorder tree)))
  /\ (frames < height tree ->
      _parse_python_within frames tree content = Raise RecursionError).
Proof.
  intros Hrows. split.
  - intros Hfits. exists (_parse_python tree content).
    split; [now apply parse_python_within_fits|].
    now apply python_definitions_collected.
  - apply parse_python_within_too_deep.
Qed.

Lemma python_walker_collects_every_definition_witness :
  (exists result,
     _parse_python_within 11 tree_class src_class = Ok result
     /\ get_list "functions" result
        = [_extract_python_function fn_method (split newline src_class)]
     /\ get_list "classes" result
        = [_extract_python_class cls_a (split newline src_class)])
  /\ _parse_python_within 6 tree_class src_class = Raise RecursionError.
Proof.
  destruct (python_walker_collects_every_definition 11 tree_class src_class
              rows_in_range_class) as [H _].
  destruct (python_walker_collects_every_definition 6 tree_class src_class
              rows_in_range_class) as [_ H'].
  split.
  - apply H. unfold fits. vm_compute. lia.
  - apply H'. vm_compute. lia.
Defined.

Lemma rule_python_imports lines n r :
  rule_python lines n = Some ("imports", r) <->
  is_python_import n = true /\ r = _extract_python_import n lines.
Proof.
  unfold rule_python, is_python_import. split.
  - destruct (String.eqb (type n) "function_definition"); [discriminate|].
    destruct (String.eqb (type n) "class_definition"); [discriminate|].
    destruct (member (type n) ["import_statement"; "import_from_statement"]).
    + intros [= <-]. now split.
    + destruct (String.eqb (type n) "assignment"); discriminate.
  - intros [H ->]. unfold member in H. simpl in H.
    rewrite orb_false_r in H. apply orb_prop in H as [H|H];
      apply String.eqb_eq in H; rewrite H; reflexivity.
Qed.

Lemma rule_python_variables lines n r :
  rule_python lines n = Some ("variables", r) <->
  type n = "assignment" /\ r = _extract_python_variable n lines.
Proof.
  unfold rule_python. split.
  - destruct (String.eqb (type n) "function_definition"); [discriminate|].
    destruct (String.eqb (type n) "class_definition"); [discriminate|].
    destruct (member (type n) ["import_statement"; "import_from_statement"]);
      [discriminate|].
    destruct (String.eqb (type n) "assignment") eqn:E; [|discriminate].
    apply String.eqb_eq in E. intros [= <-]. now split.
  - intros [H ->]. rewrite H. reflexivity.
Qed.

Lemma python_imports_and_variables_collected
  (tree : Node) (content : string) :
  rows_in_range tree (split newline content) ->
  let lines := split newline content in
  get_list "imports" (_parse_python tree content)
  = map (fun n => _extract_python_import n lines)
      (List.filter is_python_import (preorder tree))
  /\ get_list "variables" (_parse_python tree content)
     = map (fun n => _extract_python_variable n lines)
         (List.filter assigns_identifier (preorder tree))
  /\ (forall n, In n (preorder tree) -> is_python_import n = true ->
        get "type" (_extract_python_import n lines) = Some (PStr (type n))
        /\ get_int "line" (_extract_python_import n lines)
           = Some (Z.of_nat (fst (start_point n)) + 1)%Z)
  /\ (forall n, In n (preorder tree) -> assigns_identifier n = true ->
        get "type" (_extract_python_variable n lines)
        = Some (PStr "variable")
        /\ get_int "line" (_extract_python_variable n lines)
           = Some (Z.of_nat (fst (start_point n)) + 1)%Z).
Proof.
  intros Hrows lines.
  assert (Himp : forall n, In n (preorder tree) ->
            exists s, _extract_python_import n lines
                      = PDict [("type", PStr (type n));
                               ("statement", PStr s);
                               ("line", line_no (fst (start_point n)))]).
  { intros n Hn. unfold _extract_python_import.
    destruct (node_text_in_range tree lines n Hrows Hn) as (s & ->).
    simpl. eauto. }
  assert (Hvar : forall n, In n (preorder tree) ->
            assigns_identifier n = true ->
            exists s, _extract_python_variable n lines
                      = PDict [("name", PStr s);
                               ("line", line_no (fst (start_point n)));
                               ("type", PStr "variable")]).
  { intros n Hn Hsel. unfold assigns_identifier in Hsel.
    apply andb_prop in Hsel as [_ Hleft].
    unfold _extract_python_variable.
    destruct (children n) as [|left_node rest] eqn:Hch; [discriminate|].
    rewrite Hleft.
    destruct (node_text_in_range tree lines left_node Hrows) as (s & ->).
    - apply (preorder_child tree n); [exact Hn|]. rewrite Hch. now left.
    - simpl. eauto. }
  split; [|split; [|split]].
  - rewrite parse_python_collected by reflexivity.
    apply collected_map_filter.
    + intros n Hn Hsel. split; [now apply rule_python_imports|].
      destruct (Himp n Hn) as (s & ->). reflexivity.
    + intros n v Hn Hsel Hr. apply rule_python_imports in Hr as [Hty _].
      congruence.
  - rewrite parse_python_collected by reflexivity.
    apply collected_map_filter.
    + intros n Hn Hsel. split.
      * apply rule_python_variables. split; [|reflexivity].
        apply andb_prop in Hsel as [Hty _]. now apply String.eqb_eq.
      * destruct (Hvar n Hn Hsel) as (s & ->). reflexivity.
    + intros n v Hn Hsel Hr. apply rule_python_variables in Hr as [Hty ->].
      unfold assigns_identifier in Hsel. rewrite Hty in Hsel. simpl in Hsel.
      unfold _extract_python_variable.
      destruct (children n) as [|left_node rest]; [reflexivity|].
      rewrite Hsel. reflexivity.
  - intros n Hn _. destruct (Himp n Hn) as (s & ->). split; reflexivity.
  - intros n Hn Hsel. destruct (Hvar n Hn Hsel) as (s & ->).
    split; reflexivity.
Qed.

(** X11. Import and variable records of the Python walker.  For a tree
    whose rows are lines of the content and which finds room on the stack:
    there is one import record per import_statement or import_from_statement
    node, carrying the kind of the node and its row plus one; there is one
    variable record per assignment node, at any depth of the tree, whose
    left-hand side is a bare identifier, and none for an assignment to
    anything else.  On a tree that is higher than the stack allows the
    walker raises, and there is no record at all. *)
Theorem python_walker_imports_and_variables
  (frames : nat) (tree : Node) (content : string) :
  rows_in_range tree (split newline content) ->
  let lines := split newline content in
  (fits frames tree ->
   exists result,
     _parse_python_within frames tree content = Ok result
     /\ get_list "imports" result
        = map (fun n => _extract_python_import n lines)
            (List.filter is_python_import (preorder tree))
     /\ get_list "variables" result
        = map (fun n => _extract_python_variable n lines)
            (List.filter assigns_identifier (preorder tree))
     /\ (forall n, In n (preorder tree) -> is_python_import n = true ->
           get "type" (_extract_python_import n lines) = Some (PStr (type n))
           /\ get_int "line" (_extract_python_import n lines)
              = Some (Z.of_nat (fst (start_point n)) + 1)%Z)
     /\ (forall n, In n (preorder tree) -> assigns_identifier n = true ->
           get "type" (_extract_python_variable n lines)
           = Some (PStr "variable")
           /\ get_int "line" (_extract_python_variable n lines)
              = Some (Z.of_nat (fst (start_point n)) + 1)%Z))
  /\ (frames < height tree ->
      _parse_python_within frames tree content = Raise RecursionError).
Proof.
  intros Hrows lines. split.
  - intros Hfits. exists (_parse_python tree content).
    split; [now apply parse_python_within_fits|].
    now apply python_imports_and_variables_collected.
  - apply parse_python_within_too_deep.
Qed.

Lemma rows_in_range_mod : rows_in_range tree_mod (split newline src_mod).
Proof. unfold rows_in_range. repeat constructor; simpl; lia. Qed.

Lemma python_walker_imports_and_variables_witness :
  exists result,
    _parse_python_within 9 tree_mod src_mod = Ok result
    /\ get_list "imports" result
       = [PDict [("type", PStr "import_statement");
                 ("statement", PStr "import os");
                 ("line", PInt 1)]]
    /\ get_list "variables" result
       = [PDict [("name", PStr "x");
                 ("line", PInt 2);
                 ("type", PStr "variable")]].
Proof.
  destruct (python_walker_imports_and_variables 9 tree_mod src_mod
              rows_in_range_mod) as [H _].
  destruct H as (result & E & Hi & Hv & _).
  - unfold fits. vm_compute. lia.
  - exists result. split; [exact E|]. split; [exact Hi | exact Hv].
Defined.

Lemma rule_javascript_functions_iff lines n r :
  rule_javascript lines n = Some ("functions", r) <->
  is_js_function n = true /\ r = _extract_js_function n lines.
Proof.
  unfold rule_javascript, is_js_function. split.
  - destruct (member (type n)
                ["function_declaration"; "function_expression";
                 "arrow_function"]).
    + intros [= <-]. now split.
    + case_ifs; discriminate.
  - intros [-> ->]. reflexivity.
Qed.

Lemma extract_js_function_succeeds tree lines n :
  rows_in_range tree lines -> In n (preorder tree) ->
  exists name,
    _extract_js_function n lines
    = PDict [("name", PStr name);
             ("start_line", line_no (fst (start_point n)));
             ("end_line", line_no (fst (end_point n)));
             ("parameters", PList []);
             ("type", PStr (type n))]
    /\ (has_identifier n = false -> name = "anonymous").
Proof.
  intros Hrows Hn. unfold _extract_js_function, has_identifier.
  destruct (first_child "identifier" (children n)) as [c|] eqn:Hc.
  - destruct (node_text_in_range tree lines c Hrows) as (s & ->).
    + apply first_child_in in Hc as [Hc _]. now apply (preorder_child tree n).
    + simpl. exists s. split; [reflexivity | discriminate].
  - simpl. exists "anonymous". split; reflexivity.
Qed.

Lemma javascript_functions_collected (tree : Node) (content : string) :
  rows_in_range tree (split newline content) ->
  let lines := split newline content in
  get_list "functions" (_parse_javascript tree content)
  = map (fun n => _extract_js_function n lines)
      (List.filter is_js_function (preorder tree))
  /\ forall n, In n (preorder tree) -> is_js_function n = true ->
       get "parameters" (_extract_js_function n lines) = Some (PList [])
       /\ (has_identifier n = false ->
           get "name" (_extract_js_function n lines)
           = Some (PStr "anonymous")).
Proof.
  intros Hrows lines. split.
  - rewrite parse_javascript_collected by reflexivity.
    apply collected_map_filter.
    + intros n Hn Hsel. split; [now apply rule_javascript_functions_iff|].
      destruct (extract_js_function_succeeds tree lines n Hrows Hn)
        as (name & -> & _). reflexivity.
    + intros n v Hn Hsel Hr.
      apply rule_javascript_functions_iff in Hr as [Hty _]. congruence.
  - intros n Hn _.
    destruct (extract_js_function_succeeds tree lines n Hrows Hn)
      as (name & -> & Hname).
    split; [reflexivity|]. intros Hid. now rewrite (Hname Hid).
Qed.

(** X12. The JavaScript walker (also used for TypeScript) misses no
    function: for a tree whose rows are lines of the content and which finds
    room on the stack, the functions of the result are the records of the
    function_declaration, function_expression and arrow_function nodes, one
    each, in the order of the pre-order walk; a function node without an
    identifier child is recorded under the name anonymous, and every record
    has an empty parameter list.  On a tree that is higher than the stack
    allows the walker raises, and nothing is collected. *)
Theorem javascript_walker_collects_every_function
  (frames : nat) (tree : Node) (content : string) :
  rows_in_range tree (split newline content) ->
  let lines := split newline content in
  (fits frames tree ->
   exists result,
     _parse_javascript_within frames tree content = Ok result
     /\ get_list "functions" result
        = map (fun n => _extract_js_function n lines)
            (List.filter is_js_function (preorder tree))
     /\ forall n, In n (preorder tree) -> is_js_function n = true ->
          get "parameters" (_extract_js_function n lines) = Some (PList [])
          /\ (has_identifier n = false ->
              get "name" (_extract_js_function n lines)
              = Some (PStr "anonymous")))
  /\ (frames < height tree ->
      _parse_javascript_within frames tree content = Raise RecursionError).
Proof.
  intros Hrows lines. split.
  - intros Hfits. exists (_parse_javascript tree content).
    split; [now apply parse_javascript_within_fits|].
    now apply javascript_functions_collected.
  - apply parse_javascript_within_too_deep.
Qed.

Lemma rows_in_range_arrow : rows_in_range tree_arrow (split newline src_arrow).
Proof. unfold rows_in_range. repeat constructor; simpl; lia. Qed.

Lemma javascript_walker_collects_every_function_witness :
  exists result,
    _parse_javascript_within 10 tree_arrow src_arrow = Ok result
    /\ get_list "functions" result
       = [PDict [("name", PStr "anonymous");
                 ("start_line", PInt 1);
                 ("end_line", PInt 1);
                 ("parameters", PList []);
                 ("type", PStr "arrow_function")]].
Proof.
  destruct (javascript_walker_collects_every_function 10 tree_arrow src_arrow
              rows_in_range_arrow) as [H _].
  destruct H as (result & E & Hf & _).
  - unfold fits. vm_compute. lia.
  - exists result. split; [exact E | exact Hf].
Defined.

(** ** The repository listing *)

Lemma member_In s l : member s l = true <-> In s l.
Proof.
  unfold member. rewrite existsb_exists. split.
  - intros (x & Hx & E). apply String.eqb_eq in E. now subst.
  - intros H. exists s. split; [exact H | apply String.eqb_refl].
Qed.

(** The three tables agree: an extension is allowed exactly when the
    language map knows it, and no name of the language map is the name of a
    grammar. *)
Lemma language_map_cases e :
  (member e ALLOWED_EXTENSIONS = true
   /\ exists L, assoc e language_map = Some L
                /\ member L configured_languages = false
                /\ str_truthy L = true)
  \/ (member e ALLOWED_EXTENSIONS = false /\ assoc e language_map = None).
Proof.
  unfold member, ALLOWED_EXTENSIONS, language_map. simpl.
  repeat (destruct (String.eqb e _);
          [left; split; [reflexivity|];
           eexists; split; [reflexivity|]; split; reflexivity|]).
  right. split; reflexivity.
Qed.

Lemma in_descriptors_of walk d :
  In d (descriptors_of walk) ->
  exists root rel files filename size,
    In (root, rel, files) walk /\ In (filename, size) files
    /\ _is_code_file filename = true
    /\ d = mkFile (path_join rel filename) (path_join root filename)
             (_get_language_from_extension (splitext_ext filename)) size.
Proof.
  unfold descriptors_of. intros H.
  apply in_flat_map in H as ([[root rel] files] & Hw & H).
  apply in_flat_map in H as ([filename size] & Hf & H).
  destruct (_is_code_file filename) eqn:E; [|destruct H].
  destruct H as [<-|[]]. exists root, rel, files, filename, size. auto.
Qed.

Lemma get_file_list_descriptors path entries :
  get_file_list path entries = descriptors_of (os_walk path entries).
Proof. reflexivity. Qed.

(** X13. The descriptors that [get_file_list] builds never reach a rule
    set.  The language it declares for a file is a name of its own table
    (Python, JavaScript, C++, ...), never empty and never the name of a
    grammar (python, javascript, cpp, ...).  So for every listed file,
    whatever grammars are loaded, [parse_file] returns what
    [_fallback_parse] returns, with no function and no class. *)
Theorem listed_files_never_reach_a_rule_set
  (w : World) (path : string) (entries : list Entry) (d : FileDescriptor)
  (t : nat) :
  In d (get_file_list path entries) ->
  (exists L, fd_language d = Some L
             /\ L <> EmptyString
             /\ ~ In L configured_languages)
  /\ parse_file w (fd_full_path d) (fd_language d) t
     = _fallback_parse w (fd_full_path d) t
  /\ exists r,
       parse_file w (fd_full_path d) (fd_language d) t = (Ok r, S t)
       /\ get_list "functions" r = []
       /\ get_list "classes" r = [].
Proof.
  intros Hd. rewrite get_file_list_descriptors in Hd.
  apply in_descriptors_of in Hd
    as (root & rel & files & filename & size & _ & _ & Hcode & ->).
  simpl fd_language; simpl fd_full_path.
  unfold _is_code_file in Hcode. unfold _get_language_from_extension.
  destruct (language_map_cases (lower (splitext_ext filename)))
    as [(_ & L & -> & Hcfg & Hne)|[Hno _]]; [|congruence].
  assert (HL : L <> EmptyString).
  { intros ->. discriminate Hne. }
  assert (Hnot : ~ In L configured_languages).
  { intros H. apply member_In in H. congruence. }
  assert (E : parse_file w (path_join root filename) (Some L) t
              = _fallback_parse w (path_join root filename) t).
  { apply parse_file_unregistered. intros l Hl.
    unfold resolve_language in Hl. simpl in Hl.
    apply String.eqb_neq in HL. rewrite HL in Hl. injection Hl as <-.
    destruct (member L (parsers w)) eqn:M; [|reflexivity].
    apply member_parsers in M as [M _]. contradiction. }
  split; [eauto|]. split; [exact E|]. rewrite E.
  destruct (fs w t (path_join root filename)) as [content|e] eqn:Hread.
  - rewrite (fallback_parse_read _ _ _ _ Hread). eexists.
    split; [reflexivity|]. split; reflexivity.
  - rewrite (fallback_parse_unreadable _ _ _ _ Hread). eexists.
    split; [reflexivity|]. split; reflexivity.
Qed.

Lemma listed_files_never_reach_a_rule_set_witness :
  In (mkFile "a.py" "/r/a.py" (Some "Python") 40)
    (get_file_list "/r" [File "a.py" 40])
  /\ parse_file sample_world "/r/a.py" (Some "Python") 0
     = _fallback_parse sample_world "/r/a.py" 0.
Proof.
  assert (H : In (mkFile "a.py" "/r/a.py" (Some "Python") 40)
                (get_file_list "/r" [File "a.py" 40])).
  { left. reflexivity. }
  split; [exact H|].
  destruct (listed_files_never_reach_a_rule_set sample_world "/r"
              [File "a.py" 40] _ 0 H) as (_ & E & _).
  exact E.
Defined.

Lemma count_files_fold files :
  forall count,
    fold_left
      (fun count '(file, _) =>
         if _is_code_file file then count + 1 else count)
      files count
    = count
      + length (List.filter (fun f : string * nat => _is_code_file (fst f))
                  files).
Proof.
  induction files as [|[file size] files IH]; intros count; simpl; [lia|].
  rewrite IH. destruct (_is_code_file file); simpl; lia.
Qed.

Lemma descriptors_of_files (root rel : string) (files : list (string * nat)) :
  length
    (flat_map
       (fun '(filename, size) =>
          if _is_code_file filename
          then [mkFile (path_join rel filename) (path_join root filename)
                  (_get_language_from_extension (splitext_ext filename))
                  size]
          else [])
       files)
  = length (List.filter (fun f : string * nat => _is_code_file (fst f))
              files).
Proof.
  induction files as [|[file size] files IH]; simpl; [reflexivity|].
  destruct (_is_code_file file); simpl; now rewrite IH.
Qed.

Lemma count_walk_fold walk :
  forall count,
    fold_left
      (fun count '(_, _, files) =>
         fold_left
           (fun count '(file, _) =>
              if _is_code_file file then count + 1 else count)
           files count)
      walk count
    = count + length (descriptors_of walk).
Proof.
  induction walk as [|[[root rel] files] walk IH]; intros count; simpl; [lia|].
  rewrite IH, count_files_fold, length_app, descriptors_of_files. lia.
Qed.

(** X14. The number of code files that [_count_code_files] reports for a
    directory is the number of descriptors that [get_file_list] returns for
    it: the file_count of the metadata and the total_files of a parse of the
    same directory agree. *)
Theorem file_count_is_length_of_file_list
  (path : string) (entries : list Entry) :
  _count_code_files path entries = length (get_file_list path entries).
Proof.
  unfold _count_code_files. now rewrite count_walk_fold.
Qed.

Lemma count_total_incr k d :
  count_total (count_set k (count_get k d 0 + 1) d) = S (count_total d).
Proof.
  unfold count_total. induction d as [|[k' v] d IH]; simpl; [reflexivity|].
  destruct (String.eqb k k'); simpl; [lia | rewrite IH; lia].
Qed.

Lemma distribution_files_fold files :
  forall lc,
    count_total
      (fold_left
         (fun language_count '(file, _) =>
            if _is_code_file file then
              match _get_language_from_extension (splitext_ext file) with
              | Some language =>
                  if str_truthy language
                  then count_set language
                         (count_get language language_count 0 + 1)
                         language_count
                  else language_count
              | None => language_count
              end
            else language_count)
         files lc)
    = count_total lc
      + length (List.filter (fun f : string * nat => _is_code_file (fst f))
                  files).
Proof.
  induction files as [|[file size] files IH]; intros lc; simpl; [lia|].
  rewrite IH. destruct (_is_code_file file) eqn:E; simpl; [|lia].
  unfold _is_code_file in E. unfold _get_language_from_extension.
  destruct (language_map_cases (lower (splitext_ext file)))
    as [(_ & L & -> & _ & ->)|[Hno _]]; [|congruence].
  rewrite count_total_incr. lia.
Qed.

Lemma distribution_walk_fold walk :
  forall lc,
    count_total
      (fold_left
         (fun language_count '(_, _, files) =>
            fold_left
              (fun language_count '(file, _) =>
                 if _is_code_file file then
                   match _get_language_from_extension (splitext_ext file) with
                   | Some language =>
                       if str_truthy language
                       then count_set language
                              (count_get language language_count 0 + 1)
                              language_count
                       else language_count
                   | None => language_count
                   end
                 else language_count)
              files language_count)
         walk lc)
    = count_total lc + length (descriptors_of walk).
Proof.
  induction walk as [|[[root rel] files] walk IH]; intros lc; simpl; [lia|].
  rewrite IH, distribution_files_fold, length_app, descriptors_of_files. lia.
Qed.

(** X15. Every code file is counted under exactly one language: the counts
    of the language distribution of a directory add up to its number of
    code files. *)
Theorem language_distribution_adds_up (path : string) (entries : list Entry) :
  count_total (_get_language_distribution path entries)
  = _count_code_files path entries.
Proof.
  unfold _get_language_distribution, _count_code_files.
  now rewrite distribution_walk_fold, count_walk_fold.
Qed.

(** ** Relative paths of a listing *)

Lemma split_concat names :
  names <> [] -> Forall valid_name names ->
  split "/" (String.concat "/" names) = names.
Proof.
  induction names as [|a names IH]; intros Hne Hvalid; [contradiction|].
  apply Forall_cons in Hvalid as [[_ Ha] Hvalid].
  destruct names as [|b names].
  - simpl. now apply split_without_sep.
  - change (String.concat "/" (a :: b :: names))
      with (a ++ String "/" (String.concat "/" (b :: names)))%string.
    rewrite (split_at_sep "/" a _ Ha), IH; [reflexivity | discriminate | auto].
Qed.

Lemma string_app_assoc (a b c : string) :
  ((a ++ b) ++ c = a ++ (b ++ c))%string.
Proof.
  induction a as [|x a IH]; [reflexivity|].
  change (String x ((a ++ b) ++ c) = String x (a ++ (b ++ c)))%string.
  now f_equal.
Qed.

Lemma concat_single_last names name :
  names <> [] ->
  String.concat "/" (names ++ [name])
  = (String.concat "/" names ++ "/" ++ name)%string.
Proof.
  induction names as [|a names IH]; intros Hne; [contradiction|].
  destruct names as [|b names].
  - reflexivity.
  - change (String.concat "/" ((a :: b :: names) ++ [name]))
      with (a ++ String "/"
                   (String.concat "/" ((b :: names) ++ [name])))%string.
    rewrite IH by discriminate.
    change (String.concat "/" (a :: b :: names))
      with (a ++ String "/" (String.concat "/" (b :: names)))%string.
    now rewrite string_app_assoc.
Qed.

Lemma starts_with_slash_valid name :
  valid_name name -> starts_with_char "/" name = false.
Proof.
  intros [_ H]. destruct name as [|c name]; [reflexivity|]. simpl in *.
  destruct (Ascii.eqb c "/"); [discriminate | reflexivity].
Qed.

Lemma ends_with_char_append c a b :
  b <> EmptyString ->
  ends_with_char c (a ++ b)%string = ends_with_char c b.
Proof.
  intros Hb. induction a as [|x a IH]; [reflexivity|].
  simpl. rewrite IH. destruct (a ++ b)%string eqn:E; [|reflexivity].
  destruct a; simpl in E; [contradiction | discriminate].
Qed.

Lemma ends_with_slash_valid name :
  valid_name name -> ends_with_char "/" name = false.
Proof.
  intros [Hne H]. induction name as [|c name IH]; [reflexivity|].
  simpl in *. destruct (Ascii.eqb c "/") eqn:E; [discriminate|].
  destruct name; [reflexivity|]. apply IH; [discriminate | exact H].
Qed.

Lemma concat_valid_not_empty names :
  names <> [] -> Forall valid_name names ->
  String.concat "/" names <> EmptyString
  /\ ends_with_char "/" (String.concat "/" names) = false.
Proof.
  induction names as [|a names IH]; intros Hne Hvalid; [contradiction|].
  apply Forall_cons in Hvalid as [Ha Hvalid].
  destruct names as [|b names].
  - simpl. split; [apply Ha | now apply ends_with_slash_valid].
  - change (String.concat "/" (a :: b :: names))
      with (a ++ String "/" (String.concat "/" (b :: names)))%string.
    destruct IH as [IH1 IH2]; [discriminate | exact Hvalid |].
    remember (String.concat "/" (b :: names)) as rest eqn:Hrest.
    clear Hrest. split.
    + destruct a; simpl; discriminate.
    + rewrite ends_with_char_append by discriminate.
      destruct rest as [|x rest]; [contradiction|]. exact IH2.
Qed.

(** [os.path.join] of a relative directory and a name is the relative path
    of the name. *)
Lemma path_join_concat names name :
  Forall valid_name names -> valid_name name ->
  path_join (String.concat "/" names) name
  = String.concat "/" (names ++ [name]).
Proof.
  intros Hvalid Hname. unfold path_join.
  rewrite (starts_with_slash_valid name Hname).
  destruct names as [|a names]; [reflexivity|].
  destruct (concat_valid_not_empty (a :: names)) as [Hne Hend];
    [discriminate | exact Hvalid |].
  apply String.eqb_neq in Hne. rewrite Hne, Hend. simpl orb. cbv iota.
  rewrite concat_single_last by discriminate. reflexivity.
Qed.

Lemma in_files_of entries f size :
  In (f, size) (files_of entries) <-> In (File f size) entries.
Proof.
  unfold files_of. rewrite in_flat_map. split.
  - intros (e & He & H). destruct e as [n s|n es]; [|destruct H].
    destruct H as [[= <- <-]|[]]. exact He.
  - intros H. exists (File f size). split; [exact H | now left].
Qed.

Lemma wf_entry_name e : wf_entry e -> valid_name (entry_name e).
Proof. intros H. inversion H; assumption. Qed.

Lemma files_of_valid entries :
  Forall wf_entry entries ->
  forall f, In f (files_of entries) -> valid_name (fst f).
Proof.
  intros Hwf [f size] Hf. apply in_files_of in Hf.
  rewrite Forall_forall in Hwf.
  apply (wf_entry_name (File f size)). apply Hwf. now apply list_elem_of_In.
Qed.

Lemma descriptors_of_app l1 l2 :
  descriptors_of (l1 ++ l2) = descriptors_of l1 ++ descriptors_of l2.
Proof. unfold descriptors_of. apply flat_map_app. Qed.

Lemma file_paths root names (files : list (string * nat)) :
  Forall valid_name names ->
  (forall f, In f files -> valid_name (fst f)) ->
  map fd_path
    (flat_map
       (fun '(filename, size) =>
          if _is_code_file filename
          then [mkFile (path_join (String.concat "/" names) filename)
                  (path_join root filename)
                  (_get_language_from_extension (splitext_ext filename))
                  size]
          else [])
       files)
  = map (fun f : string * nat => String.concat "/" (names ++ [fst f]))
      (List.filter (fun f : string * nat => _is_code_file (fst f)) files).
Proof.
  intros Hnames. induction files as [|[f size] files IH]; intros Hvalid;
    [reflexivity|].
  simpl. destruct (_is_code_file f); simpl.
  - rewrite IH by (intros; apply Hvalid; now right).
    rewrite path_join_concat; [reflexivity | exact Hnames |].
    apply (Hvalid (f, size)). now left.
  - apply IH. intros; apply Hvalid; now right.
Qed.

Lemma walk_list_paths es root names :
  Forall
    (fun e => forall root names,
       wf_entry e -> Forall valid_name names ->
       map fd_path
         (descriptors_of (walk_below root (String.concat "/" names) e))
       = map (fun p => String.concat "/" (names ++ p))
           (code_paths_below e)) es ->
  Forall wf_entry es -> Forall valid_name names ->
  map fd_path
    (descriptors_of (flat_map (walk_below root (String.concat "/" names)) es))
  = map (fun p => String.concat "/" (names ++ p))
      (flat_map code_paths_below es).
Proof.
  intros IH Hwf Hnames. induction es as [|e es IHes]; [reflexivity|].
  apply Forall_cons in IH as [He IH]. apply Forall_cons in Hwf as [We Hwf].
  simpl. rewrite descriptors_of_app, !map_app, (He root names We Hnames).
  now rewrite IHes.
Qed.

Lemma walk_below_dir root rel name es :
  walk_below root rel (Dir name es)
  = if hidden name then []
    else (path_join root name, path_join rel name, files_of es)
           :: flat_map (walk_below (path_join root name) (path_join rel name))
                es.
Proof. reflexivity. Qed.

Lemma code_paths_below_dir name es :
  code_paths_below (Dir name es)
  = if hidden name then [] else map (cons name) (code_paths es).
Proof. reflexivity. Qed.

Lemma descriptors_of_cons root rel files walk :
  descriptors_of ((root, rel, files) :: walk)
  = flat_map
      (fun '(filename, size) =>
         if _is_code_file filename
         then [mkFile (path_join rel filename) (path_join root filename)
                 (_get_language_from_extension (splitext_ext filename))
                 size]
         else [])
      files
    ++ descriptors_of walk.
Proof. reflexivity. Qed.

Lemma walk_below_paths e :
  forall root names,
    wf_entry e -> Forall valid_name names ->
    map fd_path
      (descriptors_of (walk_below root (String.concat "/" names) e))
    = map (fun p => String.concat "/" (names ++ p)) (code_paths_below e).
Proof.
  induction e as [name size|name es IH] using Entry_rose_ind;
    intros root names Hwf Hnames; [reflexivity|].
  inversion Hwf as [|name' es' Hname Hnd Hes]; subst.
  rewrite walk_below_dir, code_paths_below_dir.
  destruct (hidden name); [reflexivity|].
  assert (Hnames' : Forall valid_name (names ++ [name])).
  { apply Forall_app. split; [exact Hnames | now constructor]. }
  rewrite (path_join_concat names name Hnames Hname).
  rewrite descriptors_of_cons, map_app.
  rewrite (walk_list_paths es _ _ IH Hes Hnames').
  rewrite (file_paths _ _ _ Hnames' (files_of_valid es Hes)).
  unfold code_paths. rewrite !map_map, map_app, !map_map.
  f_equal; apply map_ext; intros p; now rewrite <- app_assoc.
Qed.

Lemma file_list_paths path entries :
  wf_dir entries ->
  map fd_path (get_file_list path entries)
  = map (String.concat "/") (code_paths entries).
Proof.
  intros [_ Hwf]. rewrite get_file_list_descriptors. unfold os_walk.
  rewrite descriptors_of_cons, map_app.
  change EmptyString with (String.concat "/" []).
  rewrite (walk_list_paths entries path []); [| |exact Hwf|constructor].
  - rewrite (file_paths path [] _ (Forall_nil_2 _) (files_of_valid _ Hwf)).
    unfold code_paths. rewrite map_app, !map_map. f_equal.
  - apply Forall_forall. intros e _ root names. apply walk_below_paths.
Qed.

Lemma names_determine_entries es :
  NoDup (map entry_name es) ->
  forall e1 e2, In e1 es -> In e2 es -> entry_name e1 = entry_name e2 ->
                e1 = e2.
Proof.
  induction es as [|e es IH]; intros Hnd e1 e2 H1 H2 Hname; [destruct H1|].
  simpl in Hnd. apply NoDup_cons in Hnd as [Hfresh Hnd].
  assert (Hout : forall x, In x es -> entry_name x <> entry_name e).
  { intros x Hx E. apply Hfresh. rewrite <- E. apply list_elem_of_In.
    now apply in_map. }
  destruct H1 as [<-|H1], H2 as [<-|H2].
  - reflexivity.
  - exfalso. now apply (Hout e2 H2).
  - exfalso. now apply (Hout e1 H1).
  - now apply IH.
Qed.

Lemma code_paths_below_head e p :
  In p (code_paths_below e) ->
  exists rest sub, p = entry_name e :: rest /\ e = Dir (entry_name e) sub.
Proof.
  destruct e as [name size|name es]; [intros []|].
  rewrite code_paths_below_dir. destruct (hidden name); [intros []|].
  intros H. apply in_map_iff in H as (rest & <- & _). simpl. eauto.
Qed.

Lemma NoDup_map_cons {A} (a : A) (l : list (list A)) :
  NoDup l -> NoDup (map (cons a) l).
Proof.
  induction l as [|x l IH]; intros H; [apply NoDup_nil_2|].
  apply NoDup_cons in H as [Hx H]. simpl. apply NoDup_cons. split.
  - intros Hin. apply Hx. apply list_elem_of_In.
    apply list_elem_of_In, in_map_iff in Hin as (y & [= <-] & Hy). exact Hy.
  - now apply IH.
Qed.

Lemma NoDup_map_inj_on {A B} (f : A -> B) (l : list A) :
  (forall x y, In x l -> In y l -> f x = f y -> x = y) ->
  NoDup l -> NoDup (map f l).
Proof.
  induction l as [|x l IH]; intros Hinj H; [apply NoDup_nil_2|].
  apply NoDup_cons in H as [Hx H]. simpl. apply NoDup_cons. split.
  - intros Hin. apply Hx. apply list_elem_of_In.
    apply list_elem_of_In, in_map_iff in Hin as (y & E & Hy).
    rewrite (Hinj x y); [exact Hy | now left | now right | now symmetry].
  - apply IH; [|exact H]. intros a b Ha Hb. apply Hinj; now right.
Qed.

Lemma code_file_names_nodup es :
  NoDup (map entry_name es) ->
  NoDup
    (map (fun f : string * nat => [fst f])
       (List.filter (fun f : string * nat => _is_code_file (fst f))
          (files_of es))).
Proof.
  induction es as [|e es IH]; intros Hnd; [apply NoDup_nil_2|].
  simpl in Hnd. apply NoDup_cons in Hnd as [Hfresh Hnd].
  destruct e as [name size|name sub]; [|now apply IH].
  simpl. destruct (_is_code_file name); [|now apply IH].
  simpl. apply NoDup_cons. split; [|now apply IH].
  intros Hin. apply Hfresh. apply list_elem_of_In.
  apply list_elem_of_In, in_map_iff in Hin as ([f s] & [= <-] & Hf).
  apply filter_In in Hf as [Hf _]. apply in_files_of in Hf.
  now apply (in_map entry_name) in Hf.
Qed.

Lemma dir_paths_nodup es :
  NoDup (map entry_name es) ->
  Forall (fun e => NoDup (code_paths_below e)) es ->
  NoDup (flat_map code_paths_below es).
Proof.
  induction es as [|e es IH]; intros Hnd Hall; [apply NoDup_nil_2|].
  simpl in Hnd. apply NoDup_cons in Hnd as [Hfresh Hnd].
  apply Forall_cons in Hall as [He Hall].
  simpl. apply NoDup_app. split; [exact He|]. split; [|now apply IH].
  intros p Hp Hq. apply list_elem_of_In in Hp, Hq.
  apply code_paths_below_head in Hp as (rest & sub & -> & _).
  apply in_flat_map in Hq as (e' & He' & Hq).
  apply code_paths_below_head in Hq as (rest' & sub' & [= E _] & _).
  apply Hfresh. rewrite E. apply list_elem_of_In. now apply in_map.
Qed.

Lemma code_paths_nodup es :
  NoDup (map entry_name es) ->
  Forall (fun e => NoDup (code_paths_below e)) es ->
  NoDup (code_paths es).
Proof.
  intros Hnd Hall. unfold code_paths. apply NoDup_app.
  split; [now apply code_file_names_nodup|].
  split; [|now apply dir_paths_nodup].
  intros p Hp Hq. apply list_elem_of_In in Hp, Hq.
  apply in_map_iff in Hp as ([f s] & <- & Hf).
  apply filter_In in Hf as [Hf _]. apply in_files_of in Hf.
  apply in_flat_map in Hq as (e & He & Hq).
  apply code_paths_below_head in Hq as (rest & sub & [= E _] & Hdir).
  simpl in E.
  assert (Heq : File f s = e).
  { apply (names_determine_entries es Hnd); auto. }
  rewrite <- Heq in Hdir. discriminate Hdir.
Qed.

Lemma code_paths_below_nodup e : wf_entry e -> NoDup (code_paths_below e).
Proof.
  induction e as [name size|name es IH] using Entry_rose_ind; intros Hwf;
    [apply NoDup_nil_2|].
  inversion Hwf as [|name' es' Hname Hnd Hes]; subst.
  rewrite code_paths_below_dir. destruct (hidden name); [apply NoDup_nil_2|].
  apply NoDup_map_cons, code_paths_nodup; [exact Hnd|].
  rewrite Forall_forall in IH, Hes |- *. intros e He. apply IH; auto.
Qed.

Lemma code_paths_valid_list es :
  Forall wf_entry es ->
  Forall (fun e => forall p, In p (code_paths_below e) ->
                             p <> [] /\ Forall valid_name p) es ->
  forall p, In p (code_paths es) -> p <> [] /\ Forall valid_name p.
Proof.
  intros Hwf Hall p Hp. unfold code_paths in Hp.
  apply in_app_or in Hp as [Hp|Hp].
  - apply in_map_iff in Hp as (f & <- & Hf). apply filter_In in Hf as [Hf _].
    split; [discriminate|]. constructor; [|constructor].
    now apply (files_of_valid es Hwf).
  - apply in_flat_map in Hp as (e & He & Hp).
    rewrite Forall_forall in Hall. apply (Hall e); [|exact Hp].
    now apply list_elem_of_In.
Qed.

Lemma code_paths_below_valid e :
  wf_entry e ->
  forall p, In p (code_paths_below e) -> p <> [] /\ Forall valid_name p.
Proof.
  induction e as [name size|name es IH] using Entry_rose_ind;
    intros Hwf p Hp; [destruct Hp|].
  inversion Hwf as [|name' es' Hname Hnd Hes]; subst.
  rewrite code_paths_below_dir in Hp. destruct (hidden name); [destruct Hp|].
  apply in_map_iff in Hp as (q & <- & Hq). split; [discriminate|].
  constructor; [exact Hname|].
  apply (code_paths_valid_list es Hes); [|exact Hq].
  rewrite Forall_forall in IH, Hes |- *. intros e He q' Hq'.
  apply (IH e He (Hes e He) q' Hq').
Qed.

Lemma file_list_paths_nodup path entries :
  wf_dir entries -> NoDup (map fd_path (get_file_list path entries)).
Proof.
  intros Hwf. rewrite (file_list_paths path entries Hwf).
  destruct Hwf as [Hnd Hwf].
  assert (Hvalid : forall p, In p (code_paths entries) ->
                             p <> [] /\ Forall valid_name p).
  { apply code_paths_valid_list; [exact Hwf|].
    rewrite Forall_forall in Hwf |- *. intros e He.
    apply code_paths_below_valid. now apply Hwf. }
  apply NoDup_map_inj_on.
  - intros p q Hp Hq E.
    destruct (Hvalid p Hp) as [Hp1 Hp2], (Hvalid q Hq) as [Hq1 Hq2].
    rewrite <- (split_concat p Hp1 Hp2), <- (split_concat q Hq1 Hq2).
    now rewrite E.
  - apply code_paths_nodup; [exact Hnd|].
    rewrite Forall_forall in Hwf |- *. intros e He.
    apply code_paths_below_nodup. now apply Hwf.
Qed.

(** X16. In a directory as the system has it (valid names, no two entries
    of one directory with the same name), the relative paths of the
    descriptors of [get_file_list] are pairwise distinct.  So a batch over
    the list returns exactly one entry per listed file: as many entries as
    the listing has descriptors, which is the file_count of the
    directory. *)
Theorem file_list_paths_are_distinct
  (w : World) (path : string) (entries : list Entry) (t : nat) :
  wf_dir entries ->
  NoDup (map fd_path (get_file_list path entries))
  /\ exists m t',
       batch_parse_files w (get_file_list path entries) t = (Ok m, t')
       /\ size m = length (get_file_list path entries)
       /\ size m = _count_code_files path entries.
Proof.
  intros Hwf.
  pose proof (file_list_paths_nodup path entries Hwf) as Hnd.
  split; [exact Hnd|]. unfold batch_parse_files.
  destruct (batch_fold_total w (get_file_list path entries) ∅ t)
    as (m & t' & E).
  exists m, t'. split; [exact E|].
  pose proof (batch_fold_dom _ _ _ _ _ _ E) as Hdom.
  rewrite dom_empty_L, union_empty_l_L in Hdom.
  assert (Hsize : size m = length (get_file_list path entries)).
  { rewrite <- size_dom, Hdom, size_list_to_set, length_map; auto. }
  split; [exact Hsize|].
  rewrite Hsize. unfold _count_code_files. now rewrite count_walk_fold.
Qed.

Lemma wf_sample_repo : wf_dir sample_repo.
Proof.
  assert (Hvalid : forall s, s <> EmptyString -> occurrences "/" s = 0 ->
                             valid_name s) by (intros; now split).
  split.
  - simpl.
    repeat (apply NoDup_cons; split;
            [intros H; apply list_elem_of_In in H; simpl in H;
             repeat (destruct H as [H|H]; try discriminate H); destruct H|]).
    apply NoDup_nil_2.
  - repeat first
      [ apply Forall_nil_2
      | apply Forall_cons_2
      | apply wf_file
      | apply wf_subdir
      | apply Hvalid; [discriminate | reflexivity]
      | simpl;
        repeat (apply NoDup_cons; split;
                [intros H; apply list_elem_of_In in H; simpl in H;
                 repeat (destruct H as [H|H]; try discriminate H);
                 destruct H|]);
        apply NoDup_nil_2 ].
Qed.

Lemma file_list_paths_are_distinct_witness :
  NoDup (map fd_path (get_file_list "repo" sample_repo))
  /\ exists m t',
       batch_parse_files sample_world (get_file_list "repo" sample_repo) 0
       = (Ok m, t')
       /\ size m = 5.
Proof.
  destruct (file_list_paths_are_distinct sample_world "repo" sample_repo 0
              wf_sample_repo) as (Hnd & m & t' & E & _ & Hsize).
  split; [exact Hnd|]. exists m, t'. split; [exact E | exact Hsize].
Defined.

(** ** The directory structure *)

Lemma tree_value_dir name sub :
  tree_value (Dir name sub) = PDict (_get_directory_structure sub).
Proof. reflexivity. Qed.

Lemma build_tree_step_other value tree e k :
  entry_name e <> k ->
  dict_get k (build_tree_step value tree e) = dict_get k tree.
Proof.
  intros Hne. unfold build_tree_step.
  destruct (hidden (entry_name e)); [reflexivity|].
  destruct e as [name size|name sub]; simpl in Hne.
  - destruct (_is_code_file name); [|reflexivity].
    now apply dict_get_set_other.
  - now apply dict_get_set_other.
Qed.

Lemma build_tree_untouched value es k :
  ~ In k (map entry_name es) ->
  forall tree,
    dict_get k (fold_left (build_tree_step value) es tree) = dict_get k tree.
Proof.
  induction es as [|e es IH]; intros Hk tree; [reflexivity|].
  simpl in Hk |- *. rewrite IH by tauto.
  apply build_tree_step_other. tauto.
Qed.

(** X17. What the structure holds for an entry of a directory whose names are
    distinct: nothing for a name that starts with a dot; for a directory,
    the structure of that directory; for a file with an allowed extension,
    its size and its extension as written (not lowercased); nothing for any
    other file.  A code file whose name starts with a dot is therefore
    listed by [get_file_list], and counted, but absent from the structure. *)
Theorem structure_of_an_entry
  (path : string) (entries : list Entry) (e : Entry) :
  NoDup (map entry_name entries) ->
  In e entries ->
  dict_get (entry_name e) (_get_directory_structure entries)
  = (if hidden (entry_name e) then None
     else match e with
          | Dir _ sub => Some (PDict (_get_directory_structure sub))
          | File name size =>
              if _is_code_file name
              then Some (PDict [("type", PStr "file");
                                ("size", PInt (Z.of_nat size));
                                ("extension", PStr (splitext_ext name))])
              else None
          end)
  /\ (forall name size,
        e = File name size -> _is_code_file name = true ->
        In (mkFile (path_join EmptyString name) (path_join path name)
              (_get_language_from_extension (splitext_ext name)) size)
          (get_file_list path entries)).
Proof.
  intros Hnd He. split.
  - apply in_split in He as (l1 & l2 & ->).
    rewrite map_app in Hnd. simpl in Hnd.
    apply NoDup_app in Hnd as (_ & H1 & H2).
    apply NoDup_cons in H2 as [H2 _].
    assert (Hl1 : ~ In (entry_name e) (map entry_name l1)).
    { intros H. apply list_elem_of_In in H. apply (H1 _ H). now left. }
    assert (Hl2 : ~ In (entry_name e) (map entry_name l2)).
    { intros H. apply H2. now apply list_elem_of_In. }
    unfold _get_directory_structure. rewrite fold_left_app. simpl.
    rewrite (build_tree_untouched _ _ _ Hl2).
    pose proof (build_tree_untouched tree_value l1 _ Hl1 []) as Hnone.
    simpl in Hnone. unfold build_tree_step.
    destruct (hidden (entry_name e)); [exact Hnone|].
    destruct e as [name size|name sub]; simpl entry_name in *.
    + destruct (_is_code_file name); [apply dict_get_set_same | exact Hnone].
    + rewrite dict_get_set_same. now rewrite tree_value_dir.
  - intros name size -> Hcode. rewrite get_file_list_descriptors.
    unfold os_walk. rewrite descriptors_of_cons. apply in_or_app. left.
    apply in_flat_map. exists (name, size).
    split; [now apply in_files_of|]. rewrite Hcode. now left.
Qed.

Lemma structure_of_an_entry_witness :
  dict_get ".hidden.py" (_get_directory_structure sample_repo) = None
  /\ In (mkFile ".hidden.py" "repo/.hidden.py" (Some "Python") 10)
       (get_file_list "repo" sample_repo).
Proof.
  destruct wf_sample_repo as [Hnd _].
  destruct (structure_of_an_entry "repo" sample_repo (File ".hidden.py" 10)
              Hnd) as [Hget Hlist].
  - right. right. left. reflexivity.
  - split; [exact Hget|]. apply (Hlist ".hidden.py" 10); reflexivity.
Defined.

(** ** Rows for the store *)

(** X18. Every record of the walkers can be stored.  For a function record
    of the Python or of the JavaScript walker, building the row of
    [_save_parsed_function] raises no KeyError and the row has a complexity
    of at least 1: the one computed for a Python function, the default 1 for
    a JavaScript function, which has none.  For a class record of either
    walker the row of [_save_parsed_class] is built as well; its attributes
    are empty and its docstring is None, since no walker extracts them. *)
Theorem walker_records_can_be_stored
  (tree : Node) (content : string) (file_id : Z) (r : pyval) :
  (In r (get_list "functions" (_parse_python tree content))
   \/ In r (get_list "functions" (_parse_javascript tree content)) ->
   exists row c,
     parsed_function_row file_id r = Ok row
     /\ get "name" row = get "name" r
     /\ get "start_line" row = get "start_line" r
     /\ get "end_line" row = get "end_line" r
     /\ get_int "complexity" row = Some c
     /\ (1 <= c)%Z)
  /\ (In r (get_list "classes" (_parse_python tree content))
      \/ In r (get_list "classes" (_parse_javascript tree content)) ->
      exists row,
        parsed_class_row file_id r = Ok row
        /\ get "name" row = get "name" r
        /\ get "attributes" row = Some (PList [])
        /\ get "docstring" row = Some PNone).
Proof.
  split.
  - intros [H|H].
    + rewrite parse_python_collected in H by reflexivity.
      apply in_collected in H as (n & _ & Hr & T).
      apply rule_python_functions in Hr as [_ ->].
      destruct (extract_python_function_record _ _ T)
        as (name & params & doc & ->).
      eexists. exists (Z.of_nat (_calculate_complexity n)).
      split; [reflexivity|]. repeat (split; [reflexivity|]).
      rewrite calculate_complexity_count. lia.
    + rewrite parse_javascript_collected in H by reflexivity.
      apply in_collected in H as (n & _ & Hr & T).
      apply rule_javascript_functions in Hr as ->.
      destruct (extract_js_function_record _ _ T) as (name & ->).
      eexists. exists 1%Z.
      split; [reflexivity|]. repeat (split; [reflexivity|]). lia.
  - intros [H|H].
    + rewrite parse_python_collected in H by reflexivity.
      apply in_collected in H as (n & _ & Hr & T).
      apply rule_python_classes in Hr as [_ ->].
      destruct (extract_python_class_record _ _ T) as (name & ->).
      eexists. split; [reflexivity|]. repeat split; reflexivity.
    + rewrite parse_javascript_collected in H by reflexivity.
      apply in_collected in H as (n & _ & Hr & T).
      apply rule_javascript_classes in Hr as ->.
      destruct (extract_js_class_record _ _ T) as (name & ->).
      eexists. split; [reflexivity|]. repeat split; reflexivity.
Qed.

Lemma walker_records_can_be_stored_witness :
  exists row c,
    parsed_function_row 7
      (_extract_js_function fn_js (split newline src_js)) = Ok row
    /\ get_int "complexity" row = Some c
    /\ (1 <= c)%Z.
Proof.
  destruct (walker_records_can_be_stored tree_js src_js 7
              (_extract_js_function fn_js (split newline src_js)))
    as [H _].
  destruct H as (row & c & E & _ & _ & _ & Hc & Hle).
  - right. left. reflexivity.
  - exists row, c. auto.
Defined.

Lemma getitem_dict d k v : dict_get k d = Some v -> getitem (PDict d) k = Ok v.
Proof. intros H. unfold getitem. now rewrite H. Qed.

(** X19. What the batch stores for a descriptor is what
    [_save_parsed_file] needs.  The entry holds the descriptor as file_info,
    so the row is built from a further read of the descriptor's full path:
    when that read succeeds the row has the content read, the relative path
    and the language of the entry; when it raises, building the row raises
    the same error.  The lines_of_code of the row is the count of the
    fallback when the entry is a fallback result, and 0 when the entry comes
    from a rule set, which counts no lines: that is when the language is
    registered, the file read and parsed and, for a rule set that walks the
    tree, the tree finds room on the stack. *)
Theorem batch_entries_can_be_stored
  (w : World) (repo_id : Z) (d : FileDescriptor) (t t2 : nat) :
  (forall content,
     fs w t2 (fd_full_path d) = Ok content ->
     exists row,
       code_file_row w repo_id (fd_path d) (entry_at w d t) t2
       = (Ok row, S t2)
       /\ get "content" row = Some (PStr content)
       /\ get "file_path" row = Some (PStr (fd_path d))
       /\ get "language" row = get "language" (entry_at w d t)
       /\ get "lines_of_code" row
          = Some (get_default (entry_at w d t) "lines_of_code" (PInt 0)))
  /\ (forall e,
        fs w t2 (fd_full_path d) = Raise e ->
        code_file_row w repo_id (fd_path d) (entry_at w d t) t2
        = (Raise e, S t2))
  /\ (forall l content tree,
        resolve_language (fd_full_path d) (fd_language d) = Some l ->
        member l (parsers w) = true ->
        fs w t (fd_full_path d) = Ok content ->
        ts_parse w l content = Ok tree ->
        room_for w l tree ->
        get_default (entry_at w d t) "lines_of_code" (PInt 0) = PInt 0)
  /\ (forall content,
        (forall l, resolve_language (fd_full_path d) (fd_language d) = Some l ->
                   member l (parsers w) = false) ->
        fs w t (fd_full_path d) = Ok content ->
        get_default (entry_at w d t) "lines_of_code" (PInt 0)
        = PInt (Z.of_nat (non_blank_lines (split newline content)))).
Proof.
  destruct (entry_at_result w d t)
    as ((dd & lang & fs0 & es & Hentry & Hlang & _ & _) & Hinfo & _).
  assert (Hrow : forall t',
            code_file_row w repo_id (fd_path d) (entry_at w d t) t'
            = match fs w t' (fd_full_path d) with
              | Ok content =>
                  (Ok (PDict
                         [("repo_id", PInt repo_id);
                          ("file_path", PStr (fd_path d));
                          ("language", PStr lang);
                          ("content", PStr content);
                          ("parsed_data", entry_at w d t);
                          ("functions",
                            get_default (entry_at w d t) "functions"
                              (PList []));
                          ("classes",
                            get_default (entry_at w d t) "classes"
                              (PList []));
                          ("imports",
                            get_default (entry_at w d t) "imports"
                              (PList []));
                          ("lines_of_code",
                            get_default (entry_at w d t) "lines_of_code"
                              (PInt 0))]),
                   S t')
              | Raise e => (Raise e, S t')
              end).
  { intros t'. unfold code_file_row, bindIO, liftE, open_read, ret.
    rewrite Hentry in Hinfo |- *. simpl in Hinfo.
    rewrite (getitem_dict _ _ _ Hinfo), (getitem_dict _ _ _ Hlang).
    unfold file_info_val. simpl.
    destruct (fs w t' (fd_full_path d)); reflexivity. }
  split; [|split; [|split]].
  - intros content Hread. rewrite Hrow, Hread. eexists.
    split; [reflexivity|]. repeat (split; [reflexivity|]).
    split; [|reflexivity]. rewrite Hentry. simpl. now rewrite Hlang.
  - intros e Hread. now rewrite Hrow, Hread.
  - intros l content tree Hres Hmem Hread Hparse Hroom.
    unfold entry_at.
    rewrite (parse_file_registered _ _ _ _ _ _ _ Hres Hmem Hread Hparse
               Hroom).
    pose proof (known_language w l Hmem) as Hl.
    destruct (rule_set_keys l tree content Hl) as (r & -> & Hkeys).
    unfold get_default, get.
    rewrite dict_get_set_other by discriminate.
    pose proof (dict_get_member "lines_of_code" r) as Hm.
    rewrite Hkeys in Hm. clear -Hm Hl.
    destruct (dict_get "lines_of_code" r); [|reflexivity].
    exfalso. each_member Hl; discriminate Hm.
  - intros content Hunreg Hread. unfold entry_at.
    rewrite (parse_file_unregistered _ _ _ _ Hunreg).
    rewrite (fallback_parse_read _ _ _ _ Hread). reflexivity.
Qed.

Lemma batch_entries_can_be_stored_witness :
  exists row,
    code_file_row sample_world 1 "a.py" (entry_at sample_world file_a 0) 5
    = (Ok row, 6)
    /\ get "content" row = Some (PStr src_doc)
    /\ get "lines_of_code" row = Some (PInt 0).
Proof.
  destruct (batch_entries_can_be_stored sample_world 1 file_a 0 5)
    as (Hrow & _ & Hzero & _).
  destruct (Hrow src_doc eq_refl) as (row & E & Hc & _ & _ & Hloc).
  exists row. split; [exact E|]. split; [exact Hc|].
  assert (Hroom : room_for sample_world "python" tree_doc) by room.
  now rewrite Hloc, (Hzero "python" src_doc tree_doc eq_refl eq_refl eq_refl
                       eq_refl Hroom).
Defined.
